(** * Acquisition: the filter-matching engine of [src/filters.cpp]

    A shallow embedding of the item filters (name search, min/max range
    filters, socket and link colour filters) together with the properties
    the specification states about them. *)

From Stdlib Require Import ZArith Lia Bool List Ascii String.
From Stdlib Require Import QArith Qpower Lqa.
From Stdlib Require Import Floats.SpecFloat.
From stdpp Require Import base gmap strings list.

Local Open Scope Z_scope.

(** ** C++ [int]: 32-bit two's complement, kept as [Z] with the wrap written out.

    Signed overflow is undefined behaviour in C++; the wrap is what the
    compiled code does on the usual targets. *)
Module Int.
Definition min_int : Z := - 2 ^ 31.
Definition max_int : Z := 2 ^ 31 - 1.

Definition wrap (z : Z) : Z := (z + 2 ^ 31) mod 2 ^ 32 - 2 ^ 31.

Definition in_range (z : Z) : Prop := min_int <= z <= max_int.

Definition add (a b : Z) : Z := wrap (a + b).
Definition sub (a b : Z) : Z := wrap (a - b).
(** [++x] *)
Definition incr (a : Z) : Z := add a 1.
(** [std::max] on two ints *)
Definition max (a b : Z) : Z := if a <? b then b else a.
(** [a <= b] *)
Definition le (a b : Z) : bool := a <=? b.
(** [a != b] *)
Definition ne (a b : Z) : bool := negb (a =? b).
End Int.

(** ** C++ [double]: IEEE 754 binary64 values, compared as the hardware does. *)
Module Double.
Abbreviation t := spec_float.
Definition prec : Z := 53.
Definition emax : Z := 1024.

(** [a < b], [a > b], [a <= b], [a >= b], [a == b] *)
Definition lt (a b : t) : bool := SFltb a b.
Definition gt (a b : t) : bool := SFltb b a.
Definition le (a b : t) : bool := SFleb a b.
Definition ge (a b : t) : bool := SFleb b a.
Definition eq (a b : t) : bool := SFeqb a b.

Definition is_nan (a : t) : bool :=
  match a with S754_nan => true | _ => false end.

(** the implicit conversion [int -> double] (exact for every 32-bit int) *)
Definition of_int (n : Z) : t := binary_normalize prec emax n 0 false.

Definition zero : t := S754_zero false.
End Double.

(** ** Exceptions: [std::stod] and [std::map::at] throw; nothing in the file
    catches, so a throw propagates out of [Matches]. *)
Inductive exception : Type :=
| invalid_argument
| out_of_range.

Inductive result (A : Type) : Type :=
| Return (a : A)
| Throw (e : exception).
Arguments Return {A} a.
Arguments Throw {A} e.

#[global] Instance result_ret : MRet result := @Return.
#[global] Instance result_bind : MBind result := fun A B k m =>
  match m with
  | Return a => k a
  | Throw e => Throw e
  end.

(** ** The item

    Modelled from the spec: the Item class is declared in item.h, which is
    not among the sources. The record has the accessors that filters.cpp
    calls, with the types the specification's data model gives them. *)
Module Socket.
(** one element of [item->json()["sockets"]] *)
Record t : Type := mk { group : Z; attr : string }.
End Socket.

Module Item.
Record t : Type := mk {
  PrettyName : string;
  (** [properties()]: property name to its textual value *)
  properties : gmap string string;
  (** [requirements()]: requirement name to its number, recorded as the
      [double] that [return requirements.at(property_)] converts it to *)
  requirements : gmap string Double.t;
  sockets : Z;
  links : Z;
  sockets_r : Z;
  sockets_g : Z;
  sockets_b : Z;
  sockets_w : Z;
  (** [json()["sockets"]], in the order listed *)
  json_sockets : list Socket.t
}.
End Item.

(** ** FilterData

    Modelled from the spec: the members of FilterData are declared in
    filters.h, which is not among the sources; they are the ones the
    constructor and the filters of filters.cpp read and write. *)
Module FilterData.
Record t : Type := mk {
  text_query : string;
  min : Double.t;
  max : Double.t;
  min_filled : bool;
  max_filled : bool;
  r : Z;
  g : Z;
  b : Z;
  r_filled : bool;
  g_filled : bool;
  b_filled : bool
}.

(** [FilterData::FilterData]: the constructor initialises the query and the
    five flags; [min], [max], [r], [g], [b] are left uninitialised, so their
    contents are whatever the caller's memory holds. *)
Definition new (min0 max0 : Double.t) (r0 g0 b0 : Z) : t :=
  {| text_query := "";
     min := min0; max := max0;
     min_filled := false; max_filled := false;
     r := r0; g := g0; b := b0;
     r_filled := false; g_filled := false; b_filled := false |}.

(** assignments to the members *)
Definition set_text_query (q : string) (d : t) : t :=
  mk q (min d) (max d) (min_filled d) (max_filled d)
     (r d) (g d) (b d) (r_filled d) (g_filled d) (b_filled d).
Definition set_min (filled : bool) (v : Double.t) (d : t) : t :=
  mk (text_query d) v (max d) filled (max_filled d)
     (r d) (g d) (b d) (r_filled d) (g_filled d) (b_filled d).
Definition set_max (filled : bool) (v : Double.t) (d : t) : t :=
  mk (text_query d) (min d) v (min_filled d) filled
     (r d) (g d) (b d) (r_filled d) (g_filled d) (b_filled d).
Definition set_r (filled : bool) (v : Z) (d : t) : t :=
  mk (text_query d) (min d) (max d) (min_filled d) (max_filled d)
     v (g d) (b d) filled (g_filled d) (b_filled d).
Definition set_g (filled : bool) (v : Z) (d : t) : t :=
  mk (text_query d) (min d) (max d) (min_filled d) (max_filled d)
     (r d) v (b d) (r_filled d) filled (b_filled d).
Definition set_b (filled : bool) (v : Z) (d : t) : t :=
  mk (text_query d) (min d) (max d) (min_filled d) (max_filled d)
     (r d) (g d) v (r_filled d) (g_filled d) filled.
End FilterData.

(** ** SocketsColorsFilter / LinksColorsFilter *)

(** [SocketsColorsFilter::Check] *)
Definition Check (need_r need_g need_b got_r got_g got_b got_w : Z) : bool :=
  let diff :=
    Int.add (Int.add (Int.max 0 (Int.sub need_r got_r))
                     (Int.max 0 (Int.sub need_g got_g)))
            (Int.max 0 (Int.sub need_b got_b)) in
  Int.le diff got_w.

(** the locals [need_r], [need_g], [need_b]: 0 unless the field is filled *)
Definition need_r (data : FilterData.t) : Z :=
  if FilterData.r_filled data then FilterData.r data else 0.
Definition need_g (data : FilterData.t) : Z :=
  if FilterData.g_filled data then FilterData.g data else 0.
Definition need_b (data : FilterData.t) : Z :=
  if FilterData.b_filled data then FilterData.b data else 0.

(** the guard [!data->r_filled && !data->g_filled && !data->b_filled] *)
Definition no_color_filled (data : FilterData.t) : bool :=
  negb (FilterData.r_filled data) && negb (FilterData.g_filled data)
  && negb (FilterData.b_filled data).

(** [SocketsColorsFilter::Matches] *)
Definition SocketsColorsFilter_Matches (item : Item.t) (data : FilterData.t) : bool :=
  if no_color_filled data then true
  else Check (need_r data) (need_g data) (need_b data)
             (Item.sockets_r item) (Item.sockets_g item) (Item.sockets_b item)
             (Item.sockets_w item).

(** The locals of the loop in [LinksColorsFilter::Matches]. *)
Module Scan.
Record t : Type := mk {
  current : Z;
  got_r : Z;
  got_g : Z;
  got_b : Z;
  got_w : Z
}.

(** [int current = 0, got_r = 0, got_g = 0, got_b = 0, got_w = 0;] *)
Definition init : t := mk 0 0 0 0 0.
End Scan.

(** [Check(need_r, need_g, need_b, got_r, got_g, got_b, got_w)] on the locals *)
Definition Check_scan (data : FilterData.t) (st : Scan.t) : bool :=
  Check (need_r data) (need_g data) (need_b data)
        (Scan.got_r st) (Scan.got_g st) (Scan.got_b st) (Scan.got_w st).

(** [got_r = got_g = got_b = 0;] *)
Definition reset_counters (st : Scan.t) : Scan.t :=
  Scan.mk (Scan.current st) 0 0 0 (Scan.got_w st).

(** [socket["attr"].asString()[0]]: the first character, NUL for an empty string *)
Definition first_char (s : string) : ascii :=
  match s with
  | EmptyString => "000"%char
  | String c _ => c
  end.

(** [current = socket["group"].asInt(); switch (socket["attr"].asString()[0]) ...] *)
Definition count_socket (socket : Socket.t) (st : Scan.t) : Scan.t :=
  let cur := Socket.group socket in
  let c := first_char (Socket.attr socket) in
  if Ascii.eqb c "S" then
    Scan.mk cur (Int.incr (Scan.got_r st)) (Scan.got_g st) (Scan.got_b st) (Scan.got_w st)
  else if Ascii.eqb c "D" then
    Scan.mk cur (Scan.got_r st) (Int.incr (Scan.got_g st)) (Scan.got_b st) (Scan.got_w st)
  else if Ascii.eqb c "I" then
    Scan.mk cur (Scan.got_r st) (Scan.got_g st) (Int.incr (Scan.got_b st)) (Scan.got_w st)
  else if Ascii.eqb c "G" then
    Scan.mk cur (Scan.got_r st) (Scan.got_g st) (Scan.got_b st) (Int.incr (Scan.got_w st))
  else
    Scan.mk cur (Scan.got_r st) (Scan.got_g st) (Scan.got_b st) (Scan.got_w st).

(** One iteration of the loop body: [inl true] is the early [return true],
    [inr st'] the locals after the iteration. *)
Definition loop_body (data : FilterData.t) (socket : Socket.t) (st : Scan.t)
  : bool + Scan.t :=
  if Int.ne (Scan.current st) (Socket.group socket) then
    if Check_scan data st then inl true
    else inr (count_socket socket (reset_counters st))
  else inr (count_socket socket st).

(** The [for] loop over [item->json()["sockets"]]: [inl true] when an
    iteration returned early, [inr st] with the locals at the loop's end. *)
Fixpoint for_sockets (data : FilterData.t) (l : list Socket.t) (st : Scan.t)
  : bool + Scan.t :=
  match l with
  | [] => inr st
  | socket :: rest =>
      match loop_body data socket st with
      | inl b => inl b
      | inr st' => for_sockets data rest st'
      end
  end.

(** [LinksColorsFilter::Matches] *)
Definition LinksColorsFilter_Matches (item : Item.t) (data : FilterData.t) : bool :=
  if no_color_filled data then true
  else match for_sockets data (Item.json_sockets item) Scan.init with
       | inl b => b
       | inr st => Check_scan data st
       end.

(** *** The group scan as the specification words it

    A second definition, written from the specification's state machine and
    not from the code: at a group boundary every counter of the closed group
    is reset. It is what the code is compared with. *)
Definition spec_reset_counters (st : Scan.t) : Scan.t :=
  Scan.mk (Scan.current st) 0 0 0 0.

Definition spec_loop_body (data : FilterData.t) (socket : Socket.t) (st : Scan.t)
  : bool + Scan.t :=
  if Int.ne (Scan.current st) (Socket.group socket) then
    if Check_scan data st then inl true
    else inr (count_socket socket (spec_reset_counters st))
  else inr (count_socket socket st).

Fixpoint spec_for_sockets (data : FilterData.t) (l : list Socket.t) (st : Scan.t)
  : bool + Scan.t :=
  match l with
  | [] => inr st
  | socket :: rest =>
      match spec_loop_body data socket st with
      | inl b => inl b
      | inr st' => spec_for_sockets data rest st'
      end
  end.

Definition spec_LinksColorsFilter_Matches (item : Item.t) (data : FilterData.t) : bool :=
  if no_color_filled data then true
  else match spec_for_sockets data (Item.json_sockets item) Scan.init with
       | inl b => b
       | inr st => Check_scan data st
       end.

(** The contiguous link groups of a socket list, in order: [cur] is the id of
    the open group and [acc] its sockets so far. The scan starts with group 0
    open, so the first group is empty when the first socket is not in group 0. *)
Fixpoint split_groups (cur : Z) (acc : list Socket.t) (l : list Socket.t)
  : list (list Socket.t) :=
  match l with
  | [] => [acc]
  | socket :: rest =>
      if Int.ne cur (Socket.group socket)
      then acc :: split_groups (Socket.group socket) [socket] rest
      else split_groups cur (acc ++ [socket]) rest
  end.

Definition link_groups (item : Item.t) : list (list Socket.t) :=
  split_groups 0 [] (Item.json_sockets item).

(** the colour counts of one group, counted from zero *)
Definition group_counts (grp : list Socket.t) : Scan.t :=
  fold_left (fun st socket => count_socket socket st) grp Scan.init.

Definition group_satisfies (data : FilterData.t) (grp : list Socket.t) : bool :=
  Check_scan data (group_counts grp).

Definition some_group_satisfies (data : FilterData.t) (item : Item.t) : bool :=
  existsb (group_satisfies data) (link_groups item).

(** ** NameSearchFilter *)

(** [::tolower] in the C locale: only 'A'..'Z' change *)
Definition tolower (c : ascii) : ascii :=
  let n := N_of_ascii c in
  if ((65 <=? n) && (n <=? 90))%N then ascii_of_N (n + 32) else c.

(** [std::transform(s.begin(), s.end(), s.begin(), ::tolower)] *)
Fixpoint transform_tolower (s : string) : string :=
  match s with
  | EmptyString => EmptyString
  | String c s' => String (tolower c) (transform_tolower s')
  end.

(** does [s] start with [q]? *)
Fixpoint starts_with (q s : string) : bool :=
  match q, s with
  | EmptyString, _ => true
  | String _ _, EmptyString => false
  | String a q', String c s' => Ascii.eqb a c && starts_with q' s'
  end.

(** [s.find(q)]: the lowest position at which [q] occurs in [s];
    [None] is [std::string::npos] *)
Fixpoint find (s q : string) : option nat :=
  if starts_with q s then Some O
  else match s with
       | EmptyString => None
       | String _ s' => S <$> find s' q
       end.

(** [NameSearchFilter::Matches] *)
Definition NameSearchFilter_Matches (item : Item.t) (data : FilterData.t) : bool :=
  let query := transform_tolower (FilterData.text_query data) in
  let name := transform_tolower (Item.PrettyName item) in
  match find name query with
  | Some _ => true
  | None => false
  end.

(** ** The MinMaxFilter family *)

(** Modelled from the spec: the class declarations are in filters.h, which is
    not among the sources. The specification lists the variants: NameSearch,
    the five derived from MinMax, SocketsColors and LinksColors.

    The five classes derived from [MinMaxFilter], with their members: *)
Inductive MinMaxFilter : Type :=
| SimplePropertyFilter (property_ : string)
| RequiredStatFilter (property_ : string)
| ItemMethodFilter (func_ : Item.t -> Double.t)
| SocketsFilter
| LinksFilter.

(** All filter classes of the file. *)
Inductive Filter : Type :=
| NameSearchFilter
| MinMax (f : MinMaxFilter)
| SocketsColorsFilter
| LinksColorsFilter.

(** [std::map::count]: 1 when the key is there, else 0 *)
Definition map_count {V : Type} (m : gmap string V) (k : string) : Z :=
  match m !! k with
  | Some _ => 1
  | None => 0
  end.

(** [std::map::at]: throws [std::out_of_range] when the key is missing *)
Definition map_at {V : Type} (m : gmap string V) (k : string) : result V :=
  match m !! k with
  | Some v => Return v
  | None => Throw out_of_range
  end.

(** conversion of an integer to [bool]: non-zero is true *)
Definition to_bool (n : Z) : bool := negb (n =? 0).

(** [IsValuePresent]. [SimplePropertyFilter::IsValuePresent] is in the file. *)
Definition SimplePropertyFilter_IsValuePresent (property_ : string) (item : Item.t) : bool :=
  to_bool (map_count (Item.properties item) property_).

(** Modelled from the spec: the [IsValuePresent] of the other four classes is
    defined in filters.h, which is not among the sources; the specification
    says of each of them that its value is always present. *)
Definition IsValuePresent (f : MinMaxFilter) (item : Item.t) : bool :=
  match f with
  | SimplePropertyFilter property_ => SimplePropertyFilter_IsValuePresent property_ item
  | RequiredStatFilter _ => true
  | ItemMethodFilter _ => true
  | SocketsFilter => true
  | LinksFilter => true
  end.

(** [RequiredStatFilter::GetValue] *)
Definition RequiredStatFilter_GetValue (property_ : string) (item : Item.t)
  : result Double.t :=
  let requirements := Item.requirements item in
  if to_bool (map_count requirements property_)
  then map_at requirements property_
  else Return Double.zero.

Section Engine.

(** [std::stod], from the C++ standard library: the number a string starts
    with, or a throw ([std::invalid_argument] when no conversion can be
    performed, [std::out_of_range] when the value does not fit). *)
Variable stod : string -> result Double.t.

(** [SimplePropertyFilter::GetValue] *)
Definition SimplePropertyFilter_GetValue (property_ : string) (item : Item.t)
  : result Double.t :=
  s ← map_at (Item.properties item) property_; stod s.

(** [GetValue], dispatched on the class *)
Definition GetValue (f : MinMaxFilter) (item : Item.t) : result Double.t :=
  match f with
  | SimplePropertyFilter property_ => SimplePropertyFilter_GetValue property_ item
  | RequiredStatFilter property_ => RequiredStatFilter_GetValue property_ item
  | ItemMethodFilter func_ => Return (func_ item)
  | SocketsFilter => Return (Double.of_int (Item.sockets item))
  | LinksFilter => Return (Double.of_int (Item.links item))
  end.

(** [MinMaxFilter::Matches] *)
Definition MinMaxFilter_Matches (f : MinMaxFilter) (item : Item.t) (data : FilterData.t)
  : result bool :=
  if IsValuePresent f item then
    value ← GetValue f item;
    if FilterData.min_filled data && Double.gt (FilterData.min data) value then
      Return false
    else if FilterData.max_filled data && Double.lt (FilterData.max data) value then
      Return false
    else Return true
  else
    Return (negb (FilterData.max_filled data) && negb (FilterData.min_filled data)).

(** [FilterData::Matches]: [filter_->Matches(item, this)], a virtual call *)
Definition Matches (filter_ : Filter) (item : Item.t) (data : FilterData.t)
  : result bool :=
  match filter_ with
  | NameSearchFilter => Return (NameSearchFilter_Matches item data)
  | MinMax f => MinMaxFilter_Matches f item data
  | SocketsColorsFilter => Return (SocketsColorsFilter_Matches item data)
  | LinksColorsFilter => Return (LinksColorsFilter_Matches item data)
  end.

End Engine.

(** ** What the specification states about [Check], in unbounded integers *)

(** the deficit: the sockets missing per colour, added up *)
Definition deficit (need_r need_g need_b got_r got_g got_b : Z) : Z :=
  Z.max 0 (need_r - got_r) + Z.max 0 (need_g - got_g) + Z.max 0 (need_b - got_b).

(** the three differences and their sum are representable as [int] *)
Definition deficit_fits (need_r need_g need_b got_r got_g got_b : Z) : Prop :=
  Int.in_range (need_r - got_r) /\ Int.in_range (need_g - got_g)
  /\ Int.in_range (need_b - got_b)
  /\ Int.in_range (deficit need_r need_g need_b got_r got_g got_b).

(** ** Text and numbers: the library conversions

    [std::stod] and Qt's [QString::toDouble], [QString::toInt] and
    [QString::number] are library code. The embedding of the filters takes
    them as parameters; the definitions here are reference instances, written
    from the C++ standard and the Qt documentation, on which the parametric
    statements are run. *)
Module Numeral.

Definition is_digit (c : ascii) : bool :=
  let n := N_of_ascii c in ((48 <=? n) && (n <=? 57))%N.

Definition digit_value (c : ascii) : Z := Z.of_N (N_of_ascii c) - 48.

(** [isspace] in the C locale *)
Definition is_space (c : ascii) : bool :=
  let n := N_of_ascii c in ((n =? 32) || ((9 <=? n) && (n <=? 13)))%N.

Fixpoint skip_space (s : string) : string :=
  match s with
  | String c rest => if is_space c then skip_space rest else s
  | EmptyString => EmptyString
  end.

Fixpoint all_space (s : string) : bool :=
  match s with
  | String c rest => is_space c && all_space rest
  | EmptyString => true
  end.

(** an optional sign: [true] for '-' *)
Definition read_sign (s : string) : bool * string :=
  match s with
  | String c rest =>
      if Ascii.eqb c "-" then (true, rest)
      else if Ascii.eqb c "+" then (false, rest)
      else (false, s)
  | EmptyString => (false, s)
  end.

(** the longest run of decimal digits: the number read on top of [acc],
    how many digits there were, and what follows *)
Fixpoint read_digits (s : string) (acc : Z) : Z * nat * string :=
  match s with
  | String c rest =>
      if is_digit c then
        let '(v, n, rest') := read_digits rest (10 * acc + digit_value c) in
        (v, S n, rest')
      else (acc, O, s)
  | EmptyString => (acc, O, s)
  end.

(** an optional exponent part [e[+-]digits]: its value and what follows *)
Definition read_exponent (s : string) : Z * string :=
  match s with
  | String c rest =>
      if Ascii.eqb c "e" || Ascii.eqb c "E" then
        let '(neg, rest1) := read_sign rest in
        let '(v, n, rest2) := read_digits rest1 0 in
        match n with
        | O => (0, s)
        | S _ => (if neg then - v else v, rest2)
        end
      else (0, s)
  | EmptyString => (0, s)
  end.

(** a decimal floating constant [digits[.digits][e[+-]digits]] with at
    least one digit: the pair [(M, E)] for the number [M * 10^E], and
    what follows; [None] when no number starts [s] *)
Definition read_decimal (s : string) : option (Z * Z * string) :=
  let '(ip, n1, rest1) := read_digits s 0 in
  let '(m, n2, rest2) :=
    match rest1 with
    | String c rest =>
        if Ascii.eqb c "." then read_digits rest ip else (ip, O, rest1)
    | EmptyString => (ip, O, rest1)
    end in
  match (n1 + n2)%nat with
  | O => None
  | S _ =>
      let '(e, rest3) := read_exponent rest2 in
      Some (m, e - Z.of_nat n2, rest3)
  end.

(** the double nearest to [M * 10^E] for [M >= 0] (ties to even), negated
    when [neg]; a quotient is cut to 64 bits or more with a sticky bit
    before the final rounding *)
Definition of_decimal (neg : bool) (M E : Z) : Double.t :=
  let signed (z : Z) := if neg then - z else z in
  if M =? 0 then S754_zero neg
  else if 0 <=? E then
    binary_normalize Double.prec Double.emax (signed (M * 10 ^ E)) 0 false
  else
    let den := 10 ^ (- E) in
    let s := Z.max 0 (64 + Z.log2 den - Z.log2 M) in
    let num := M * 2 ^ s in
    let q := num / den in
    let sticky := if num mod den =? 0 then 0 else 1 in
    binary_normalize Double.prec Double.emax (signed (2 * q + sticky)) (- s - 1) false.

Definition is_infinite (v : Double.t) : bool :=
  match v with S754_infinity _ => true | _ => false end.

Definition is_xdigit (c : ascii) : bool :=
  let n := N_of_ascii c in
  (((48 <=? n) && (n <=? 57)) || ((65 <=? n) && (n <=? 70))
   || ((97 <=? n) && (n <=? 102)))%N.

Definition xdigit_value (c : ascii) : Z :=
  let n := Z.of_N (N_of_ascii c) in
  if n <=? 57 then n - 48 else if n <=? 70 then n - 55 else n - 87.

(** the longest run of hexadecimal digits, as [read_digits] *)
Fixpoint read_xdigits (s : string) (acc : Z) : Z * nat * string :=
  match s with
  | String c rest =>
      if is_xdigit c then
        let '(v, n, rest') := read_xdigits rest (16 * acc + xdigit_value c) in
        (v, S n, rest')
      else (acc, O, s)
  | EmptyString => (acc, O, s)
  end.

(** an optional binary exponent part [p[+-]digits] *)
Definition read_binary_exponent (s : string) : Z * string :=
  match s with
  | String c rest =>
      if Ascii.eqb c "p" || Ascii.eqb c "P" then
        let '(neg, rest1) := read_sign rest in
        let '(v, n, rest2) := read_digits rest1 0 in
        match n with
        | O => (0, s)
        | S _ => (if neg then - v else v, rest2)
        end
      else (0, s)
  | EmptyString => (0, s)
  end.

(** a hexadecimal floating constant [0x hex[.hex][p[+-]digits]] with at
    least one hexadecimal digit: the pair [(M, E)] for the number
    [M * 2^E], and what follows; [None] when [s] does not start with one *)
Definition read_hexadecimal (s : string) : option (Z * Z * string) :=
  match s with
  | String c0 (String c1 body) =>
      if Ascii.eqb c0 "0" && (Ascii.eqb c1 "x" || Ascii.eqb c1 "X") then
        let '(ip, n1, rest1) := read_xdigits body 0 in
        let '(m, n2, rest2) :=
          match rest1 with
          | String c rest =>
              if Ascii.eqb c "." then read_xdigits rest ip else (ip, O, rest1)
          | EmptyString => (ip, O, rest1)
          end in
        match (n1 + n2)%nat with
        | O => None
        | S _ =>
            let '(e, rest3) := read_binary_exponent rest2 in
            Some (m, e - 4 * Z.of_nat n2, rest3)
        end
      else None
  | _ => None
  end.

(** the double nearest to [M * 2^E] for [M >= 0], negated when [neg] *)
Definition of_hexadecimal (neg : bool) (M E : Z) : Double.t :=
  if M =? 0 then S754_zero neg
  else binary_normalize Double.prec Double.emax (if neg then - M else M) E false.

(** the magnitude [M * base^E] as a fraction *)
Definition ratio (base M E : Z) : Z * Z :=
  if 0 <=? E then (M * base ^ E, 1) else (M, base ^ (- E)).

(** the fraction, rounded to 53 bits, is below the smallest normal double
    [2^-1022]: it is less than [2^-1022 - 2^-1076] *)
Definition is_tiny (q : Z * Z) : bool :=
  let '(num, den) := q in num * 2 ^ 1076 <? den * (2 ^ 54 - 1).

(** the magnitude of [v] is the fraction: nothing was lost in rounding *)
Definition is_exact (v : Double.t) (q : Z * Z) : bool :=
  let '(num, den) := q in
  match v with
  | S754_zero _ => num =? 0
  | S754_finite _ m e =>
      if 0 <=? e then Z.pos m * 2 ^ e * den =? num
      else Z.pos m * den =? num * 2 ^ (- e)
  | S754_infinity _ | S754_nan => false
  end.

(** what [std::stod] makes of the range error of [strtod]: an overflow, or
    a result below the normal range that is not exact, is thrown as
    [std::out_of_range] *)
Definition range_checked (v : Double.t) (q : Z * Z) : result Double.t :=
  if is_infinite v then Throw out_of_range
  else if is_tiny q && negb (is_exact v q) then Throw out_of_range
  else Return v.

(** [std::stod]: white space, a sign, then "inf", "infinity" or "nan" in
    any case, a hexadecimal constant or a decimal constant; the rest of the
    string is ignored. Throws [std::invalid_argument] when no number starts
    the string and [std::out_of_range] when the number overflows or
    underflows. *)
Definition stod (str : string) : result Double.t :=
  let '(neg, s) := read_sign (skip_space str) in
  let low := transform_tolower s in
  if starts_with "inf" low then Return (S754_infinity neg)
  else if starts_with "nan" low then Return S754_nan
  else match read_hexadecimal s with
       | Some (m, e, _) => range_checked (of_hexadecimal neg m e) (ratio 2 m e)
       | None =>
           match read_decimal s with
           | None => Throw invalid_argument
           | Some (m, e, _) => range_checked (of_decimal neg m e) (ratio 10 m e)
           end
       end.

(** [QString::toDouble] in the C locale: the whole text, white space in
    front apart, has to be a decimal constant followed by white space only,
    "inf" with an optional sign, or "nan" without one; overflow gives an
    infinity and a text that is no number gives 0.0. *)
Definition toDouble (text : string) : Double.t :=
  let '(neg, s) := read_sign (skip_space text) in
  let low := transform_tolower s in
  if String.eqb low "inf" then S754_infinity neg
  else if String.eqb (transform_tolower (skip_space text)) "nan" then S754_nan
  else match read_decimal s with
       | Some (m, e, rest) =>
           if all_space rest then of_decimal neg m e else Double.zero
       | None => Double.zero
       end.

(** [QString::toInt]: base 10, white space at both ends apart; 0 when the
    text is no number or the number is no [int]. *)
Definition toInt (text : string) : Z :=
  let '(neg, s) := read_sign (skip_space text) in
  let '(v, n, rest) := read_digits s 0 in
  let z := if neg then - v else v in
  match n with
  | O => 0
  | S _ =>
      if all_space rest && (Int.min_int <=? z) && (z <=? Int.max_int) then z else 0
  end.

(** the character of a digit 0..9 *)
Definition digit_char (d : Z) : ascii := ascii_of_N (Z.to_N d + 48).

(** the decimal digits of [n >= 0] in front of [acc], most significant
    first; [fuel] bounds the number of digits after the first *)
Fixpoint digits_acc (fuel : nat) (n : Z) (acc : string) : string :=
  let acc' := String (digit_char (n mod 10)) acc in
  match fuel with
  | O => acc'
  | S fuel' => if n <? 10 then acc' else digits_acc fuel' (n / 10) acc'
  end.

(** the decimal digits of a natural number *)
Definition digits (n : Z) : string := digits_acc (Z.to_nat (Z.log2 n)) n "".

(** the count of digits read grows by [p] *)
Definition more_digits (p : nat) (r : Z * nat * string) : Z * nat * string :=
  let '(v, n, rest) := r in (v, (p + n)%nat, rest).

(** [QString::number(int)] *)
Definition number_int (n : Z) : string :=
  if n <? 0 then "-" +:+ digits (- n) else digits n.

Fixpoint strip_zeros_rev (s : list ascii) : list ascii :=
  match s with
  | c :: rest => if Ascii.eqb c "0" then strip_zeros_rev rest else s
  | [] => []
  end.

(** drop the trailing zeros of a digit string *)
Definition strip_trailing_zeros (s : string) : string :=
  string_of_list_ascii (rev (strip_zeros_rev (rev (list_ascii_of_string s)))).

(** [n / d] rounded to the nearest integer, ties to even ([n >= 0], [d > 0]) *)
Definition div_nearest_even (n d : Z) : Z :=
  let q := n / d in
  let r := n mod d in
  match 2 * r ?= d with
  | Lt => q
  | Gt => q + 1
  | Eq => if Z.even q then q else q + 1
  end.

(** [num / den * 10^k] as a fraction *)
Definition scale10 (num den k : Z) : Z * Z :=
  if 0 <=? k then (num * 10 ^ k, den) else (num, den * 10 ^ (- k)).

(** the decimal exponent [X] of the positive number [num / den]:
    [10^X <= num / den < 10^(X+1)] *)
Definition decimal_exponent (num den : Z) : Z :=
  let x0 := Z.of_nat (String.length (digits num))
            - Z.of_nat (String.length (digits den)) in
  let '(n, d) := scale10 num den (- x0) in
  if d <=? n then x0 else x0 - 1.

Definition zeros (n : nat) : string := string_of_list_ascii (repeat "0"%char n).

(** the exponent part of the 'e' format: a sign and two digits or more *)
Definition exponent_text (x : Z) : string :=
  let a := Z.abs x in
  (if x <? 0 then "e-" else "e+") +:+ (if a <? 10 then "0" else "") +:+ digits a.

(** the positive number [num / den] in the 'g' format with 6 significant
    digits: rounded to 6 digits, written with an exponent when the decimal
    exponent is below -4 or at least 6, without trailing zeros *)
Definition format_g6 (num den : Z) : string :=
  let x := decimal_exponent num den in
  let '(n, d) := scale10 num den (5 - x) in
  let m := div_nearest_even n d in
  let '(m, x) := if 1000000 <=? m then (100000, x + 1) else (m, x) in
  let ds := digits m in
  if (x <? -4) || (6 <=? x) then
    let frac := strip_trailing_zeros (substring 1 5 ds) in
    substring 0 1 ds +:+ (if String.eqb frac "" then "" else "." +:+ frac)
    +:+ exponent_text x
  else if 0 <=? x then
    let k := Z.to_nat (x + 1) in
    let frac := strip_trailing_zeros (substring k (6 - k) ds) in
    substring 0 k ds +:+ (if String.eqb frac "" then "" else "." +:+ frac)
  else
    "0." +:+ zeros (Z.to_nat (- x - 1)) +:+ strip_trailing_zeros ds.

(** [QString::number(double)]: format 'g', precision 6 *)
Definition number_double (v : Double.t) : string :=
  match v with
  | S754_nan => "nan"
  | S754_infinity neg => if neg then "-inf" else "inf"
  | S754_zero neg => if neg then "-0" else "0"
  | S754_finite neg m e =>
      let '(num, den) :=
        if 0 <=? e then (Z.pos m * 2 ^ e, 1) else (Z.pos m, 2 ^ (- e)) in
      (if neg then "-" else "") +:+ format_g6 num den
  end.

End Numeral.

(** ** The forms

    The Qt conversions between a textbox's text and a number, as a parameter
    of the form code. *)
Module Qt.
Record conversions : Type := mk {
  toDouble : string -> Double.t;
  toInt : string -> Z;
  number_double : Double.t -> string;
  number_int : Z -> string
}.

Definition model : conversions :=
  mk Numeral.toDouble Numeral.toInt Numeral.number_double Numeral.number_int.
End Qt.

(** The text of the [QLineEdit] widgets the filters own. *)
Module Form.
Record t : Type := mk {
  textbox_ : string;
  textbox_min_ : string;
  textbox_max_ : string;
  textbox_r_ : string;
  textbox_g_ : string;
  textbox_b_ : string
}.

Definition empty : t := mk "" "" "" "" "" "".

(** [setText] on each widget *)
Definition set_textbox_ (text : string) (f : t) : t :=
  mk text (textbox_min_ f) (textbox_max_ f) (textbox_r_ f) (textbox_g_ f) (textbox_b_ f).
Definition set_textbox_min_ (text : string) (f : t) : t :=
  mk (textbox_ f) text (textbox_max_ f) (textbox_r_ f) (textbox_g_ f) (textbox_b_ f).
Definition set_textbox_max_ (text : string) (f : t) : t :=
  mk (textbox_ f) (textbox_min_ f) text (textbox_r_ f) (textbox_g_ f) (textbox_b_ f).
Definition set_textbox_r_ (text : string) (f : t) : t :=
  mk (textbox_ f) (textbox_min_ f) (textbox_max_ f) text (textbox_g_ f) (textbox_b_ f).
Definition set_textbox_g_ (text : string) (f : t) : t :=
  mk (textbox_ f) (textbox_min_ f) (textbox_max_ f) (textbox_r_ f) text (textbox_b_ f).
Definition set_textbox_b_ (text : string) (f : t) : t :=
  mk (textbox_ f) (textbox_min_ f) (textbox_max_ f) (textbox_r_ f) (textbox_g_ f) text.
End Form.

(** [text().size() > 0] *)
Definition size_positive (text : string) : bool :=
  match text with
  | EmptyString => false
  | String _ _ => true
  end.

(** the characters a [const char *] shows: those before the first NUL
    ([toUtf8().constData()] assigned to a [std::string], and [c_str()]
    given to [setText]) *)
Fixpoint c_str (s : string) : string :=
  match s with
  | EmptyString => EmptyString
  | String c rest => if Ascii.eqb c "000" then EmptyString else String c (c_str rest)
  end.

Section Forms.

Variable qt : Qt.conversions.

(** [NameSearchFilter::FromForm] *)
Definition NameSearchFilter_FromForm (form : Form.t) (data : FilterData.t) : FilterData.t :=
  FilterData.set_text_query (c_str (Form.textbox_ form)) data.

(** [NameSearchFilter::ToForm] *)
Definition NameSearchFilter_ToForm (data : FilterData.t) (form : Form.t) : Form.t :=
  Form.set_textbox_ (c_str (FilterData.text_query data)) form.

(** [MinMaxFilter::FromForm] *)
Definition MinMaxFilter_FromForm (form : Form.t) (data : FilterData.t) : FilterData.t :=
  let data := FilterData.set_min (size_positive (Form.textbox_min_ form))
                                 (Qt.toDouble qt (Form.textbox_min_ form)) data in
  FilterData.set_max (size_positive (Form.textbox_max_ form))
                     (Qt.toDouble qt (Form.textbox_max_ form)) data.

(** [MinMaxFilter::ToForm] *)
Definition MinMaxFilter_ToForm (data : FilterData.t) (form : Form.t) : Form.t :=
  let form :=
    if FilterData.min_filled data
    then Form.set_textbox_min_ (Qt.number_double qt (FilterData.min data)) form
    else Form.set_textbox_min_ "" form in
  if FilterData.max_filled data
  then Form.set_textbox_max_ (Qt.number_double qt (FilterData.max data)) form
  else Form.set_textbox_max_ "" form.

(** [SocketsColorsFilter::FromForm] *)
Definition SocketsColorsFilter_FromForm (form : Form.t) (data : FilterData.t)
  : FilterData.t :=
  let data := FilterData.set_r (size_positive (Form.textbox_r_ form))
                               (Qt.toInt qt (Form.textbox_r_ form)) data in
  let data := FilterData.set_g (size_positive (Form.textbox_g_ form))
                               (Qt.toInt qt (Form.textbox_g_ form)) data in
  FilterData.set_b (size_positive (Form.textbox_b_ form))
                   (Qt.toInt qt (Form.textbox_b_ form)) data.

(** [SocketsColorsFilter::ToForm]: there is no [else] branch *)
Definition SocketsColorsFilter_ToForm (data : FilterData.t) (form : Form.t) : Form.t :=
  let form :=
    if FilterData.r_filled data
    then Form.set_textbox_r_ (Qt.number_int qt (FilterData.r data)) form
    else form in
  let form :=
    if FilterData.g_filled data
    then Form.set_textbox_g_ (Qt.number_int qt (FilterData.g data)) form
    else form in
  if FilterData.b_filled data
  then Form.set_textbox_b_ (Qt.number_int qt (FilterData.b data)) form
  else form.

(** [FilterData::FromForm]: [filter_->FromForm(this)]. The classes derived
    from MinMaxFilter inherit its form code, LinksColorsFilter that of
    SocketsColorsFilter. *)
Definition FromForm (filter_ : Filter) (form : Form.t) (data : FilterData.t)
  : FilterData.t :=
  match filter_ with
  | NameSearchFilter => NameSearchFilter_FromForm form data
  | MinMax _ => MinMaxFilter_FromForm form data
  | SocketsColorsFilter => SocketsColorsFilter_FromForm form data
  | LinksColorsFilter => SocketsColorsFilter_FromForm form data
  end.

(** [FilterData::ToForm]: [filter_->ToForm(this)] *)
Definition ToForm (filter_ : Filter) (data : FilterData.t) (form : Form.t) : Form.t :=
  match filter_ with
  | NameSearchFilter => NameSearchFilter_ToForm data form
  | MinMax _ => MinMaxFilter_ToForm data form
  | SocketsColorsFilter => SocketsColorsFilter_ToForm data form
  | LinksColorsFilter => SocketsColorsFilter_ToForm data form
  end.

(** A filled field's number survives the form: what [QString::number]
    prints for it is not empty and reads back as the same number. *)
Definition int_survives (text : string) : Prop :=
  size_positive text = true ->
  size_positive (Qt.number_int qt (Qt.toInt qt text)) = true
  /\ Qt.toInt qt (Qt.number_int qt (Qt.toInt qt text)) = Qt.toInt qt text.

Definition double_survives (text : string) : Prop :=
  size_positive text = true ->
  size_positive (Qt.number_double qt (Qt.toDouble qt text)) = true
  /\ Qt.toDouble qt (Qt.number_double qt (Qt.toDouble qt text)) = Qt.toDouble qt text.

End Forms.

(** ** Numbers that survive the form

    [QString::number] prints a double with six significant digits, so a bound
    comes back from the form unchanged when six digits render it. The
    notions here state that, and what the proofs about the reference
    instance of the conversions need: a fraction scaled by a power of two,
    the end of a rounding, and the text of six digits. *)

(** [num / den * 2^k] as a fraction *)
Definition scale2 (num den k : Z) : Z * Z :=
  if 0 <=? k then (num * 2 ^ k, den) else (num, den * 2 ^ (- k)).

(** the whole part of [num / den * 2^k] *)
Definition floor_scaled (num den k : Z) : Z :=
  let '(a, b) := scale2 num den k in a / b.

(** [num / den * 2^k] is a whole number *)
Definition exact_scaled (num den k : Z) : bool :=
  let '(a, b) := scale2 num den k in a mod b =? 0.

(** the end of a rounding to nearest, ties to even, at the last place
    [2^T]: the number holds [h] halves of the last place, and something
    more when [inexact] *)
Definition round_finish (sx : bool) (T h : Z) (inexact : bool) : Double.t :=
  let mrs := {| shr_m := h / 2; shr_r := Z.odd h; shr_s := inexact |} in
  let '(mrs', e') :=
    shr_fexp 53 1024 (round_nearest_even (shr_m mrs) (loc_of_shr_record mrs))
             T loc_Exact in
  match shr_m mrs' with
  | Z0 => S754_zero sx
  | Zpos m => if e' <=? 1024 - 53 then S754_finite sx m e' else S754_infinity sx
  | Zneg _ => S754_nan
  end.

(** the text of the 'g' format for the six digits [m] and the decimal
    exponent [x] *)
Definition g6_text (m x : Z) : string :=
  let ds := Numeral.digits m in
  if (x <? -4) || (6 <=? x) then
    let frac := Numeral.strip_trailing_zeros (substring 1 5 ds) in
    substring 0 1 ds +:+ (if String.eqb frac "" then "" else "." +:+ frac)
    +:+ Numeral.exponent_text x
  else if 0 <=? x then
    let k := Z.to_nat (x + 1) in
    let frac := Numeral.strip_trailing_zeros (substring k (6 - k) ds) in
    substring 0 k ds +:+ (if String.eqb frac "" then "" else "." +:+ frac)
  else
    "0." +:+ Numeral.zeros (Z.to_nat (- x - 1)) +:+ Numeral.strip_trailing_zeros ds.

(** A double that six significant digits render: the double of a decimal
    number [M * 10^E] of at most six digits, of either sign, with an
    exponent between -300 and 300 (zero is such a number); an infinity; or
    NaN. *)
Definition six_digits (v : Double.t) : Prop :=
  v = S754_nan
  \/ (exists neg : bool, v = S754_infinity neg)
  \/ exists (neg : bool) (M E : Z),
       0 <= M < 1000000 /\ - 300 <= E <= 300 /\ v = Numeral.of_decimal neg M E.

(** The text of a field, when it is filled, reads through the reference
    instance of [QString::toDouble] as such a double. A text that is no
    number reads as 0.0, which is one. *)
Definition reads_six_digits (text : string) : Prop :=
  size_positive text = true -> six_digits (Numeral.toDouble text).

(** the condition on a form: for a range filter both bounds read as
    doubles of at most six significant digits; the name search and the
    colour filters need nothing *)
Definition six_digit_bounds (filter_ : Filter) (form : Form.t) : Prop :=
  match filter_ with
  | MinMax _ =>
      reads_six_digits (Form.textbox_min_ form)
      /\ reads_six_digits (Form.textbox_max_ form)
  | NameSearchFilter | SocketsColorsFilter | LinksColorsFilter => True
  end.

(** ** Sample data *)

(** a colour requirement *)
Definition colors_data (r_filled : bool) (r : Z) (g_filled : bool) (g : Z)
           (b_filled : bool) (b : Z) : FilterData.t :=
  FilterData.mk "" Double.zero Double.zero false false r g b r_filled g_filled b_filled.

(** bounds of a range filter *)
Definition minmax_data (min_filled : bool) (min : Double.t)
           (max_filled : bool) (max : Double.t) : FilterData.t :=
  FilterData.mk "" min max min_filled max_filled 0 0 0 false false false.

(** an item given by its per-colour socket counts *)
Definition socket_counts_item (got_r got_g got_b got_w : Z) : Item.t :=
  Item.mk "" ∅ ∅ (got_r + got_g + got_b + got_w) 0 got_r got_g got_b got_w [].

(** an item given by its sockets *)
Definition sockets_item (l : list Socket.t) : Item.t :=
  Item.mk "" ∅ ∅ (Z.of_nat (length l)) 0 0 0 0 0 l.

(** an item given by its properties *)
Definition properties_item (properties : gmap string string) : Item.t :=
  Item.mk "" properties ∅ 0 0 0 0 0 0 [].

(** agreement of two scan states on the four counters *)
Definition same_counts (st st' : Scan.t) : Prop :=
  Scan.got_r st = Scan.got_r st' /\ Scan.got_g st = Scan.got_g st'
  /\ Scan.got_b st = Scan.got_b st' /\ Scan.got_w st = Scan.got_w st'.


(** ** Case folding as the specification words it

    A second definition, written from the specification's "case-folded" and
    not from the code: each of the capital letters A to Z stands for its small
    letter, every other character for itself. It is what the code's
    [::tolower] pass is compared with. *)
Definition fold_letter (c : ascii) : ascii :=
  match c with
  | "A" => "a"
  | "B" => "b"
  | "C" => "c"
  | "D" => "d"
  | "E" => "e"
  | "F" => "f"
  | "G" => "g"
  | "H" => "h"
  | "I" => "i"
  | "J" => "j"
  | "K" => "k"
  | "L" => "l"
  | "M" => "m"
  | "N" => "n"
  | "O" => "o"
  | "P" => "p"
  | "Q" => "q"
  | "R" => "r"
  | "S" => "s"
  | "T" => "t"
  | "U" => "u"
  | "V" => "v"
  | "W" => "w"
  | "X" => "x"
  | "Y" => "y"
  | "Z" => "z"
  | _ => c
  end%char.

Fixpoint case_fold (s : string) : string :=
  match s with
  | EmptyString => EmptyString
  | String c rest => String (fold_letter c) (case_fold rest)
  end.

(** ** ResetForm *)

(** [NameSearchFilter::ResetForm] *)
Definition NameSearchFilter_ResetForm (form : Form.t) : Form.t :=
  Form.set_textbox_ "" form.

(** [MinMaxFilter::ResetForm] *)
Definition MinMaxFilter_ResetForm (form : Form.t) : Form.t :=
  Form.set_textbox_max_ "" (Form.set_textbox_min_ "" form).

(** [SocketsColorsFilter::ResetForm] *)
Definition SocketsColorsFilter_ResetForm (form : Form.t) : Form.t :=
  Form.set_textbox_b_ "" (Form.set_textbox_g_ "" (Form.set_textbox_r_ "" form)).

(** [ResetForm], dispatched on the class like [FromForm] and [ToForm] *)
Definition ResetForm (filter_ : Filter) (form : Form.t) : Form.t :=
  match filter_ with
  | NameSearchFilter => NameSearchFilter_ResetForm form
  | MinMax _ => MinMaxFilter_ResetForm form
  | SocketsColorsFilter => SocketsColorsFilter_ResetForm form
  | LinksColorsFilter => SocketsColorsFilter_ResetForm form
  end.

(** ** What the group scan of the code amounts to *)

(** Does some group pass [Check] on its own red, green and blue counts and on
    the white sockets of the group added to [white_before], those of the
    groups in front of it? *)
Fixpoint some_group_accepted (data : FilterData.t) (white_before : Z)
         (groups : list (list Socket.t)) : bool :=
  match groups with
  | [] => false
  | grp :: rest =>
      let c := group_counts grp in
      let white := Int.add white_before (Scan.got_w c) in
      Check (need_r data) (need_g data) (need_b data)
            (Scan.got_r c) (Scan.got_g c) (Scan.got_b c) white
      || some_group_accepted data white rest
  end.

(** the scan state [st] has the colour counts [c] of the open group, with
    [white_before] white sockets on top *)
Definition tracks (white_before : Z) (st c : Scan.t) : Prop :=
  Scan.got_r st = Scan.got_r c /\ Scan.got_g st = Scan.got_g c
  /\ Scan.got_b st = Scan.got_b c
  /\ Scan.got_w st = Int.add white_before (Scan.got_w c).

(** no NUL character in the text *)
Fixpoint no_nul (s : string) : bool :=
  match s with
  | EmptyString => true
  | String c rest => negb (Ascii.eqb c "000") && no_nul rest
  end.

(** an item given by its name *)
Definition named_item (name : string) : Item.t :=
  Item.mk name ∅ ∅ 0 0 0 0 0 0 [].

(** * Properties *)

(** ** Machine integers *)

Lemma wrap_in_range (z : Z) : Int.in_range z -> Int.wrap z = z.
Proof.
  unfold Int.in_range, Int.min_int, Int.max_int, Int.wrap. intros H.
  rewrite Z.mod_small; lia.
Qed.

Lemma max_spec (a b : Z) : Int.max a b = Z.max a b.
Proof. unfold Int.max. destruct (Z.ltb_spec a b); lia. Qed.

Lemma Check_deficit (nr ng nb gr gg gb gw : Z) :
  deficit_fits nr ng nb gr gg gb ->
  Check nr ng nb gr gg gb gw = (deficit nr ng nb gr gg gb <=? gw).
Proof.
  unfold deficit_fits, deficit, Check, Int.le, Int.add, Int.sub.
  intros (Hr & Hg & Hb & Hsum).
  rewrite !(wrap_in_range _ Hr), !(wrap_in_range _ Hg), !(wrap_in_range _ Hb).
  rewrite !max_spec.
  assert (Hrg : Int.in_range (Z.max 0 (nr - gr) + Z.max 0 (ng - gg))).
  { unfold Int.in_range, Int.min_int, Int.max_int in *. lia. }
  rewrite (wrap_in_range _ Hrg), (wrap_in_range _ Hsum). reflexivity.
Qed.

(** Requirements and counts of moderate size never overflow. *)
Lemma deficit_fits_bounded (nr ng nb gr gg gb : Z) :
  - 2 ^ 28 <= nr <= 2 ^ 28 -> - 2 ^ 28 <= ng <= 2 ^ 28 -> - 2 ^ 28 <= nb <= 2 ^ 28 ->
  - 2 ^ 28 <= gr <= 2 ^ 28 -> - 2 ^ 28 <= gg <= 2 ^ 28 -> - 2 ^ 28 <= gb <= 2 ^ 28 ->
  deficit_fits nr ng nb gr gg gb.
Proof.
  unfold deficit_fits, deficit, Int.in_range, Int.min_int, Int.max_int. lia.
Qed.

(** ** SocketsColorsFilter *)

(** C4, as the code has it: with no colour filled the filter matches; else,
    as long as the three differences need - got and the total deficit fit in
    an [int], it matches exactly when the deficit (an unfilled colour needing
    0) is at most the number of white sockets, computed once on the item's
    total per-colour counts. *)
Theorem SocketsColorsFilter_Matches_deficit (item : Item.t) (data : FilterData.t) :
  (no_color_filled data = true -> SocketsColorsFilter_Matches item data = true)
  /\ (no_color_filled data = false ->
      deficit_fits (need_r data) (need_g data) (need_b data)
                   (Item.sockets_r item) (Item.sockets_g item) (Item.sockets_b item) ->
      (SocketsColorsFilter_Matches item data = true <->
       deficit (need_r data) (need_g data) (need_b data)
               (Item.sockets_r item) (Item.sockets_g item) (Item.sockets_b item)
       <= Item.sockets_w item))
  /\ (FilterData.r_filled data = false -> need_r data = 0)
  /\ (FilterData.g_filled data = false -> need_g data = 0)
  /\ (FilterData.b_filled data = false -> need_b data = 0).
Proof.
  unfold SocketsColorsFilter_Matches.
  split; [intros ->; reflexivity|].
  split.
  - intros -> Hfits. rewrite (Check_deficit _ _ _ _ _ _ _ Hfits). apply Z.leb_le.
  - unfold need_r, need_g, need_b. repeat split; intros ->; reflexivity.
Qed.

(** C4, a requirement for which the claim as stated fails: 2147483647 red and
    1 green sockets are asked of an item without sockets. The deficit is
    2147483648, more than the 0 white sockets, yet the [int] sum wraps to a
    negative number and the filter matches. *)
Lemma SocketsColorsFilter_Matches_overflow :
  let data := colors_data true 2147483647 true 1 false 0 in
  let item := socket_counts_item 0 0 0 0 in
  no_color_filled data = false
  /\ ~ (SocketsColorsFilter_Matches item data = true <->
        deficit (need_r data) (need_g data) (need_b data)
                (Item.sockets_r item) (Item.sockets_g item) (Item.sockets_b item)
        <= Item.sockets_w item).
Proof.
  split; [reflexivity|].
  intros [H _]. specialize (H eq_refl). vm_compute in H. apply H. reflexivity.
Qed.

Lemma SocketsColorsFilter_Matches_deficit_witness :
  let data := colors_data true 2 false 0 false 0 in
  let item := socket_counts_item 1 0 0 1 in
  (no_color_filled data = false
   /\ deficit_fits (need_r data) (need_g data) (need_b data)
                   (Item.sockets_r item) (Item.sockets_g item) (Item.sockets_b item))
  /\ SocketsColorsFilter_Matches item data = true.
Proof.
  intros data item.
  assert (Hfits : deficit_fits (need_r data) (need_g data) (need_b data)
               (Item.sockets_r item) (Item.sockets_g item) (Item.sockets_b item)).
  { repeat split; vm_compute; discriminate. }
  split; [split; [reflexivity | exact Hfits]|].
  destruct (SocketsColorsFilter_Matches_deficit item data) as (_ & Hiff & _).
  apply (Hiff eq_refl Hfits). vm_compute. discriminate.
Defined.

(** The examples of the specification: one white socket makes up for one
    missing red socket, not for two. *)
Example SocketsColorsFilter_white_substitutes :
  SocketsColorsFilter_Matches (socket_counts_item 1 0 0 1)
                              (colors_data true 2 false 0 false 0) = true
  /\ SocketsColorsFilter_Matches (socket_counts_item 0 0 0 1)
                                 (colors_data true 2 false 0 false 0) = false.
Proof. split; reflexivity. Qed.

(** ** LinksColorsFilter *)

(** The early return of an iteration only ever returns [true]. *)
Lemma loop_body_inl (data : FilterData.t) (socket : Socket.t) (st : Scan.t) (b : bool) :
  loop_body data socket st = inl b ->
  b = true /\ Check_scan data st = true
  /\ Int.ne (Scan.current st) (Socket.group socket) = true.
Proof.
  unfold loop_body. destruct (Int.ne _ _); [|discriminate].
  destruct (Check_scan data st); [|discriminate].
  intros [= <-]. auto.
Qed.

(** At a group boundary that does not return, the red, green and blue
    counters restart from zero and the white counter is kept. *)
Lemma loop_body_boundary (data : FilterData.t) (socket : Socket.t) (st : Scan.t) :
  Int.ne (Scan.current st) (Socket.group socket) = true ->
  Check_scan data st = false ->
  loop_body data socket st
  = inr (count_socket socket (Scan.mk (Scan.current st) 0 0 0 (Scan.got_w st))).
Proof. unfold loop_body. intros -> ->. reflexivity. Qed.

(** Within a group the socket is counted on top of the counters. *)
Lemma loop_body_same_group (data : FilterData.t) (socket : Socket.t) (st : Scan.t) :
  Int.ne (Scan.current st) (Socket.group socket) = false ->
  loop_body data socket st = inr (count_socket socket st).
Proof. unfold loop_body. intros ->. reflexivity. Qed.

(** When the loop runs to its end, the result is the final [Check] on the
    locals it left: the open group is evaluated although no boundary follows. *)
Lemma LinksColorsFilter_Matches_final (item : Item.t) (data : FilterData.t) (st : Scan.t) :
  no_color_filled data = false ->
  for_sockets data (Item.json_sockets item) Scan.init = inr st ->
  LinksColorsFilter_Matches item data = Check_scan data st.
Proof. unfold LinksColorsFilter_Matches. intros -> ->. reflexivity. Qed.

(** Without white sockets the code's scan and the specification's agree:
    the counter the code does not reset is [got_w]. *)
Lemma count_socket_no_white (socket : Socket.t) (st : Scan.t) :
  Ascii.eqb (first_char (Socket.attr socket)) "G" = false ->
  Scan.got_w (count_socket socket st) = Scan.got_w st.
Proof.
  intros HG. unfold count_socket. cbv zeta. rewrite HG.
  repeat case_match; reflexivity.
Qed.

Lemma for_sockets_no_white (data : FilterData.t) (l : list Socket.t) (st : Scan.t) :
  Forall (fun s => Ascii.eqb (first_char (Socket.attr s)) "G" = false) l ->
  Scan.got_w st = 0 ->
  for_sockets data l st = spec_for_sockets data l st.
Proof.
  intros Hl. revert st. induction Hl as [|s l Hs Hl IH]; intros st Hw; [reflexivity|].
  simpl. unfold loop_body, spec_loop_body.
  assert (Hreset : reset_counters st = spec_reset_counters st).
  { unfold reset_counters, spec_reset_counters. rewrite Hw. reflexivity. }
  rewrite Hreset.
  destruct (Int.ne _ _); [destruct (Check_scan data st); [reflexivity|]|];
    apply IH; rewrite count_socket_no_white by assumption; [reflexivity|assumption].
Qed.

Lemma LinksColorsFilter_Matches_no_white (item : Item.t) (data : FilterData.t) :
  Forall (fun s => Ascii.eqb (first_char (Socket.attr s)) "G" = false)
         (Item.json_sockets item) ->
  LinksColorsFilter_Matches item data = spec_LinksColorsFilter_Matches item data.
Proof.
  intros H. unfold LinksColorsFilter_Matches, spec_LinksColorsFilter_Matches.
  rewrite (for_sockets_no_white data _ Scan.init H); reflexivity.
Qed.

(** The specification's scan is the same as asking whether some contiguous
    link group satisfies [Check]. *)
Lemma Check_scan_same_counts (data : FilterData.t) (st st' : Scan.t) :
  same_counts st st' -> Check_scan data st = Check_scan data st'.
Proof. unfold Check_scan. intros (-> & -> & -> & ->). reflexivity. Qed.

Lemma count_socket_same_counts (socket : Socket.t) (st st' : Scan.t) :
  same_counts st st' -> same_counts (count_socket socket st) (count_socket socket st').
Proof.
  unfold same_counts, count_socket. intros (Hr & Hg & Hb & Hw). cbv zeta.
  repeat case_match; simpl; rewrite ?Hr, ?Hg, ?Hb, ?Hw; auto.
Qed.

Lemma count_socket_current (socket : Socket.t) (st : Scan.t) :
  Scan.current (count_socket socket st) = Socket.group socket.
Proof. unfold count_socket. cbv zeta. repeat case_match; reflexivity. Qed.

Lemma group_counts_snoc (grp : list Socket.t) (socket : Socket.t) :
  group_counts (grp ++ [socket]) = count_socket socket (group_counts grp).
Proof. unfold group_counts. rewrite fold_left_app. reflexivity. Qed.

Lemma spec_for_sockets_groups (data : FilterData.t) (l : list Socket.t) :
  forall (st : Scan.t) (acc : list Socket.t),
    same_counts st (group_counts acc) ->
    match spec_for_sockets data l st with
    | inl b => b
    | inr st' => Check_scan data st'
    end = existsb (group_satisfies data) (split_groups (Scan.current st) acc l).
Proof.
  induction l as [|s l IH]; intros st acc Hst; simpl.
  - unfold group_satisfies. rewrite orb_false_r.
    apply Check_scan_same_counts, Hst.
  - unfold spec_loop_body.
    destruct (Int.ne (Scan.current st) (Socket.group s)) eqn:Hne.
    + simpl. unfold group_satisfies at 1.
      rewrite <- (Check_scan_same_counts data st _ Hst).
      destruct (Check_scan data st); [reflexivity|]. simpl.
      rewrite <- (count_socket_current s (spec_reset_counters st)).
      apply IH. apply count_socket_same_counts.
      unfold same_counts; simpl; auto.
    + assert (Hcur : Scan.current st = Socket.group s).
      { unfold Int.ne in Hne. apply negb_false_iff, Z.eqb_eq in Hne. exact Hne. }
      rewrite Hcur. rewrite <- (count_socket_current s st).
      apply IH. rewrite group_counts_snoc.
      apply count_socket_same_counts, Hst.
Qed.

Lemma spec_LinksColorsFilter_Matches_groups (item : Item.t) (data : FilterData.t) :
  no_color_filled data = false ->
  spec_LinksColorsFilter_Matches item data = some_group_satisfies data item.
Proof.
  intros Hf. unfold spec_LinksColorsFilter_Matches, some_group_satisfies, link_groups.
  rewrite Hf. apply (spec_for_sockets_groups data _ Scan.init []).
  unfold same_counts; auto.
Qed.

(** The six-socket example of the specification: [S S D] | [I I G] with one
    red and one green socket required is accepted at the boundary, before the
    sockets of group 1 are counted. *)
Example LinksColorsFilter_first_group :
  let data := colors_data true 1 true 1 false 0 in
  let l := [Socket.mk 0 "S"; Socket.mk 0 "S"; Socket.mk 0 "D";
            Socket.mk 1 "I"; Socket.mk 1 "I"; Socket.mk 1 "G"] in
  for_sockets data (firstn 3 l) Scan.init = inr (Scan.mk 0 2 1 0 0)
  /\ loop_body data (Socket.mk 1 "I") (Scan.mk 0 2 1 0 0) = inl true
  /\ LinksColorsFilter_Matches (sockets_item l) data = true.
Proof. repeat split; vm_compute; reflexivity. Qed.

(** C1, the code at a group boundary: the white counter survives it. With two
    red sockets required, the item [G] | [S] (groups 0 and 1) has no group
    that satisfies [Check], and the specification's scan rejects it; the code
    carries the white socket of group 0 into group 1 and accepts. *)
Theorem LinksColorsFilter_boundary_keeps_white :
  let data := colors_data true 2 false 0 false 0 in
  let item := sockets_item [Socket.mk 0 "G"; Socket.mk 1 "S"] in
  loop_body data (Socket.mk 1 "S") (Scan.mk 0 0 0 0 1) = inr (Scan.mk 1 1 0 0 1)
  /\ spec_loop_body data (Socket.mk 1 "S") (Scan.mk 0 0 0 0 1) = inr (Scan.mk 1 1 0 0 0)
  /\ LinksColorsFilter_Matches item data = true
  /\ spec_LinksColorsFilter_Matches item data = false.
Proof. repeat split; vm_compute; reflexivity. Qed.

(** C5, the code on an item none of whose groups satisfies [Check]: with three
    red sockets required, [G D] | [S S] has deficits 3 > 1 and 1 > 0, yet the
    final [Check] sees the white socket of the first group and accepts. *)
Theorem LinksColorsFilter_Matches_no_group :
  let data := colors_data true 3 false 0 false 0 in
  let item := sockets_item [Socket.mk 0 "G"; Socket.mk 0 "D";
                            Socket.mk 1 "S"; Socket.mk 1 "S"] in
  for_sockets data (Item.json_sockets item) Scan.init = inr (Scan.mk 1 2 0 0 1)
  /\ LinksColorsFilter_Matches item data = true
  /\ some_group_satisfies data item = false.
Proof. repeat split; vm_compute; reflexivity. Qed.

(** ** NameSearchFilter *)

Lemma starts_with_prefix (q s : string) :
  starts_with q s = true <-> exists suf, s = q +:+ suf.
Proof.
  revert s. induction q as [|a q IH]; intros s; simpl.
  - split; [intros _; exists s; reflexivity | reflexivity].
  - destruct s as [|c s].
    + split; [discriminate | intros [suf H]; discriminate].
    + rewrite andb_true_iff, Ascii.eqb_eq, IH. split.
      * intros [-> [suf ->]]. exists suf. reflexivity.
      * intros [suf [= -> ->]]. eauto.
Qed.

Lemma find_Some_substring (s q : string) :
  is_Some (find s q) <-> exists pre suf, s = pre +:+ q +:+ suf.
Proof.
  split.
  - induction s as [|c s IH]; simpl.
    + destruct (starts_with q "") eqn:Hp.
      * intros _. apply starts_with_prefix in Hp as [suf ->]. exists "", suf. reflexivity.
      * intros [n Hn]. discriminate.
    + destruct (starts_with q (String c s)) eqn:Hp.
      * intros _. apply starts_with_prefix in Hp as [suf ->]. exists "", suf. reflexivity.
      * intros [n Hn]. destruct (find s q) as [m|] eqn:Hf; [|discriminate].
        destruct IH as (pre & suf & ->); [eauto|].
        exists (String c pre), suf. reflexivity.
  - intros (pre & suf & ->). induction pre as [|c pre IH]; simpl.
    + assert (Hp : starts_with q (q +:+ suf) = true)
        by (apply starts_with_prefix; eauto).
      destruct (q +:+ suf); simpl in *; rewrite Hp; eauto.
    + destruct (starts_with q (String c (pre +:+ q +:+ suf))); [eauto|].
      destruct IH as [n ->]. simpl. eauto.
Qed.

(** the code's lower-casing is the case folding of the specification *)
Lemma tolower_fold_letter (c : ascii) : tolower c = fold_letter c.
Proof. destruct c as [[] [] [] [] [] [] [] []]; reflexivity. Qed.

Lemma transform_tolower_case_fold (s : string) : transform_tolower s = case_fold s.
Proof.
  induction s as [|c s IH]; simpl; [reflexivity|].
  rewrite tolower_fold_letter, IH. reflexivity.
Qed.

(** C6: the filter matches exactly when the case-folded name (capital
    letters replaced by small ones) contains the case-folded query as a
    substring; the empty query matches every item. *)
Theorem NameSearchFilter_Matches_substring (item : Item.t) (data : FilterData.t) :
  (NameSearchFilter_Matches item data = true <->
   exists pre suf,
     case_fold (Item.PrettyName item)
     = pre +:+ case_fold (FilterData.text_query data) +:+ suf)
  /\ NameSearchFilter_Matches item (FilterData.set_text_query "" data) = true.
Proof.
  split.
  - rewrite <- !transform_tolower_case_fold, <- find_Some_substring.
    unfold NameSearchFilter_Matches. cbv zeta.
    destruct (find _ _); split; eauto; try discriminate.
    intros [n Hn]. discriminate.
  - unfold NameSearchFilter_Matches. simpl.
    destruct (transform_tolower (Item.PrettyName item)); reflexivity.
Qed.

Example NameSearchFilter_wrap :
  NameSearchFilter_Matches
    (Item.mk "Shavronne's Wrappings" ∅ ∅ 0 0 0 0 0 0 [])
    (FilterData.set_text_query "wrap" (FilterData.new Double.zero Double.zero 0 0 0)) = true
  /\ NameSearchFilter_Matches
    (Item.mk "Shavronne's Wrappings" ∅ ∅ 0 0 0 0 0 0 [])
    (FilterData.set_text_query "xyz" (FilterData.new Double.zero Double.zero 0 0 0)) = false.
Proof. split; vm_compute; reflexivity. Qed.

(** ** Comparisons of doubles *)

Lemma SFcompare_antisym (a b : Double.t) :
  SFcompare a b = CompOpp <$> SFcompare b a.
Proof.
  destruct a as [sa|sa| |sa ma ea], b as [sb|sb| |sb mb eb]; simpl;
    try reflexivity; try (destruct sa; reflexivity); try (destruct sb; reflexivity);
    try (destruct sa, sb; reflexivity).
  rewrite (Z.compare_antisym ea eb).
  change (Pos.compare_cont Eq mb ma) with (Pos.compare mb ma).
  change (Pos.compare_cont Eq ma mb) with (Pos.compare ma mb).
  rewrite (Pos.compare_antisym ma mb).
  destruct sa, sb; simpl; try reflexivity;
    destruct (ea ?= eb); simpl; try reflexivity;
    destruct (ma ?= mb)%positive; reflexivity.
Qed.

Lemma SFcompare_not_nan (a b : Double.t) :
  Double.is_nan a = false -> Double.is_nan b = false ->
  exists c, SFcompare a b = Some c.
Proof.
  destruct a, b; simpl; intros Ha Hb; try discriminate; eauto.
Qed.

(** on numbers, [a > b] is the negation of [a <= b] *)
Lemma gt_not_le (a b : Double.t) :
  Double.is_nan a = false -> Double.is_nan b = false ->
  Double.gt a b = negb (Double.le a b).
Proof.
  intros Ha Hb. unfold Double.gt, Double.le, SFltb, SFleb.
  rewrite (SFcompare_antisym b a).
  destruct (SFcompare_not_nan a b Ha Hb) as [c ->]. destruct c; reflexivity.
Qed.

(** on numbers, [a < b] is the negation of [a >= b] *)
Lemma lt_not_ge (a b : Double.t) :
  Double.is_nan a = false -> Double.is_nan b = false ->
  Double.lt a b = negb (Double.ge a b).
Proof.
  intros Ha Hb. unfold Double.lt, Double.ge, SFltb, SFleb.
  rewrite (SFcompare_antisym b a).
  destruct (SFcompare_not_nan a b Ha Hb) as [c ->]. destruct c; reflexivity.
Qed.

Lemma eq_le (a b : Double.t) : Double.eq a b = true -> Double.le a b = true.
Proof.
  unfold Double.eq, Double.le, SFeqb, SFleb.
  destruct (SFcompare a b) as [[]|]; auto.
Qed.

Lemma eq_ge (a b : Double.t) : Double.eq a b = true -> Double.ge a b = true.
Proof.
  unfold Double.eq, Double.ge, SFeqb, SFleb. rewrite (SFcompare_antisym b a).
  destruct (SFcompare a b) as [[]|]; simpl; auto.
Qed.

(** ** The MinMaxFilter family *)

(** C2, as the code has it: when the value is present and neither it nor a
    filled bound is NaN, the filter matches exactly when
    (not min_filled or min <= value) and (not max_filled or max >= value);
    the bounds are inclusive. *)
Theorem MinMaxFilter_Matches_present
        (stod : string -> result Double.t) (f : MinMaxFilter)
        (item : Item.t) (data : FilterData.t) (value : Double.t) :
  IsValuePresent f item = true ->
  GetValue stod f item = Return value ->
  Double.is_nan value = false ->
  (FilterData.min_filled data = true -> Double.is_nan (FilterData.min data) = false) ->
  (FilterData.max_filled data = true -> Double.is_nan (FilterData.max data) = false) ->
  MinMaxFilter_Matches stod f item data
  = Return ((negb (FilterData.min_filled data) || Double.le (FilterData.min data) value)
            && (negb (FilterData.max_filled data) || Double.ge (FilterData.max data) value))
  /\ (Double.eq (FilterData.min data) value = true ->
      Double.le (FilterData.min data) value = true)
  /\ (Double.eq (FilterData.max data) value = true ->
      Double.ge (FilterData.max data) value = true).
Proof.
  intros Hp Hv Hnan Hmin Hmax. split; [|split; [apply eq_le | apply eq_ge]].
  unfold MinMaxFilter_Matches. rewrite Hp, Hv. simpl.
  destruct (FilterData.min_filled data); simpl.
  - rewrite (gt_not_le _ _ (Hmin eq_refl) Hnan).
    destruct (Double.le (FilterData.min data) value); simpl; [|reflexivity].
    destruct (FilterData.max_filled data); simpl; [|reflexivity].
    rewrite (lt_not_ge _ _ (Hmax eq_refl) Hnan).
    destruct (Double.ge (FilterData.max data) value); reflexivity.
  - destruct (FilterData.max_filled data); simpl; [|reflexivity].
    rewrite (lt_not_ge _ _ (Hmax eq_refl) Hnan).
    destruct (Double.ge (FilterData.max data) value); reflexivity.
Qed.

(** C2, where the claim as stated fails: a filled minimum that is NaN. The
    code's test [min > value] is false, so the item passes, although
    [min <= value] is false as well. *)
Lemma MinMaxFilter_Matches_nan_bound :
  let data := minmax_data true S754_nan false Double.zero in
  let item := socket_counts_item 5 0 0 0 in
  IsValuePresent SocketsFilter item = true
  /\ GetValue Numeral.stod SocketsFilter item = Return (Double.of_int 5)
  /\ MinMaxFilter_Matches Numeral.stod SocketsFilter item data = Return true
  /\ (negb (FilterData.min_filled data)
       || Double.le (FilterData.min data) (Double.of_int 5))
      && (negb (FilterData.max_filled data)
          || Double.ge (FilterData.max data) (Double.of_int 5)) = false.
Proof. repeat split; vm_compute; reflexivity. Qed.

Lemma MinMaxFilter_Matches_present_witness :
  let data := minmax_data true (Double.of_int 5) true (Double.of_int 5) in
  let item := socket_counts_item 5 0 0 0 in
  (IsValuePresent SocketsFilter item = true
   /\ GetValue Numeral.stod SocketsFilter item = Return (Double.of_int 5)
   /\ Double.is_nan (Double.of_int 5) = false)
  /\ MinMaxFilter_Matches Numeral.stod SocketsFilter item data = Return true.
Proof.
  intros data item. split; [repeat split|].
  destruct (MinMaxFilter_Matches_present Numeral.stod SocketsFilter item data
              (Double.of_int 5) eq_refl eq_refl eq_refl
              (fun _ => eq_refl) (fun _ => eq_refl)) as [H _].
  rewrite H. reflexivity.
Defined.

(** C3: when the value is absent, the filter matches exactly when neither
    bound is filled. *)
Theorem MinMaxFilter_Matches_absent
        (stod : string -> result Double.t) (f : MinMaxFilter)
        (item : Item.t) (data : FilterData.t) :
  IsValuePresent f item = false ->
  MinMaxFilter_Matches stod f item data
  = Return (negb (FilterData.min_filled data) && negb (FilterData.max_filled data)).
Proof.
  intros Hp. unfold MinMaxFilter_Matches. rewrite Hp. f_equal. apply andb_comm.
Qed.

Lemma MinMaxFilter_Matches_absent_witness :
  let f := SimplePropertyFilter "Quality" in
  let item := properties_item ∅ in
  let data := minmax_data true (Double.of_int 10) false Double.zero in
  IsValuePresent f item = false
  /\ MinMaxFilter_Matches Numeral.stod f item data = Return false.
Proof.
  intros f item data. split; [reflexivity|].
  rewrite (MinMaxFilter_Matches_absent Numeral.stod f item data eq_refl). reflexivity.
Defined.

(** C7: for SimplePropertyFilter the value is absent exactly when the key is
    missing; when the key maps to a string, the value is what [std::stod]
    makes of it, and a throw of [std::stod] comes out of [Matches] whatever
    the bounds are. *)
Theorem SimplePropertyFilter_value
        (stod : string -> result Double.t) (property_ : string) (item : Item.t) :
  (IsValuePresent (SimplePropertyFilter property_) item = false <->
   Item.properties item !! property_ = None)
  /\ (forall s : string,
        Item.properties item !! property_ = Some s ->
        GetValue stod (SimplePropertyFilter property_) item = stod s
        /\ forall (e : exception) (data : FilterData.t),
            stod s = Throw e ->
            MinMaxFilter_Matches stod (SimplePropertyFilter property_) item data = Throw e).
Proof.
  split.
  - simpl. unfold SimplePropertyFilter_IsValuePresent, map_count, to_bool.
    destruct (Item.properties item !! property_); simpl; split; congruence.
  - intros s Hs.
    assert (Hget : GetValue stod (SimplePropertyFilter property_) item = stod s).
    { simpl. unfold SimplePropertyFilter_GetValue, map_at. rewrite Hs. reflexivity. }
    split; [exact Hget|]. intros e data He.
    unfold MinMaxFilter_Matches. rewrite Hget, He.
    simpl. unfold SimplePropertyFilter_IsValuePresent, map_count, to_bool.
    rewrite Hs. reflexivity.
Qed.

Lemma SimplePropertyFilter_value_witness :
  let item := properties_item {[ "Radius" := "Medium" ]} in
  let data := minmax_data false Double.zero false Double.zero in
  (Item.properties item !! "Radius" = Some "Medium"
   /\ Numeral.stod "Medium" = Throw invalid_argument)
  /\ IsValuePresent (SimplePropertyFilter "Radius") item = true
  /\ MinMaxFilter_Matches Numeral.stod (SimplePropertyFilter "Radius") item data
     = Throw invalid_argument.
Proof.
  intros item data.
  assert (Hs : Item.properties item !! "Radius" = Some "Medium") by reflexivity.
  assert (He : Numeral.stod "Medium" = Throw invalid_argument) by reflexivity.
  split; [split; assumption|]. split; [reflexivity|].
  destruct (SimplePropertyFilter_value Numeral.stod "Radius" item) as [_ H].
  destruct (H "Medium" Hs) as [_ Hthrow].
  exact (Hthrow invalid_argument data He).
Defined.

(** C8: for RequiredStatFilter the value is always present; it is the entry
    of the requirement mapping under the filter's property name, and 0 when
    there is none. *)
Theorem RequiredStatFilter_value
        (stod : string -> result Double.t) (property_ : string) (item : Item.t) :
  IsValuePresent (RequiredStatFilter property_) item = true
  /\ GetValue stod (RequiredStatFilter property_) item
     = Return (default Double.zero (Item.requirements item !! property_)).
Proof.
  split; [reflexivity|]. simpl.
  unfold RequiredStatFilter_GetValue, map_count, map_at, to_bool.
  destruct (Item.requirements item !! property_); reflexivity.
Qed.

(** C10, as the code has it: on a freshly constructed FilterData every filter
    matches every item, as long as the value extraction does not throw, that
    is unless a SimplePropertyFilter meets a property text that [std::stod]
    rejects. *)
Theorem Matches_fresh
        (stod : string -> result Double.t) (filter_ : Filter) (item : Item.t)
        (min0 max0 : Double.t) (r0 g0 b0 : Z) :
  (forall (property_ s : string),
      filter_ = MinMax (SimplePropertyFilter property_) ->
      Item.properties item !! property_ = Some s ->
      exists v, stod s = Return v) ->
  Matches stod filter_ item (FilterData.new min0 max0 r0 g0 b0) = Return true.
Proof.
  intros Hstod. destruct filter_ as [|f| |]; simpl.
  - f_equal. unfold NameSearchFilter_Matches. simpl.
    destruct (transform_tolower (Item.PrettyName item)); reflexivity.
  - unfold MinMaxFilter_Matches. simpl.
    destruct f as [property_|property_|func_| |]; simpl; try reflexivity.
    + unfold SimplePropertyFilter_IsValuePresent, SimplePropertyFilter_GetValue,
        map_count, map_at, to_bool.
      destruct (Item.properties item !! property_) as [s|] eqn:Hs; simpl; [|reflexivity].
      destruct (Hstod property_ s eq_refl Hs) as [v ->]. reflexivity.
    + unfold RequiredStatFilter_GetValue, map_count, map_at, to_bool.
      destruct (Item.requirements item !! property_); reflexivity.
  - reflexivity.
  - reflexivity.
Qed.

(** C10, where the claim as stated fails: a SimplePropertyFilter on an item
    whose property text is no number. [std::stod] throws and the throw leaves
    [Matches]; nothing is returned. *)
Lemma Matches_fresh_throws :
  let filter_ := MinMax (SimplePropertyFilter "Radius") in
  let item := properties_item {[ "Radius" := "Medium" ]} in
  let data := FilterData.new Double.zero Double.zero 0 0 0 in
  Matches Numeral.stod filter_ item data = Throw invalid_argument
  /\ Matches Numeral.stod filter_ item data <> Return true.
Proof. split; [reflexivity | discriminate]. Qed.

Lemma Matches_fresh_witness :
  let filter_ := MinMax (SimplePropertyFilter "Quality") in
  let item := properties_item {[ "Quality" := "+20%" ]} in
  (forall property_ s : string,
      filter_ = MinMax (SimplePropertyFilter property_) ->
      Item.properties item !! property_ = Some s ->
      exists v, Numeral.stod s = Return v)
  /\ Matches Numeral.stod filter_ item (FilterData.new S754_nan S754_nan 7 8 9)
     = Return true.
Proof.
  intros filter_ item.
  assert (H : forall property_ s : string,
             filter_ = MinMax (SimplePropertyFilter property_) ->
             Item.properties item !! property_ = Some s ->
             exists v, Numeral.stod s = Return v).
  { intros property_ s [= <-] Hs. simpl in Hs.
    rewrite lookup_singleton_eq in Hs. injection Hs as <-.
    eexists. vm_compute. reflexivity. }
  split; [exact H|].
  exact (Matches_fresh Numeral.stod filter_ item S754_nan S754_nan 7 8 9 H).
Defined.

(** ** The forms *)

Lemma size_positive_false (text : string) : size_positive text = false -> text = "".
Proof. destruct text; [reflexivity | discriminate]. Qed.

Lemma c_str_idempotent (s : string) : c_str (c_str s) = c_str s.
Proof.
  induction s as [|c s IH]; simpl; [reflexivity|].
  destruct (Ascii.eqb c "000") eqn:Hc; simpl; [reflexivity|].
  rewrite Hc, IH. reflexivity.
Qed.

Lemma NameSearchFilter_form_roundtrip (form : Form.t) (data0 : FilterData.t) :
  let data := NameSearchFilter_FromForm form data0 in
  NameSearchFilter_FromForm (NameSearchFilter_ToForm data form) data = data.
Proof.
  destruct form, data0. unfold NameSearchFilter_FromForm, NameSearchFilter_ToForm.
  simpl. unfold FilterData.set_text_query. simpl. rewrite !c_str_idempotent. reflexivity.
Qed.

Lemma MinMaxFilter_form_roundtrip (qt : Qt.conversions) (form : Form.t)
      (data0 : FilterData.t) :
  double_survives qt (Form.textbox_min_ form) ->
  double_survives qt (Form.textbox_max_ form) ->
  let data := MinMaxFilter_FromForm qt form data0 in
  MinMaxFilter_FromForm qt (MinMaxFilter_ToForm qt data form) data = data.
Proof.
  destruct form as [t tmin tmax tr tg tb], data0. unfold double_survives. simpl.
  intros Hmin Hmax.
  unfold MinMaxFilter_FromForm, MinMaxFilter_ToForm, FilterData.set_min,
    FilterData.set_max. simpl.
  destruct (size_positive tmin) eqn:Emin, (size_positive tmax) eqn:Emax; simpl;
    try (destruct (Hmin eq_refl) as [-> ->]);
    try (destruct (Hmax eq_refl) as [-> ->]);
    try (apply size_positive_false in Emin; subst tmin);
    try (apply size_positive_false in Emax; subst tmax);
    reflexivity.
Qed.

Lemma SocketsColorsFilter_form_roundtrip (qt : Qt.conversions) (form : Form.t)
      (data0 : FilterData.t) :
  int_survives qt (Form.textbox_r_ form) ->
  int_survives qt (Form.textbox_g_ form) ->
  int_survives qt (Form.textbox_b_ form) ->
  let data := SocketsColorsFilter_FromForm qt form data0 in
  SocketsColorsFilter_FromForm qt (SocketsColorsFilter_ToForm qt data form) data = data.
Proof.
  destruct form as [t tmin tmax tr tg tb], data0. unfold int_survives. simpl.
  intros Hr Hg Hb.
  unfold SocketsColorsFilter_FromForm, SocketsColorsFilter_ToForm, FilterData.set_r,
    FilterData.set_g, FilterData.set_b. simpl.
  destruct (size_positive tr) eqn:Er, (size_positive tg) eqn:Eg,
    (size_positive tb) eqn:Eb; simpl;
    try (destruct (Hr eq_refl) as [-> ->]);
    try (destruct (Hg eq_refl) as [-> ->]);
    try (destruct (Hb eq_refl) as [-> ->]);
    rewrite ?Er, ?Eg, ?Eb; reflexivity.
Qed.

(** ** Strings *)

Lemma append_cons (x : ascii) (a b : string) : String x a +:+ b = String x (a +:+ b).
Proof. reflexivity. Qed.

Lemma append_assoc (a b c : string) : (a +:+ b) +:+ c = a +:+ (b +:+ c).
Proof.
  induction a as [|x a IH]; [reflexivity|]. rewrite !append_cons. f_equal. exact IH.
Qed.

Lemma append_nil_r (a : string) : a +:+ "" = a.
Proof.
  induction a as [|x a IH]; [reflexivity|]. rewrite append_cons. f_equal. exact IH.
Qed.

Lemma length_append (a b : string) :
  String.length (a +:+ b) = (String.length a + String.length b)%nat.
Proof.
  induction a as [|x a IH]; [reflexivity|]. rewrite append_cons. simpl.
  f_equal. exact IH.
Qed.

(** ** The reference instance of the Qt conversions: integers *)

Lemma digit_char_facts (d : Z) :
  0 <= d < 10 ->
  Numeral.is_digit (Numeral.digit_char d) = true
  /\ Numeral.digit_value (Numeral.digit_char d) = d
  /\ Numeral.is_space (Numeral.digit_char d) = false
  /\ Ascii.eqb (Numeral.digit_char d) "-" = false
  /\ Ascii.eqb (Numeral.digit_char d) "+" = false.
Proof.
  intros H.
  assert (Hd : d = 0 \/ d = 1 \/ d = 2 \/ d = 3 \/ d = 4 \/ d = 5 \/ d = 6
               \/ d = 7 \/ d = 8 \/ d = 9) by lia.
  repeat (destruct Hd as [-> | Hd]; [repeat split; reflexivity|]).
  subst d. repeat split; reflexivity.
Qed.

Lemma read_digits_digit (d : Z) (rest : string) (acc : Z) :
  0 <= d < 10 ->
  Numeral.read_digits (String (Numeral.digit_char d) rest) acc
  = Numeral.more_digits 1 (Numeral.read_digits rest (10 * acc + d)).
Proof.
  intros H. destruct (digit_char_facts d H) as (Hd & Hv & _).
  simpl. rewrite Hd, Hv.
  destruct (Numeral.read_digits rest (10 * acc + d)) as [[v n] r]. reflexivity.
Qed.

Lemma read_digits_digits_acc (fuel : nat) :
  forall (n : Z) (rest : string),
    0 <= n < 2 ^ (Z.of_nat fuel + 1) ->
    exists p : nat,
      forall acc : Z,
        Numeral.read_digits (Numeral.digits_acc fuel n rest) acc
        = Numeral.more_digits (S p) (Numeral.read_digits rest (acc * 10 ^ Z.of_nat (S p) + n)).
Proof.
  induction fuel as [|fuel IH]; intros n rest Hn.
  - exists O. intros acc. simpl Numeral.digits_acc.
    assert (Hlt : n < 10) by (simpl in Hn; lia).
    rewrite Z.mod_small by lia. rewrite read_digits_digit by lia.
    f_equal. f_equal. simpl. lia.
  - simpl Numeral.digits_acc. destruct (Z.ltb_spec n 10) as [Hlt|Hge].
    + exists O. intros acc. rewrite Z.mod_small by lia.
      rewrite read_digits_digit by lia. f_equal. f_equal. simpl. lia.
    + destruct (IH (n / 10) (String (Numeral.digit_char (n mod 10)) rest)) as [p Hp].
      { split; [apply Z.div_pos; lia|].
        apply Z.div_lt_upper_bound; [lia|].
        replace (Z.of_nat (S fuel) + 1) with (Z.succ (Z.of_nat fuel + 1)) in Hn by lia.
        rewrite Z.pow_succ_r in Hn by lia. lia. }
      exists (S p). intros acc. rewrite Hp.
      rewrite read_digits_digit by (apply Z.mod_pos_bound; lia).
      destruct (Numeral.read_digits rest _) as [[v k] r] eqn:E1.
      replace (acc * 10 ^ Z.of_nat (S (S p)) + n)
        with (10 * (acc * 10 ^ Z.of_nat (S p) + n / 10) + n mod 10).
      * rewrite E1. simpl. do 2 f_equal. lia.
      * rewrite (Z.div_mod n 10) at 3 by lia.
        replace (Z.of_nat (S (S p))) with (Z.succ (Z.of_nat (S p))) by lia.
        rewrite Z.pow_succ_r by lia. ring.
Qed.

Lemma digits_acc_head (fuel : nat) :
  forall (n : Z) (rest : string),
    0 <= n ->
    exists (d : Z) (tail : string),
      0 <= d < 10 /\ Numeral.digits_acc fuel n rest = String (Numeral.digit_char d) tail.
Proof.
  induction fuel as [|fuel IH]; intros n rest Hn; simpl.
  - exists (n mod 10), rest. split; [apply Z.mod_pos_bound; lia | reflexivity].
  - destruct (n <? 10).
    + exists (n mod 10), rest. split; [apply Z.mod_pos_bound; lia | reflexivity].
    + apply IH. apply Z.div_pos; lia.
Qed.

Lemma read_digits_digits (n : Z) :
  0 <= n -> exists p : nat, Numeral.read_digits (Numeral.digits n) 0 = (n, S p, "").
Proof.
  intros Hn. unfold Numeral.digits.
  destruct (read_digits_digits_acc (Z.to_nat (Z.log2 n)) n "") as [p Hp].
  { split; [exact Hn|]. rewrite Z2Nat.id by apply Z.log2_nonneg.
    destruct (Z.eq_dec n 0) as [->|Hne]; [reflexivity|].
    apply Z.log2_spec. lia. }
  exists p. rewrite Hp. simpl. do 2 f_equal. lia.
Qed.

(** every [int] is read back from what [QString::number] prints for it *)
Lemma toInt_number_int (n : Z) :
  Int.in_range n ->
  Numeral.toInt (Numeral.number_int n) = n /\ size_positive (Numeral.number_int n) = true.
Proof.
  unfold Int.in_range. intros Hr. unfold Numeral.number_int, Numeral.toInt.
  destruct (Z.ltb_spec n 0) as [Hneg|Hpos].
  - split; [|reflexivity].
    change (Numeral.skip_space ("-" +:+ Numeral.digits (- n)))
      with ("-" +:+ Numeral.digits (- n)).
    change (Numeral.read_sign ("-" +:+ Numeral.digits (- n)))
      with (true, Numeral.digits (- n)).
    cbv iota beta.
    destruct (read_digits_digits (- n)) as [p ->]; [lia|].
    cbv iota beta. simpl Numeral.all_space.
    destruct (Z.leb_spec Int.min_int (- - n)); [|lia].
    destruct (Z.leb_spec (- - n) Int.max_int); [|lia]. simpl. lia.
  - unfold Numeral.digits at 2.
    destruct (digits_acc_head (Z.to_nat (Z.log2 n)) n "" Hpos) as (d & tail & Hd & Heq).
    split; [|rewrite Heq; reflexivity].
    destruct (digit_char_facts d Hd) as (_ & _ & Hsp & Hm & Hp).
    assert (Hskip : Numeral.skip_space (Numeral.digits n) = Numeral.digits n).
    { unfold Numeral.digits. rewrite Heq. simpl. rewrite Hsp. reflexivity. }
    assert (Hsign : Numeral.read_sign (Numeral.digits n) = (false, Numeral.digits n)).
    { unfold Numeral.digits. rewrite Heq. simpl. rewrite Hm, Hp. reflexivity. }
    rewrite Hskip, Hsign. cbv iota beta.
    destruct (read_digits_digits n Hpos) as [p ->].
    cbv iota beta. simpl Numeral.all_space.
    destruct (Z.leb_spec Int.min_int n); [|lia].
    destruct (Z.leb_spec n Int.max_int); [|lia]. reflexivity.
Qed.

Lemma toInt_in_range (text : string) : Int.in_range (Numeral.toInt text).
Proof.
  unfold Numeral.toInt, Int.in_range.
  destruct (Numeral.read_sign (Numeral.skip_space text)) as [neg s].
  destruct (Numeral.read_digits s 0) as [[v n] rest].
  destruct n; [unfold Int.min_int, Int.max_int; lia|].
  destruct (Numeral.all_space rest); simpl; [|unfold Int.min_int, Int.max_int; lia].
  destruct (Z.leb_spec Int.min_int (if neg then - v else v)); simpl;
    [|unfold Int.min_int, Int.max_int; lia].
  destruct (Z.leb_spec (if neg then - v else v) Int.max_int); simpl;
    [lia | unfold Int.min_int, Int.max_int; lia].
Qed.

Lemma int_survives_model (text : string) : int_survives Qt.model text.
Proof.
  intros _. simpl.
  destruct (toInt_number_int (Numeral.toInt text) (toInt_in_range text)) as [H1 H2].
  split; assumption.
Qed.

(** On the reference instance the colour filters need no condition. *)
Lemma SocketsColorsFilter_form_roundtrip_model (form : Form.t) (data0 : FilterData.t) :
  let data := SocketsColorsFilter_FromForm Qt.model form data0 in
  SocketsColorsFilter_FromForm Qt.model (SocketsColorsFilter_ToForm Qt.model data form) data
  = data.
Proof.
  apply SocketsColorsFilter_form_roundtrip; apply int_survives_model.
Qed.

(** [SocketsColorsFilter::ToForm] never writes to the field of an unfilled
    colour, where [MinMaxFilter::ToForm] empties the field of an unfilled
    bound. *)
Lemma SocketsColorsFilter_ToForm_unfilled (qt : Qt.conversions)
      (data : FilterData.t) (form : Form.t) :
  (FilterData.r_filled data = false ->
   Form.textbox_r_ (SocketsColorsFilter_ToForm qt data form) = Form.textbox_r_ form)
  /\ (FilterData.g_filled data = false ->
      Form.textbox_g_ (SocketsColorsFilter_ToForm qt data form) = Form.textbox_g_ form)
  /\ (FilterData.b_filled data = false ->
      Form.textbox_b_ (SocketsColorsFilter_ToForm qt data form) = Form.textbox_b_ form).
Proof.
  unfold SocketsColorsFilter_ToForm.
  repeat split; intros ->;
    destruct (FilterData.r_filled data), (FilterData.g_filled data),
      (FilterData.b_filled data); reflexivity.
Qed.

Lemma MinMaxFilter_ToForm_unfilled (qt : Qt.conversions)
      (data : FilterData.t) (form : Form.t) :
  (FilterData.min_filled data = false ->
   Form.textbox_min_ (MinMaxFilter_ToForm qt data form) = "")
  /\ (FilterData.max_filled data = false ->
      Form.textbox_max_ (MinMaxFilter_ToForm qt data form) = "").
Proof.
  unfold MinMaxFilter_ToForm.
  split; intros ->;
    destruct (FilterData.min_filled data), (FilterData.max_filled data); reflexivity.
Qed.

(** ** The reference instance of the Qt conversions: decimal digits *)

Lemma digits_acc_append (fuel : nat) :
  forall (n : Z) (acc : string),
    Numeral.digits_acc fuel n acc = Numeral.digits_acc fuel n "" +:+ acc.
Proof.
  induction fuel as [|fuel IH]; intros n acc; simpl; [reflexivity|].
  destruct (n <? 10); [reflexivity|].
  rewrite (IH _ (String _ acc)), (IH _ (String _ "")), append_assoc. reflexivity.
Qed.

Lemma digits_acc_fuel (fuel : nat) :
  forall (fuel' : nat) (n : Z) (acc : string),
    0 <= n < 2 ^ (Z.of_nat fuel + 1) ->
    0 <= n < 2 ^ (Z.of_nat fuel' + 1) ->
    Numeral.digits_acc fuel n acc = Numeral.digits_acc fuel' n acc.
Proof.
  induction fuel as [|fuel IH]; intros fuel' n acc Hn Hn'.
  - assert (n < 10) by (change (2 ^ (Z.of_nat 0 + 1)) with 2 in Hn; lia).
    destruct fuel'; simpl; [reflexivity|].
    destruct (Z.ltb_spec n 10); [reflexivity | lia].
  - destruct fuel' as [|fuel'].
    + assert (n < 10) by (change (2 ^ (Z.of_nat 0 + 1)) with 2 in Hn'; lia).
      simpl. destruct (Z.ltb_spec n 10); [reflexivity | lia].
    + simpl. destruct (Z.ltb_spec n 10); [reflexivity|].
      apply IH.
      * split; [apply Z.div_pos; lia|]. apply Z.div_lt_upper_bound; [lia|].
        replace (Z.of_nat (S fuel) + 1) with (Z.succ (Z.of_nat fuel + 1)) in Hn by lia.
        rewrite Z.pow_succ_r in Hn by lia. lia.
      * split; [apply Z.div_pos; lia|]. apply Z.div_lt_upper_bound; [lia|].
        replace (Z.of_nat (S fuel') + 1) with (Z.succ (Z.of_nat fuel' + 1)) in Hn' by lia.
        rewrite Z.pow_succ_r in Hn' by lia. lia.
Qed.

Lemma log2_fuel (n : Z) : 0 <= n -> 0 <= n < 2 ^ (Z.of_nat (Z.to_nat (Z.log2 n)) + 1).
Proof.
  intros Hn. split; [exact Hn|]. rewrite Z2Nat.id by apply Z.log2_nonneg.
  destruct (Z.eq_dec n 0) as [->|Hne]; [reflexivity|].
  apply Z.log2_spec. lia.
Qed.

(** the recursion that [digits] obeys *)
Lemma digits_small (n : Z) :
  0 <= n < 10 -> Numeral.digits n = String (Numeral.digit_char n) "".
Proof.
  intros Hn. unfold Numeral.digits.
  destruct (Z.to_nat (Z.log2 n)); simpl.
  - rewrite Z.mod_small by lia. reflexivity.
  - destruct (Z.ltb_spec n 10); [|lia]. rewrite Z.mod_small by lia. reflexivity.
Qed.

Lemma digits_step (n : Z) :
  10 <= n ->
  Numeral.digits n
  = Numeral.digits (n / 10) +:+ String (Numeral.digit_char (n mod 10)) "".
Proof.
  intros Hn. unfold Numeral.digits.
  assert (Hf : 0 <= n < 2 ^ (Z.of_nat (Z.to_nat (Z.log2 n)) + 1)) by (apply log2_fuel; lia).
  destruct (Z.to_nat (Z.log2 n)) as [|fuel] eqn:E.
  { change (2 ^ (Z.of_nat 0 + 1)) with 2 in Hf. lia. }
  simpl. destruct (Z.ltb_spec n 10); [lia|].
  rewrite digits_acc_append. f_equal.
  apply digits_acc_fuel.
  - split; [apply Z.div_pos; lia|]. apply Z.div_lt_upper_bound; [lia|].
    replace (Z.of_nat (S fuel) + 1) with (Z.succ (Z.of_nat fuel + 1)) in Hf by lia.
    rewrite Z.pow_succ_r in Hf by lia. lia.
  - apply log2_fuel. apply Z.div_pos; lia.
Qed.

(** the number of digits of [n >= 1] tells its size *)
Lemma length_digits (n : Z) :
  1 <= n ->
  10 ^ (Z.of_nat (String.length (Numeral.digits n)) - 1) <= n
  < 10 ^ Z.of_nat (String.length (Numeral.digits n)).
Proof.
  intros Hn. assert (H0 : 0 <= n) by lia. revert Hn.
  pattern n. apply Wf_Z.Z_lt_induction; [|exact H0].
  clear n H0. intros n IH Hn.
  destruct (Z.lt_ge_cases n 10) as [Hlt|Hge].
  - rewrite digits_small by lia. simpl. lia.
  - rewrite digits_step by lia. rewrite length_append. simpl String.length.
    assert (Hq : 1 <= n / 10) by (apply Z.div_le_lower_bound; lia).
    specialize (IH (n / 10) ltac:(split; [lia | apply Z.div_lt; lia]) Hq).
    set (L := String.length (Numeral.digits (n / 10))) in *.
    replace (Z.of_nat (L + 1)) with (Z.succ (Z.of_nat L)) by lia.
    replace (Z.succ (Z.of_nat L) - 1) with (Z.succ (Z.of_nat L - 1)) by lia.
    assert (HL : 1 <= Z.of_nat L).
    { destruct L; [|lia]. simpl in IH. lia. }
    rewrite !Z.pow_succ_r by lia.
    pose proof (Z.div_mod n 10 ltac:(lia)) as Hdm.
    pose proof (Z.mod_pos_bound n 10 ltac:(lia)) as Hm. lia.
Qed.

(** ** The reference instance of the Qt conversions: doubles *)

Lemma iter_xO_spec (p q : positive) :
  Z.pos (Pos.iter xO p q) = Z.pos p * 2 ^ Z.pos q
  /\ digits2_pos (Pos.iter xO p q) = (digits2_pos p + q)%positive.
Proof.
  induction q as [|q IH] using Pos.peano_ind.
  - simpl. split; [lia|]. lia.
  - rewrite Pos.iter_succ. destruct IH as [IHv IHd]. split.
    + rewrite Pos2Z.inj_xO, IHv, Pos2Z.inj_succ, Z.pow_succ_r by lia. ring.
    + simpl. rewrite IHd. lia.
Qed.

Lemma shr_fexp_exact (m : positive) (e : Z) :
  fexp 53 1024 (Z.pos (digits2_pos m) + e) = e ->
  shr_fexp 53 1024 (Z.pos m) e loc_Exact
  = ({| shr_m := Z.pos m; shr_r := false; shr_s := false |}, e).
Proof.
  intros H. unfold shr_fexp. simpl Zdigits2. rewrite H, Z.sub_diag. reflexivity.
Qed.

(** ** Rounding to a double *)

Lemma iter_pos_nat {A : Type} (f : A -> A) (p : positive) :
  forall x : A, SpecFloat.iter_pos f p x = Nat.iter (Pos.to_nat p) f x.
Proof.
  induction p as [p IH|p IH|]; intros x; simpl SpecFloat.iter_pos.
  - rewrite !IH, Pos2Nat.inj_xI.
    replace (S (2 * Pos.to_nat p)) with (S (Pos.to_nat p + Pos.to_nat p)) by lia.
    rewrite Nat.iter_succ_r, Nat.iter_add. reflexivity.
  - rewrite !IH, Pos2Nat.inj_xO.
    replace (2 * Pos.to_nat p)%nat with (Pos.to_nat p + Pos.to_nat p)%nat by lia.
    rewrite Nat.iter_add. reflexivity.
  - reflexivity.
Qed.

Lemma shr_1_nonneg (m : Z) (r s : bool) :
  0 <= m ->
  shr_1 {| shr_m := m; shr_r := r; shr_s := s |}
  = {| shr_m := m / 2; shr_r := Z.odd m; shr_s := r || s |}.
Proof.
  intros Hm. rewrite <- Z.div2_div.
  destruct m as [|[p|p|]|p]; try reflexivity. lia.
Qed.

Lemma odd_or_rest (y k : Z) :
  0 <= y -> 0 <= k ->
  Z.odd (y / 2 ^ k) || negb (y mod 2 ^ k =? 0) = negb (y mod 2 ^ (k + 1) =? 0).
Proof.
  intros Hy Hk.
  assert (Hp : 0 < 2 ^ k) by (apply Z.pow_pos_nonneg; lia).
  rewrite Z.pow_add_r, Z.pow_1_r by lia.
  rewrite Z.rem_mul_r by lia.
  pose proof (Z.mod_pos_bound y (2 ^ k) Hp) as Hb.
  rewrite (Zmod_odd (y / 2 ^ k)).
  destruct (Z.odd (y / 2 ^ k)); simpl.
  - symmetry. apply negb_true_iff, Z.eqb_neq. lia.
  - rewrite Z.mul_0_r, Z.add_0_r. reflexivity.
Qed.

Lemma shr_iter (y : Z) (n : nat) :
  0 <= y ->
  Nat.iter (S n) shr_1 {| shr_m := y; shr_r := false; shr_s := false |}
  = {| shr_m := y / 2 ^ (Z.of_nat n + 1);
       shr_r := Z.odd (y / 2 ^ Z.of_nat n);
       shr_s := negb (y mod 2 ^ Z.of_nat n =? 0) |}.
Proof.
  intros Hy. induction n as [|n IH].
  - change (Nat.iter 1 shr_1 ?x) with (shr_1 x). rewrite shr_1_nonneg by lia.
    change (2 ^ (Z.of_nat 0 + 1)) with 2. change (2 ^ Z.of_nat 0) with 1.
    rewrite Z.div_1_r, Z.mod_1_r. reflexivity.
  - change (Nat.iter (S (S n)) shr_1 ?x) with (shr_1 (Nat.iter (S n) shr_1 x)).
    rewrite IH.
    assert (Hp : 0 < 2 ^ (Z.of_nat n + 1)) by (apply Z.pow_pos_nonneg; lia).
    rewrite shr_1_nonneg by (apply Z.div_pos; lia).
    rewrite Nat2Z.inj_succ. unfold Z.succ.
    f_equal.
    + rewrite Z.div_div by lia. rewrite (Z.pow_add_r 2 (Z.of_nat n + 1) 1) by lia.
      reflexivity.
    + apply odd_or_rest; lia.
Qed.

(** a shift to the right by [n >= 1] places *)
Lemma shr_shift (y e n : Z) :
  0 <= y -> 0 < n ->
  shr {| shr_m := y; shr_r := false; shr_s := false |} e n
  = ({| shr_m := y / 2 ^ (n - 1) / 2;
        shr_r := Z.odd (y / 2 ^ (n - 1));
        shr_s := negb (y mod 2 ^ (n - 1) =? 0) |}, e + n).
Proof.
  intros Hy Hn. destruct n as [|p|p]; try lia.
  unfold shr. rewrite iter_pos_nat.
  destruct (Pos.to_nat p) as [|k] eqn:Hk; [lia|].
  rewrite shr_iter by lia.
  assert (Hkz : Z.of_nat k = Z.pos p - 1) by lia.
  rewrite Hkz.
  assert (Hp : 0 < 2 ^ (Z.pos p - 1)) by (apply Z.pow_pos_nonneg; lia).
  rewrite Z.div_div by lia.
  rewrite (Z.pow_add_r 2 (Z.pos p - 1) 1) by lia. reflexivity.
Qed.

Lemma floor_scaled_one_nonneg (y j : Z) :
  0 <= j -> floor_scaled y 1 j = y * 2 ^ j /\ exact_scaled y 1 j = true.
Proof.
  intros Hj. unfold floor_scaled, exact_scaled, scale2.
  destruct (Z.leb_spec 0 j); [|lia].
  rewrite Z.div_1_r, Z.mod_1_r. split; reflexivity.
Qed.

Lemma floor_scaled_one_nonpos (y j : Z) :
  j <= 0 ->
  floor_scaled y 1 j = y / 2 ^ (- j)
  /\ exact_scaled y 1 j = (y mod 2 ^ (- j) =? 0).
Proof.
  intros Hj. unfold floor_scaled, exact_scaled, scale2.
  destruct (Z.leb_spec 0 j).
  - assert (j = 0) as -> by lia. change (2 ^ (- 0)) with 1. change (2 ^ 0) with 1.
    rewrite Z.mul_1_r. split; reflexivity.
  - rewrite Z.mul_1_l. split; reflexivity.
Qed.

(** [binary_round] is the end of the rounding on the halves of the last
    place that the number holds *)
Lemma binary_round_char (sx : bool) (p : positive) (e : Z) :
  let T := fexp 53 1024 (Z.pos (digits2_pos p) + e) in
  binary_round 53 1024 sx p e
  = round_finish sx T (floor_scaled (Z.pos p) 1 (e + 1 - T))
                 (negb (exact_scaled (Z.pos p) 1 (e + 1 - T))).
Proof.
  intros T. unfold binary_round. fold T.
  assert (HT : T = fexp 53 1024 (Z.pos (digits2_pos p) + e)) by reflexivity.
  clearbody T.
  destruct (Z.le_gt_cases T e) as [Hle|Hgt].
  - (* the last place is at or below the exponent: nothing is lost *)
    destruct (floor_scaled_one_nonneg (Z.pos p) (e + 1 - T) ltac:(lia)) as [-> ->].
    assert (Hal : exists mz : positive,
               shl_align p e T = (mz, T)
               /\ Z.pos mz = Z.pos p * 2 ^ (e - T)
               /\ Z.pos (digits2_pos mz) + T = Z.pos (digits2_pos p) + e).
    { unfold shl_align. destruct (T - e) as [|q|q] eqn:Hq; try lia.
      - exists p. assert (T = e) as -> by lia. rewrite Z.sub_diag.
        change (2 ^ 0) with 1. rewrite Z.mul_1_r. repeat split.
      - exists (Pos.iter xO p q). destruct (iter_xO_spec p q) as [Hv Hd].
        repeat split.
        + rewrite Hv. f_equal. f_equal. lia.
        + rewrite Hd. lia. }
    destruct Hal as (mz & -> & Hmz & Hdg).
    unfold binary_round_aux, round_finish.
    assert (Hf : fexp 53 1024 (Z.pos (digits2_pos mz) + T) = T) by (rewrite Hdg; congruence).
    rewrite (shr_fexp_exact _ _ Hf). cbn [shr_m shr_r shr_s loc_of_shr_record].
    replace (Z.pos p * 2 ^ (e + 1 - T)) with (Z.pos mz * 2).
    2:{ rewrite Hmz. replace (e + 1 - T) with (e - T + 1) by lia.
        rewrite Z.pow_add_r by lia. ring. }
    rewrite Z.div_mul by lia. rewrite Z.odd_mul. simpl Z.odd. rewrite andb_false_r.
    simpl negb. cbn [loc_of_shr_record]. reflexivity.
  - destruct (floor_scaled_one_nonpos (Z.pos p) (e + 1 - T) ltac:(lia)) as [-> ->].
    assert (Hal : shl_align p e T = (p, e)).
    { unfold shl_align. destruct (T - e) as [|q|q] eqn:Hq; try lia; reflexivity. }
    rewrite Hal. unfold binary_round_aux, round_finish.
    unfold shr_fexp at 1. simpl Zdigits2. rewrite <- HT. cbn [shr_record_of_loc].
    rewrite shr_shift by lia.
    replace (- (e + 1 - T)) with (T - e - 1) by lia.
    replace (e + (T - e)) with T by lia.
    cbn [shr_m shr_r shr_s]. reflexivity.
Qed.

Lemma pow2_pos (k : Z) : 0 <= k -> 0 < 2 ^ k.
Proof. intros. apply Z.pow_pos_nonneg; lia. Qed.

Lemma pow10_pos (k : Z) : 0 <= k -> 0 < 10 ^ k.
Proof. intros. apply Z.pow_pos_nonneg; lia. Qed.

(** equal fractions have the same whole part, and are whole together *)
Lemma div_frac_eq (a b a' b' : Z) :
  0 < b -> 0 < b' -> a * b' = a' * b ->
  a / b = a' / b' /\ (a mod b =? 0) = (a' mod b' =? 0).
Proof.
  intros Hb Hb' Heq. split.
  - rewrite <- (Z.div_mul_cancel_r a b b') by lia.
    rewrite <- (Z.div_mul_cancel_r a' b' b) by lia.
    rewrite Heq, (Z.mul_comm b b'). reflexivity.
  - assert (Hm : (a mod b) * b' = (a' mod b') * b).
    { rewrite <- !Z.mul_mod_distr_r by lia. rewrite Heq, (Z.mul_comm b b'). reflexivity. }
    pose proof (Z.mod_pos_bound a b Hb) as Hb1.
    pose proof (Z.mod_pos_bound a' b' Hb') as Hb2.
    destruct (Z.eqb_spec (a mod b) 0) as [Hz|Hz], (Z.eqb_spec (a' mod b') 0) as [Hz'|Hz'];
      try reflexivity; exfalso.
    + rewrite Hz in Hm. symmetry in Hm. apply Z.mul_eq_0 in Hm. lia.
    + rewrite Hz' in Hm. apply Z.mul_eq_0 in Hm. lia.
Qed.

(** the scaled fraction over a power of two of one's choice *)
Lemma scale2_shift (num den k K : Z) :
  0 < den -> 0 <= K -> 0 <= K + k ->
  floor_scaled num den k = (num * 2 ^ (K + k)) / (den * 2 ^ K)
  /\ exact_scaled num den k = ((num * 2 ^ (K + k)) mod (den * 2 ^ K) =? 0).
Proof.
  intros Hden HK HKk. unfold floor_scaled, exact_scaled, scale2.
  pose proof (pow2_pos K HK). pose proof (pow2_pos (K + k) HKk).
  destruct (Z.leb_spec 0 k).
  - pose proof (pow2_pos k ltac:(lia)).
    apply div_frac_eq; [lia | nia |].
    rewrite (Z.add_comm K k), Z.pow_add_r by lia. ring.
  - pose proof (pow2_pos (- k) ltac:(lia)).
    apply div_frac_eq; [nia | nia |].
    assert (HKe : 2 ^ K = 2 ^ (K + k) * 2 ^ (- k))
      by (rewrite <- Z.pow_add_r by lia; f_equal; lia).
    rewrite HKe. ring.
Qed.

Lemma floor_scaled_frac_eq (num den num' den' k : Z) :
  0 < den -> 0 < den' -> num * den' = num' * den ->
  floor_scaled num den k = floor_scaled num' den' k
  /\ exact_scaled num den k = exact_scaled num' den' k.
Proof.
  intros Hd Hd' Heq.
  set (K := Z.abs k).
  destruct (scale2_shift num den k K) as [-> ->]; [lia | lia | lia |].
  destruct (scale2_shift num' den' k K) as [-> ->]; [lia | lia | lia |].
  pose proof (pow2_pos K ltac:(lia)).
  apply div_frac_eq; [nia | nia |].
  transitivity (num * den' * (2 ^ (K + k) * 2 ^ K)); [ring|].
  rewrite Heq. ring.
Qed.

(** the number of binary digits [L] of a fraction: [2^(L-1) <= q < 2^L] *)
Lemma bits_unique (num den L L' : Z) :
  0 < den ->
  floor_scaled num den (1 - L) = 1 -> floor_scaled num den (1 - L') = 1 -> L = L'.
Proof.
  intros Hd H1 H2.
  set (K := Z.abs L + Z.abs L' + 1).
  destruct (scale2_shift num den (1 - L) K) as [E1 _]; [lia | lia | lia |].
  destruct (scale2_shift num den (1 - L') K) as [E2 _]; [lia | lia | lia |].
  rewrite E1 in H1. rewrite E2 in H2. clear E1 E2.
  pose proof (pow2_pos K ltac:(lia)) as HK.
  set (B := den * 2 ^ K) in *. assert (HB : 0 < B) by (subst B; nia).
  assert (Hb : forall a, a / B = 1 -> B <= a < 2 * B).
  { intros a Ha. pose proof (Z.div_mod a B ltac:(lia)).
    pose proof (Z.mod_pos_bound a B HB). nia. }
  apply Hb in H1. apply Hb in H2.
  assert (Hmono : forall a b, 0 <= a -> a < b -> 2 * 2 ^ a <= 2 ^ b).
  { intros a b Ha Hab. rewrite <- Z.pow_succ_r by lia.
    apply Z.pow_le_mono_r; lia. }
  destruct (Z.lt_trichotomy L L') as [Hlt|[Heq|Hgt]]; [exfalso | exact Heq | exfalso].
  - pose proof (Hmono (K + (1 - L')) (K + (1 - L)) ltac:(lia) ltac:(lia)).
    assert (0 < num) by (destruct (Z.le_gt_cases num 0); [|lia];
                         pose proof (pow2_pos (K + (1 - L')) ltac:(lia)); nia).
    nia.
  - pose proof (Hmono (K + (1 - L)) (K + (1 - L')) ltac:(lia) ltac:(lia)).
    assert (0 < num) by (destruct (Z.le_gt_cases num 0); [|lia];
                         pose proof (pow2_pos (K + (1 - L')) ltac:(lia)); nia).
    nia.
Qed.

(** in the normal range the number holds between 2^53 and 2^54 halves of
    its last place *)
Lemma bits_halves (num den L : Z) :
  0 < den ->
  floor_scaled num den (1 - L) = 1 ->
  2 ^ 53 <= floor_scaled num den (1 - (L - 53)) < 2 ^ 54.
Proof.
  intros Hd H1.
  set (K := Z.abs L + 54).
  destruct (scale2_shift num den (1 - L) K) as [E1 _]; [lia | lia | lia |].
  destruct (scale2_shift num den (1 - (L - 53)) K) as [E2 _]; [lia | lia | lia |].
  rewrite E1 in H1. rewrite E2. clear E1 E2.
  pose proof (pow2_pos K ltac:(lia)) as HK.
  set (B := den * 2 ^ K) in *. assert (HB : 0 < B) by (subst B; nia).
  replace (K + (1 - (L - 53))) with (K + (1 - L) + 53) by lia.
  rewrite Z.pow_add_r by lia.
  set (A := num * 2 ^ (K + (1 - L))) in *.
  replace (num * (2 ^ (K + (1 - L)) * 2 ^ 53)) with (A * 2 ^ 53) by (subst A; ring).
  pose proof (Z.div_mod A B ltac:(lia)) as Hdm.
  pose proof (Z.mod_pos_bound A B HB) as Hmb. rewrite H1 in Hdm.
  change (2 ^ 54) with (2 * 2 ^ 53).
  assert (H53 : 0 < 2 ^ 53) by (apply pow2_pos; lia).
  split.
  - apply Z.div_le_lower_bound; [lia|]. nia.
  - apply Z.div_lt_upper_bound; [lia|]. nia.
Qed.

Lemma digits2_pos_spec (p : positive) :
  2 ^ (Z.pos (digits2_pos p) - 1) <= Z.pos p < 2 ^ Z.pos (digits2_pos p).
Proof.
  induction p as [p IH|p IH|]; simpl digits2_pos.
  - rewrite Pos2Z.inj_succ. replace (Z.succ (Z.pos (digits2_pos p)) - 1)
      with (Z.succ (Z.pos (digits2_pos p) - 1)) by lia.
    rewrite !Z.pow_succ_r by lia. lia.
  - rewrite Pos2Z.inj_succ. replace (Z.succ (Z.pos (digits2_pos p)) - 1)
      with (Z.succ (Z.pos (digits2_pos p) - 1)) by lia.
    rewrite !Z.pow_succ_r by lia. lia.
  - change (2 ^ (1 - 1)) with 1. change (2 ^ 1) with 2. lia.
Qed.

Lemma div_one (a b : Z) : 0 < b -> b <= a < 2 * b -> a / b = 1.
Proof.
  intros Hb Ha. symmetry. apply (Z.div_unique a b 1 (a - b)); lia.
Qed.

(** a whole number as a double *)
Lemma binary_round_whole_char (sx : bool) (p : positive) :
  exists L : Z,
    floor_scaled (Z.pos p) 1 (1 - L) = 1
    /\ binary_round 53 1024 sx p 0
       = round_finish sx (Z.max (L - 53) (- 1074))
           (floor_scaled (Z.pos p) 1 (1 - Z.max (L - 53) (- 1074)))
           (negb (exact_scaled (Z.pos p) 1 (1 - Z.max (L - 53) (- 1074)))).
Proof.
  exists (Z.pos (digits2_pos p)). split.
  - destruct (floor_scaled_one_nonpos (Z.pos p) (1 - Z.pos (digits2_pos p)) ltac:(lia))
      as [-> _].
    replace (- (1 - Z.pos (digits2_pos p))) with (Z.pos (digits2_pos p) - 1) by lia.
    pose proof (digits2_pos_spec p) as Hs.
    apply div_one; [apply pow2_pos; lia|].
    rewrite <- Z.pow_succ_r by lia.
    replace (Z.succ (Z.pos (digits2_pos p) - 1)) with (Z.pos (digits2_pos p)) by lia.
    exact Hs.
  - rewrite binary_round_char. rewrite Z.add_0_r.
    change (fexp 53 1024 (Z.pos (digits2_pos p)))
      with (Z.max (Z.pos (digits2_pos p) - 53) (- 1074)).
    reflexivity.
Qed.

(** the quotient with a sticky bit is rounded as the fraction itself *)
Lemma binary_round_sticky_char (sx : bool) (M den s : Z) (p : positive) :
  1 <= M -> 0 < den -> 0 <= s ->
  2 ^ 63 <= M * 2 ^ s / den ->
  Z.pos p = 2 * (M * 2 ^ s / den) + (if (M * 2 ^ s) mod den =? 0 then 0 else 1) ->
  exists L : Z,
    floor_scaled M den (1 - L) = 1
    /\ binary_round 53 1024 sx p (- s - 1)
       = round_finish sx (Z.max (L - 53) (- 1074))
           (floor_scaled M den (1 - Z.max (L - 53) (- 1074)))
           (negb (exact_scaled M den (1 - Z.max (L - 53) (- 1074)))).
Proof.
  intros HM Hden Hs Hq Hp.
  set (q := M * 2 ^ s / den) in *.
  set (st := if (M * 2 ^ s) mod den =? 0 then 0 else 1) in *.
  assert (Hst : 0 <= st <= 1) by (subst st; destruct (_ =? 0); lia).
  set (dg := Z.pos (digits2_pos p)).
  pose proof (digits2_pos_spec p) as Hdg. fold dg in Hdg.
  assert (Hdg65 : 65 <= dg).
  { destruct (Z.le_gt_cases 65 dg) as [|Hlt]; [assumption|exfalso].
    assert (2 ^ dg <= 2 ^ 64) by (apply Z.pow_le_mono_r; lia).
    change (2 ^ 64) with (2 * 2 ^ 63) in *. lia. }
  assert (Hq2 : 2 ^ (dg - 2) <= q < 2 ^ (dg - 1)).
  { replace (dg - 1) with (Z.succ (dg - 2)) in Hdg |- * by lia.
    replace dg with (Z.succ (Z.succ (dg - 2))) in Hdg at 2 by lia.
    rewrite !Z.pow_succ_r in Hdg by lia. rewrite Z.pow_succ_r by lia. lia. }
  exists (dg - s - 1).
  set (T := Z.max (dg - s - 1 - 53) (- 1074)).
  split.
  - destruct (scale2_shift M den (1 - (dg - s - 1)) (dg - 2)) as [-> _]; [lia | lia | lia |].
    replace (dg - 2 + (1 - (dg - s - 1))) with s by lia.
    rewrite <- Z.div_div by (try apply pow2_pos; lia). fold q.
    apply div_one; [apply pow2_pos; lia|].
    rewrite <- Z.pow_succ_r by lia. replace (Z.succ (dg - 2)) with (dg - 1) by lia.
    exact Hq2.
  - rewrite binary_round_char. fold dg.
    assert (HT : fexp 53 1024 (dg + (- s - 1)) = T).
    { unfold fexp, emin, T. f_equal. lia. }
    rewrite HT.
    assert (Hk : 11 <= s + T) by (unfold T; lia).
    destruct (floor_scaled_one_nonpos (Z.pos p) (- s - 1 + 1 - T) ltac:(lia)) as [-> ->].
    replace (- (- s - 1 + 1 - T)) with (s + T) by lia.
    destruct (scale2_shift M den (1 - T) (s + T - 1)) as [-> ->]; [lia | lia | lia |].
    replace (s + T - 1 + (1 - T)) with s by lia.
    pose proof (pow2_pos (s + T - 1) ltac:(lia)) as Hpk.
    assert (H2k : 2 ^ (s + T) = 2 * 2 ^ (s + T - 1)).
    { rewrite <- Z.pow_succ_r by lia. f_equal. lia. }
    rewrite H2k.
    assert (Hhalf : Z.pos p / 2 = q).
    { rewrite Hp. symmetry. apply (Z.div_unique _ 2 q st); lia. }
    assert (Hpar : Z.pos p mod 2 = st).
    { rewrite Hp. symmetry. apply (Z.mod_unique _ 2 q st); lia. }
    f_equal.
    + rewrite <- (Z.div_div (Z.pos p) 2) by lia. rewrite Hhalf.
      rewrite <- Z.div_div by lia. reflexivity.
    + f_equal.
      rewrite (Z.rem_mul_r (Z.pos p) 2) by lia. rewrite Hhalf, Hpar.
      rewrite (Z.rem_mul_r (M * 2 ^ s) den) by lia. fold q.
      pose proof (Z.mod_pos_bound q (2 ^ (s + T - 1)) Hpk) as Hb1.
      pose proof (Z.mod_pos_bound (M * 2 ^ s) den Hden) as Hb2.
      unfold st.
      destruct (Z.eqb_spec ((M * 2 ^ s) mod den) 0) as [H0|H0].
      * rewrite H0.
        destruct (Z.eqb_spec (q mod 2 ^ (s + T - 1)) 0) as [H1|H1].
        -- rewrite H1, !Z.mul_0_r. reflexivity.
        -- transitivity false; [apply Z.eqb_neq; lia | symmetry; apply Z.eqb_neq; nia].
      * transitivity false; [apply Z.eqb_neq; lia | symmetry; apply Z.eqb_neq; nia].
Qed.

Lemma log2_bounds (n : Z) : 0 < n -> 2 ^ Z.log2 n <= n < 2 * 2 ^ Z.log2 n.
Proof.
  intros Hn. pose proof (Z.log2_spec n Hn) as H.
  rewrite Z.pow_succ_r in H by apply Z.log2_nonneg. exact H.
Qed.

(** the double read from a decimal is the rounding of its value *)
Lemma of_decimal_char (neg : bool) (M E num den : Z) :
  1 <= M -> Numeral.ratio 10 M E = (num, den) ->
  exists L : Z,
    floor_scaled num den (1 - L) = 1
    /\ Numeral.of_decimal neg M E
       = round_finish neg (Z.max (L - 53) (- 1074))
           (floor_scaled num den (1 - Z.max (L - 53) (- 1074)))
           (negb (exact_scaled num den (1 - Z.max (L - 53) (- 1074)))).
Proof.
  intros HM Hr. unfold Numeral.ratio in Hr. unfold Numeral.of_decimal.
  destruct (Z.eqb_spec M 0); [lia|].
  destruct (Z.leb_spec 0 E) as [HE|HE]; injection Hr as <- <-.
  - pose proof (pow10_pos E HE).
    destruct (M * 10 ^ E) as [|p|p] eqn:Hp; try nia.
    destruct (binary_round_whole_char neg p) as (L & HL & Hb).
    exists L. split; [exact HL|]. rewrite <- Hb. destruct neg; reflexivity.
  - cbv zeta.
    set (den := 10 ^ (- E)).
    assert (Hden : 0 < den) by (apply pow10_pos; lia).
    set (s := Z.max 0 (64 + Z.log2 den - Z.log2 M)).
    set (q := M * 2 ^ s / den).
    set (st := if (M * 2 ^ s) mod den =? 0 then 0 else 1).
    assert (Hq : 2 ^ 63 <= q).
    { pose proof (log2_bounds M ltac:(lia)) as HlM.
      pose proof (log2_bounds den Hden) as Hld.
      pose proof (Z.log2_nonneg M). pose proof (Z.log2_nonneg den).
      apply Z.div_le_lower_bound; [lia|].
      assert (Hpw : 2 * 2 ^ 63 * 2 ^ Z.log2 den <= 2 ^ Z.log2 M * 2 ^ s).
      { rewrite <- Z.pow_add_r by lia. change (2 * 2 ^ 63) with (2 ^ 64).
        rewrite <- Z.pow_add_r by lia. apply Z.pow_le_mono_r; lia. }
      pose proof (pow2_pos s ltac:(lia)). pose proof (pow2_pos (Z.log2 den) ltac:(lia)).
      assert (0 < 2 ^ 63) by (apply pow2_pos; lia).
      nia. }
    assert (Hst : 0 <= st <= 1) by (subst st; destruct (_ =? 0); lia).
    assert (0 < 2 ^ 63) by (apply pow2_pos; lia).
    destruct (2 * q + st) as [|p|p] eqn:Hp; try lia.
    destruct (binary_round_sticky_char neg M den s p HM Hden ltac:(lia) Hq)
      as (L & HL & Hb).
    { rewrite <- Hp. reflexivity. }
    exists L. split; [exact HL|]. rewrite <- Hb. destruct neg; reflexivity.
Qed.

Lemma ratio_den_pos (M E num den : Z) :
  Numeral.ratio 10 M E = (num, den) -> 0 < den.
Proof.
  unfold Numeral.ratio. destruct (Z.leb_spec 0 E); intros [= <- <-]; [lia|].
  apply pow10_pos. lia.
Qed.

(** decimals of the same value read as the same double *)
Lemma of_decimal_same (neg : bool) (M E M' E' num den num' den' : Z) :
  1 <= M -> 1 <= M' ->
  Numeral.ratio 10 M E = (num, den) -> Numeral.ratio 10 M' E' = (num', den') ->
  num * den' = num' * den ->
  Numeral.of_decimal neg M E = Numeral.of_decimal neg M' E'.
Proof.
  intros HM HM' Hr Hr' Heq.
  pose proof (ratio_den_pos _ _ _ _ Hr) as Hd.
  pose proof (ratio_den_pos _ _ _ _ Hr') as Hd'.
  destruct (of_decimal_char neg M E num den HM Hr) as (L & HL & ->).
  destruct (of_decimal_char neg M' E' num' den' HM' Hr') as (L' & HL' & ->).
  assert (L = L') as <-.
  { apply (bits_unique num den); [exact Hd | exact HL |].
    rewrite (proj1 (floor_scaled_frac_eq num den num' den' (1 - L') Hd Hd' Heq)).
    exact HL'. }
  destruct (floor_scaled_frac_eq num den num' den' (1 - Z.max (L - 53) (- 1074))
              Hd Hd' Heq) as [-> ->].
  reflexivity.
Qed.

(** zeros at the end of the digits, taken off the exponent, change nothing *)
Lemma of_decimal_pad (neg : bool) (M E j : Z) :
  1 <= M -> 0 <= j ->
  Numeral.of_decimal neg (M * 10 ^ j) (E - j) = Numeral.of_decimal neg M E.
Proof.
  intros HM Hj. pose proof (pow10_pos j Hj) as Hpj.
  destruct (Numeral.ratio 10 (M * 10 ^ j) (E - j)) as [n1 d1] eqn:H1.
  destruct (Numeral.ratio 10 M E) as [n2 d2] eqn:H2.
  apply (of_decimal_same neg _ _ _ _ n1 d1 n2 d2); [nia | lia | exact H1 | exact H2 |].
  unfold Numeral.ratio in H1, H2.
  destruct (Z.leb_spec 0 (E - j)), (Z.leb_spec 0 E);
    injection H1 as <- <-; injection H2 as <- <-; try lia.
  - rewrite !Z.mul_1_r, <- Z.mul_assoc, <- Z.pow_add_r by lia. do 2 f_equal. lia.
  - rewrite !Z.mul_1_r, <- Z.mul_assoc, <- Z.pow_add_r by lia. do 2 f_equal. lia.
  - rewrite <- !Z.mul_assoc, <- Z.pow_add_r by lia. do 2 f_equal. lia.
Qed.

Lemma digits2_pos_of_bounds (p : positive) (k : Z) :
  2 ^ (k - 1) <= Z.pos p < 2 ^ k -> 1 <= k -> Z.pos (digits2_pos p) = k.
Proof.
  intros Hb Hk. pose proof (digits2_pos_spec p) as Hs.
  set (dg := Z.pos (digits2_pos p)) in *.
  assert (Hdg : 1 <= dg) by (subst dg; lia).
  destruct (Z.lt_trichotomy dg k) as [Hlt|[Heq|Hgt]]; [exfalso | exact Heq | exfalso].
  - assert (2 ^ dg <= 2 ^ (k - 1)) by (apply Z.pow_le_mono_r; lia). lia.
  - assert (2 ^ k <= 2 ^ (dg - 1)) by (apply Z.pow_le_mono_r; lia). lia.
Qed.

(** the end of the rounding in the normal range: the double is [r] last
    places, with [r] next to half of [h] *)
Lemma round_finish_normal (sx : bool) (T h : Z) (s : bool) :
  2 ^ 53 <= h < 2 ^ 54 -> - 1074 <= T <= 970 ->
  exists (m : positive) (e r : Z),
    round_finish sx T h s = S754_finite sx m e
    /\ (e = T \/ e = T + 1)
    /\ Z.pos m * 2 ^ (e - T) = r
    /\ h - 1 <= 2 * r <= h + 1
    /\ (2 * r = h - 1 -> s = false)
    /\ (2 * r = h -> Z.odd h = false).
Proof.
  intros Hh HT.
  change (2 ^ 53) with 9007199254740992 in Hh.
  change (2 ^ 54) with 18014398509481984 in Hh.
  unfold round_finish. cbn [shr_m].
  set (f := h / 2).
  assert (Hf : h = 2 * f + (if Z.odd h then 1 else 0)).
  { subst f. rewrite <- Zmod_odd. apply Z.div_mod. lia. }
  set (r := round_nearest_even f
              (loc_of_shr_record {| shr_m := f; shr_r := Z.odd h; shr_s := s |})).
  assert (Hr : (r = f \/ r = f + 1)
               /\ h - 1 <= 2 * r <= h + 1 /\ (2 * r = h - 1 -> s = false)
               /\ (2 * r = h -> Z.odd h = false)).
  { subst r. destruct (Z.odd h), s; cbn [loc_of_shr_record round_nearest_even];
      try destruct (Z.even f); repeat split; try (left; reflexivity);
      try (right; reflexivity); try lia. }
  destruct Hr as (Hrf & Hr1 & Hr2 & Hr3).
  assert (Hrb : 4503599627370496 <= r <= 9007199254740992) by lia.
  clearbody r. clear Hrf.
  destruct r as [|pr|pr]; try lia.
  destruct (Z.eq_dec (Z.pos pr) 9007199254740992) as [Heq|Hne].
  - (* the rounding reached 2^53 *)
    injection Heq as ->.
    exists 4503599627370496%positive, (T + 1), 9007199254740992.
    split; [|split; [right; reflexivity|]; split;
              [replace (T + 1 - T) with 1 by lia; reflexivity|];
              split; [lia|]; split; [exact Hr2 | exact Hr3]].
    unfold shr_fexp. change (Zdigits2 9007199254740992) with 54.
    cbn [shr_record_of_loc].
    assert (Hfe : fexp 53 1024 (54 + T) - T = 1) by (unfold fexp, emin; lia).
    rewrite Hfe. cbn [shr SpecFloat.iter_pos shr_1 shr_m].
    destruct (Z.leb_spec (T + 1) (1024 - 53)); [reflexivity | lia].
  - exists pr, T, (Z.pos pr).
    split; [|split; [left; reflexivity|]; split;
              [|split; [lia|]; split; [exact Hr2 | exact Hr3]]].
    + assert (Hd : Z.pos (digits2_pos pr) = 53).
      { apply digits2_pos_of_bounds; [|lia].
        change (2 ^ (53 - 1)) with 4503599627370496.
        change (2 ^ 53) with 9007199254740992. lia. }
      assert (Hfe : fexp 53 1024 (Z.pos (digits2_pos pr) + T) = T)
        by (rewrite Hd; unfold fexp, emin; lia).
      rewrite (shr_fexp_exact _ _ Hfe). cbn [shr_m].
      destruct (Z.leb_spec T (1024 - 53)); [reflexivity | lia].
    + rewrite Z.sub_diag. change (2 ^ 0) with 1. lia.
Qed.

(** ** Fractions as rational numbers *)

Lemma inject_Z_pos (b : Z) : 0 < b -> (0 < inject_Z b)%Q.
Proof. intros H. change 0%Q with (inject_Z 0). rewrite <- Zlt_Qlt. exact H. Qed.

(** the quotient of the integers is the whole part of the fraction *)
Lemma Zdiv_Q (a b : Z) :
  0 < b ->
  (inject_Z (a / b) <= inject_Z a / inject_Z b)%Q
  /\ (inject_Z a / inject_Z b < inject_Z (a / b) + 1)%Q
  /\ ((a mod b =? 0) = true -> (inject_Z a / inject_Z b == inject_Z (a / b))%Q).
Proof.
  intros Hb. pose proof (inject_Z_pos b Hb) as HB.
  pose proof (Z.div_mod a b ltac:(lia)) as Hdm.
  pose proof (Z.mod_pos_bound a b Hb) as Hmb.
  split; [|split].
  - apply Qle_shift_div_l; [exact HB|].
    rewrite <- inject_Z_mult, <- Zle_Qle. nia.
  - apply Qlt_shift_div_r; [exact HB|].
    change 1%Q with (inject_Z 1).
    rewrite <- inject_Z_plus, <- inject_Z_mult, <- Zlt_Qlt. nia.
  - intros H0. apply Z.eqb_eq in H0.
    assert (Ha : a = a / b * b) by nia.
    rewrite Ha at 1. rewrite inject_Z_mult. field. lra.
Qed.

Lemma Qpower_Z10 (k : Z) : 0 <= k -> (inject_Z (10 ^ k) == 10 ^ k)%Q.
Proof. intros H. rewrite Zpower_Qpower by exact H. reflexivity. Qed.

Lemma Qpower2_pos (k : Z) : (0 < 2 ^ k)%Q.
Proof. apply Qpower_0_lt. reflexivity. Qed.

Lemma Qpower10_pos (k : Z) : (0 < 10 ^ k)%Q.
Proof. apply Qpower_0_lt. reflexivity. Qed.

Lemma Qpower2_add (a b : Z) : (2 ^ (a + b) == 2 ^ a * 2 ^ b)%Q.
Proof. apply Qpower_plus. discriminate. Qed.

Lemma Qpower10_add (a b : Z) : (10 ^ (a + b) == 10 ^ a * 10 ^ b)%Q.
Proof. apply Qpower_plus. discriminate. Qed.

Lemma Qpower2_inv (k : Z) : (2 ^ k * 2 ^ (- k) == 1)%Q.
Proof. rewrite <- Qpower2_add, Z.add_opp_diag_r. reflexivity. Qed.

Lemma Qpower10_inv (k : Z) : (10 ^ k * 10 ^ (- k) == 1)%Q.
Proof. rewrite <- Qpower10_add, Z.add_opp_diag_r. reflexivity. Qed.

(** the value of a scaled fraction *)
Lemma scale_Q (base : Z) (b : Q) (num den k a c : Z) :
  0 < base -> (inject_Z base == b)%Q -> 0 < den ->
  (if 0 <=? k then (num * base ^ k, den) else (num, den * base ^ (- k))) = (a, c) ->
  0 < c /\ (inject_Z a / inject_Z c == inject_Z num / inject_Z den * b ^ k)%Q.
Proof.
  intros Hbase Hb Hden Heq.
  pose proof (inject_Z_pos den Hden) as HD.
  assert (Hbpos : (0 < b)%Q) by (rewrite <- Hb; apply inject_Z_pos; exact Hbase).
  destruct (Z.leb_spec 0 k) as [Hk|Hk]; injection Heq as <- <-.
  - split; [exact Hden|].
    rewrite inject_Z_mult, Zpower_Qpower by exact Hk. rewrite Hb. field. lra.
  - assert (Hp : 0 < base ^ (- k)) by (apply Z.pow_pos_nonneg; lia).
    split; [nia|].
    rewrite inject_Z_mult, Zpower_Qpower by lia. rewrite Hb.
    assert (Hinv : (b ^ k * b ^ (- k) == 1)%Q).
    { rewrite <- Qpower_plus by lra. rewrite Z.add_opp_diag_r. reflexivity. }
    pose proof (Qpower_0_lt b (- k) Hbpos) as H1.
    pose proof (Qpower_0_lt b k Hbpos) as H2.
    set (x := (b ^ k)%Q) in *. set (y := (b ^ (- k))%Q) in *.
    assert (Hx : (x == / y)%Q).
    { apply (Qmult_inj_r _ _ y); [lra|]. rewrite Hinv. field. lra. }
    rewrite Hx. field. split; lra.
Qed.

Lemma ratio10_Q (M E num den : Z) :
  Numeral.ratio 10 M E = (num, den) ->
  0 < den /\ (inject_Z num / inject_Z den == inject_Z M * 10 ^ E)%Q.
Proof.
  intros H. unfold Numeral.ratio in H.
  assert (H' : (if 0 <=? E then (M * 10 ^ E, 1 * 1) else (M, 1 * 10 ^ (- E))) = (num, den)).
  { rewrite <- H. destruct (0 <=? E); f_equal; lia. }
  destruct (scale_Q 10 10%Q M 1 E num den ltac:(lia) ltac:(reflexivity) ltac:(lia) H')
    as [Hd Hv].
  split; [exact Hd|]. rewrite Hv. field.
Qed.

Lemma ratio2_Q (M E num den : Z) :
  Numeral.ratio 2 M E = (num, den) ->
  0 < den /\ (inject_Z num / inject_Z den == inject_Z M * 2 ^ E)%Q.
Proof.
  intros H. unfold Numeral.ratio in H.
  assert (H' : (if 0 <=? E then (M * 2 ^ E, 1 * 1) else (M, 1 * 2 ^ (- E))) = (num, den)).
  { rewrite <- H. destruct (0 <=? E); f_equal; lia. }
  destruct (scale_Q 2 2%Q M 1 E num den ltac:(lia) ltac:(reflexivity) ltac:(lia) H')
    as [Hd Hv].
  split; [exact Hd|]. rewrite Hv. field.
Qed.

(** the whole part of a scaled fraction, as a rational number *)
Lemma floor_scaled_Q (num den k : Z) :
  0 < den ->
  (inject_Z (floor_scaled num den k) <= inject_Z num / inject_Z den * 2 ^ k)%Q
  /\ (inject_Z num / inject_Z den * 2 ^ k < inject_Z (floor_scaled num den k) + 1)%Q
  /\ (exact_scaled num den k = true ->
      (inject_Z num / inject_Z den * 2 ^ k == inject_Z (floor_scaled num den k))%Q).
Proof.
  intros Hden. unfold floor_scaled, exact_scaled.
  destruct (scale2 num den k) as [a c] eqn:Hs. unfold scale2 in Hs.
  destruct (scale_Q 2 2%Q num den k a c ltac:(lia) ltac:(reflexivity) Hden Hs) as [Hc Hv].
  rewrite <- Hv. apply Zdiv_Q. exact Hc.
Qed.

Lemma Qle_concrete (a b : Q) : Qle_bool a b = true -> (a <= b)%Q.
Proof. apply Qle_bool_iff. Qed.

(** a decimal of at most six digits with an exponent between -300 and 300
    is a number of the normal range: its binary digits *)
Lemma decimal_bits (M E L : Z) :
  1 <= M < 1000000 -> - 300 <= E <= 300 ->
  (1 <= inject_Z M * 10 ^ E * 2 ^ (1 - L))%Q ->
  (inject_Z M * 10 ^ E * 2 ^ (1 - L) < 2)%Q ->
  - 1000 <= L <= 1020.
Proof.
  intros HM HE H1 H2.
  assert (HM1 : (1 <= inject_Z M)%Q) by (change 1%Q with (inject_Z 1); rewrite <- Zle_Qle; lia).
  assert (HM2 : (inject_Z M <= 1000000)%Q)
    by (change 1000000%Q with (inject_Z 1000000); rewrite <- Zle_Qle; lia).
  assert (Hlo : (10 ^ (- 300) <= 10 ^ E)%Q) by (apply Qpower_le_compat_l; [lia | lra]).
  assert (Hhi : (10 ^ E <= 10 ^ 300)%Q) by (apply Qpower_le_compat_l; [lia | lra]).
  pose proof (Qpower10_pos E) as HpE. pose proof (Qpower2_pos (1 - L)) as HpL.
  set (d := (10 ^ E)%Q) in *. set (t := (2 ^ (1 - L))%Q) in *.
  split.
  - destruct (Z.le_gt_cases (- 1000) L) as [|Hlt]; [assumption|exfalso].
    assert (Ht : (2 ^ 1001 <= t)%Q) by (apply Qpower_le_compat_l; [lia | lra]).
    assert (Hc : (2 <= 10 ^ (- 300) * 2 ^ 1001)%Q) by (apply Qle_concrete; vm_compute; reflexivity).
    set (c1 := (10 ^ (- 300))%Q) in *. set (c2 := (2 ^ 1001)%Q) in *.
    assert (0 < c1)%Q by apply Qpower10_pos.
    assert (0 < c2)%Q by apply Qpower2_pos.
    assert (c1 * c2 <= d * t)%Q by (apply Qmult_le_compat_nonneg; split; lra).
    assert (d * t <= inject_Z M * d * t)%Q by nra.
    lra.
  - destruct (Z.le_gt_cases L 1020) as [|Hlt]; [assumption|exfalso].
    assert (Ht : (t <= 2 ^ (- 1020))%Q) by (apply Qpower_le_compat_l; [lia | lra]).
    assert (Hc : (1000000 * 10 ^ 300 * 2 ^ (- 1020) <= 1 # 2)%Q)
      by (apply Qle_concrete; vm_compute; reflexivity).
    set (c1 := (10 ^ 300)%Q) in *. set (c2 := (2 ^ (- 1020))%Q) in *.
    assert (0 < c1)%Q by apply Qpower10_pos.
    assert (0 < c2)%Q by apply Qpower2_pos.
    assert (d * t <= c1 * c2)%Q by (apply Qmult_le_compat_nonneg; split; lra).
    assert (inject_Z M * (d * t) <= 1000000 * (c1 * c2))%Q
      by (apply Qmult_le_compat_nonneg; split; nra).
    lra.
Qed.

(** the double read from a decimal of at most six digits is a normal
    number within one part in 2^53 of the decimal *)
Lemma of_decimal_value (neg : bool) (M E : Z) :
  1 <= M < 1000000 -> - 300 <= E <= 300 ->
  exists (m : positive) (e : Z),
    Numeral.of_decimal neg M E = S754_finite neg m e
    /\ (inject_Z M * 10 ^ E - inject_Z M * 10 ^ E * (1 # 9007199254740992)
        <= inject_Z (Z.pos m) * 2 ^ e)%Q
    /\ (inject_Z (Z.pos m) * 2 ^ e
        <= inject_Z M * 10 ^ E + inject_Z M * 10 ^ E * (1 # 9007199254740992))%Q.
Proof.
  intros HM HE.
  destruct (Numeral.ratio 10 M E) as [num den] eqn:Hr.
  destruct (ratio10_Q M E num den Hr) as [Hden Hd].
  destruct (of_decimal_char neg M E num den ltac:(lia) Hr) as (L & HL & ->).
  destruct (floor_scaled_Q num den (1 - L) Hden) as (Hl1 & Hl2 & _).
  rewrite HL, Hd in Hl1, Hl2.
  pose proof (decimal_bits M E L HM HE Hl1 Hl2) as HLb.
  replace (Z.max (L - 53) (- 1074)) with (L - 53) by lia.
  set (T := L - 53).
  pose proof (bits_halves num den L Hden HL) as Hh. fold T in Hh.
  destruct (floor_scaled_Q num den (1 - T) Hden) as (Hf1 & Hf2 & Hf3).
  rewrite Hd in Hf1, Hf2, Hf3.
  set (h := floor_scaled num den (1 - T)) in *.
  set (s := negb (exact_scaled num den (1 - T))).
  destruct (round_finish_normal neg T h s Hh ltac:(lia))
    as (m & e & r & -> & He & Hm & Hr1 & Hr2 & _).
  exists m, e. split; [reflexivity|].
  assert (Hex : 2 * r = h - 1 -> (inject_Z M * 10 ^ E * 2 ^ (1 - T) == inject_Z h)%Q).
  { intros H. apply Hf3. specialize (Hr2 H). unfold s in Hr2.
    apply negb_false_iff in Hr2. exact Hr2. }
  assert (HV : (inject_Z (Z.pos m) * 2 ^ e == inject_Z (2 * r) * 2 ^ (T - 1))%Q).
  { rewrite inject_Z_mult. change (inject_Z 2) with 2%Q.
    assert (H2T : (2 ^ T == 2 * 2 ^ (T - 1))%Q).
    { replace T with (1 + (T - 1)) at 1 by lia. rewrite Qpower2_add. reflexivity. }
    destruct He as [-> | ->].
    - rewrite Z.sub_diag in Hm. change (2 ^ 0) with 1 in Hm. rewrite Z.mul_1_r in Hm.
      rewrite Hm, H2T. ring.
    - replace (T + 1 - T) with 1 in Hm by lia. change (2 ^ 1) with 2 in Hm.
      rewrite <- Hm, inject_Z_mult. change (inject_Z 2) with 2%Q.
      rewrite (Z.add_comm T 1), Qpower2_add, H2T. change (2 ^ 1)%Q with 2%Q. ring. }
  rewrite HV.
  assert (Hh53 : (9007199254740992 <= inject_Z h)%Q).
  { change 9007199254740992%Q with (inject_Z (2 ^ 53)). rewrite <- Zle_Qle. lia. }
  pose proof (Qpower2_inv (1 - T)) as Hinv.
  replace (- (1 - T)) with (T - 1) in Hinv by lia.
  pose proof (Qpower2_pos (T - 1)) as Htpos.
  pose proof (Qpower2_pos (1 - T)) as Hupos.
  set (d := (inject_Z M * 10 ^ E)%Q) in *.
  set (t := (2 ^ (T - 1))%Q) in *. set (u := (2 ^ (1 - T))%Q) in *.
  assert (Hdt : (d == d * u * t)%Q).
  { transitivity (d * (u * t))%Q; [rewrite Hinv; ring | ring]. }
  set (x := (d * u)%Q) in *.
  assert (Hr3 : (inject_Z h - 1 <= inject_Z (2 * r) <= inject_Z h + 1)%Q).
  { change 1%Q with (inject_Z 1). rewrite <- inject_Z_plus.
    unfold Qminus. rewrite <- inject_Z_opp, <- inject_Z_plus, <- !Zle_Qle. lia. }
  assert (Hnear : (x - 1 <= inject_Z (2 * r) <= x + 1)%Q).
  { destruct (Z.eq_dec (2 * r) (h - 1)) as [Hcase|Hcase].
    - specialize (Hex Hcase). fold d in Hex. fold u in Hex. fold x in Hex.
      rewrite Hex. lra.
    - assert (Hge : (inject_Z h <= inject_Z (2 * r))%Q) by (rewrite <- Zle_Qle; lia).
      lra. }
  assert (Hx53 : (9007199254740992 <= x)%Q) by lra.
  set (y := inject_Z (2 * r)) in *.
  assert (Heps : (t <= x * t * (1 # 9007199254740992))%Q).
  { assert (t * 9007199254740992 <= t * x)%Q by (apply Qmult_le_l; lra).
    lra. }
  assert (Hy1 : ((x - 1) * t <= y * t)%Q) by (apply Qmult_le_compat_r; lra).
  assert (Hy2 : (y * t <= (x + 1) * t)%Q) by (apply Qmult_le_compat_r; lra).
  rewrite Hdt. split; lra.
Qed.

(** ** Printing with six digits *)

Lemma Qdiv_bounds (n d : Z) (lo hi : Q) :
  0 < d ->
  (lo <= inject_Z n / inject_Z d)%Q -> (inject_Z n / inject_Z d <= hi)%Q ->
  (lo * inject_Z d <= inject_Z n)%Q /\ (inject_Z n <= hi * inject_Z d)%Q.
Proof.
  intros Hd H1 H2. pose proof (inject_Z_pos d Hd) as HD.
  assert (He : (inject_Z n == inject_Z n / inject_Z d * inject_Z d)%Q) by (field; lra).
  split.
  - rewrite He. apply Qmult_le_compat_r; lra.
  - rewrite He. apply Qmult_le_compat_r; lra.
Qed.

(** a fraction less than a half from [m] is rounded to [m] *)
Lemma div_nearest_even_near (n d m : Z) :
  0 < d ->
  (inject_Z m - (1 # 4) <= inject_Z n / inject_Z d)%Q ->
  (inject_Z n / inject_Z d <= inject_Z m + (1 # 4))%Q ->
  Numeral.div_nearest_even n d = m.
Proof.
  intros Hd H1 H2.
  destruct (Qdiv_bounds n d _ _ Hd H1 H2) as [Hlo Hhi].
  pose proof (inject_Z_pos d Hd) as HD.
  assert (Hz1 : 4 * m * d - d <= 4 * n).
  { rewrite Zle_Qle. unfold Z.sub. rewrite inject_Z_plus, inject_Z_opp, !inject_Z_mult.
    change (inject_Z 4) with 4%Q. lra. }
  assert (Hz2 : 4 * n <= 4 * m * d + d).
  { rewrite Zle_Qle. rewrite inject_Z_plus, !inject_Z_mult.
    change (inject_Z 4) with 4%Q. lra. }
  unfold Numeral.div_nearest_even.
  pose proof (Z.div_mod n d ltac:(lia)) as Hdm.
  pose proof (Z.mod_pos_bound n d Hd) as Hmb.
  set (q := n / d) in *. set (r := n mod d) in *.
  assert (Hmono : forall a b : Z, a <= b -> d * a <= d * b)
    by (intros a b Hab; apply Z.mul_le_mono_nonneg_l; lia).
  destruct (Z.compare_spec (2 * r) d) as [Hc|Hc|Hc].
  - exfalso. destruct (Z.le_gt_cases m q) as [Hmq|Hmq].
    + pose proof (Hmono m q Hmq). lia.
    + pose proof (Hmono (q + 1) m ltac:(lia)). lia.
  - destruct (Z.lt_trichotomy q m) as [Hlt|[Heq|Hgt]]; [exfalso | exact Heq | exfalso].
    + pose proof (Hmono (q + 1) m ltac:(lia)). lia.
    + pose proof (Hmono (m + 1) q ltac:(lia)). lia.
  - destruct (Z.lt_trichotomy (q + 1) m) as [Hlt|[Heq|Hgt]]; [exfalso | exact Heq | exfalso].
    + pose proof (Hmono (q + 2) m ltac:(lia)). lia.
    + pose proof (Hmono m q ltac:(lia)). lia.
Qed.

(** the decimal exponent of a fraction *)
Lemma decimal_exponent_spec (num den : Z) :
  1 <= num -> 1 <= den ->
  (10 ^ Numeral.decimal_exponent num den <= inject_Z num / inject_Z den)%Q
  /\ (inject_Z num / inject_Z den < 10 ^ (Numeral.decimal_exponent num den + 1))%Q.
Proof.
  intros Hn Hd.
  pose proof (length_digits num Hn) as Hln. pose proof (length_digits den Hd) as Hld.
  unfold Numeral.decimal_exponent.
  set (Ln := Z.of_nat (String.length (Numeral.digits num))) in *.
  set (Ld := Z.of_nat (String.length (Numeral.digits den))) in *.
  assert (HLn : 1 <= Ln).
  { destruct (Z.le_gt_cases 1 Ln); [assumption|].
    assert (Ln = 0) as H0 by lia. rewrite H0 in Hln. change (10 ^ 0) with 1 in Hln. lia. }
  assert (HLd : 1 <= Ld).
  { destruct (Z.le_gt_cases 1 Ld); [assumption|].
    assert (Ld = 0) as H0 by lia. rewrite H0 in Hld. change (10 ^ 0) with 1 in Hld. lia. }
  set (x0 := Ln - Ld).
  destruct (Numeral.scale10 num den (- x0)) as [n d] eqn:Hs. unfold Numeral.scale10 in Hs.
  destruct (scale_Q 10 10%Q num den (- x0) n d ltac:(lia) ltac:(reflexivity) ltac:(lia) Hs)
    as [Hdpos Hv].
  pose proof (inject_Z_pos den ltac:(lia)) as HD.
  pose proof (inject_Z_pos d Hdpos) as HD'.
  (* the bounds of the two numbers, as rational numbers *)
  assert (Hn1 : (10 ^ (Ln - 1) <= inject_Z num)%Q)
    by (rewrite <- Qpower_Z10 by lia; rewrite <- Zle_Qle; lia).
  assert (Hn2 : (inject_Z num < 10 ^ Ln)%Q)
    by (rewrite <- Qpower_Z10 by lia; rewrite <- Zlt_Qlt; lia).
  assert (Hd1 : (10 ^ (Ld - 1) <= inject_Z den)%Q)
    by (rewrite <- Qpower_Z10 by lia; rewrite <- Zle_Qle; lia).
  assert (Hd2 : (inject_Z den < 10 ^ Ld)%Q)
    by (rewrite <- Qpower_Z10 by lia; rewrite <- Zlt_Qlt; lia).
  set (V := (inject_Z num / inject_Z den)%Q) in *.
  assert (HVn : (inject_Z num == V * inject_Z den)%Q) by (unfold V; field; lra).
  pose proof (Qpower10_inv x0) as Hinv.
  pose proof (Qpower10_pos x0) as Hp0. pose proof (Qpower10_pos (- x0)) as Hp0'.
  destruct (Z.leb_spec d n) as [Hle|Hgt].
  - split.
    + (* 1 <= V * 10^(-x0) *)
      assert (H1 : (1 <= inject_Z n / inject_Z d)%Q).
      { apply Qle_shift_div_l; [exact HD'|]. rewrite Qmult_1_l, <- Zle_Qle. exact Hle. }
      rewrite Hv in H1.
      assert (H2 : (1 * 10 ^ x0 <= V * 10 ^ (- x0) * 10 ^ x0)%Q)
        by (apply Qmult_le_compat_r; lra).
      assert (H3 : (V * 10 ^ (- x0) * 10 ^ x0 == V)%Q).
      { transitivity (V * (10 ^ x0 * 10 ^ (- x0)))%Q; [ring | rewrite Hinv; ring]. }
      lra.
    + (* V < 10^Ln / 10^(Ld-1) *)
      assert (He : (10 ^ (x0 + 1) * 10 ^ (Ld - 1) == 10 ^ Ln)%Q).
      { rewrite <- Qpower10_add. replace (x0 + 1 + (Ld - 1)) with Ln by (unfold x0; lia).
        reflexivity. }
      pose proof (Qpower10_pos (x0 + 1)) as Hq1. pose proof (Qpower10_pos (Ld - 1)) as Hq2.
      set (a := (10 ^ (x0 + 1))%Q) in *. set (b := (10 ^ (Ld - 1))%Q) in *.
      destruct (Qlt_le_dec V a) as [|Hge]; [assumption|exfalso].
      assert (a * b <= V * inject_Z den)%Q by (apply Qmult_le_compat_nonneg; split; lra).
      lra.
  - split.
    + assert (He : (10 ^ (x0 - 1) * 10 ^ Ld == 10 ^ (Ln - 1))%Q).
      { rewrite <- Qpower10_add. replace (x0 - 1 + Ld) with (Ln - 1) by (unfold x0; lia).
        reflexivity. }
      pose proof (Qpower10_pos (x0 - 1)) as Hq1. pose proof (Qpower10_pos Ld) as Hq2.
      set (a := (10 ^ (x0 - 1))%Q) in *. set (b := (10 ^ Ld)%Q) in *.
      destruct (Qlt_le_dec V a) as [Hlt|]; [exfalso|assumption].
      assert (V * inject_Z den <= a * b)%Q.
      { apply Qmult_le_compat_nonneg; split; try lra.
        unfold V. apply Qle_shift_div_l; [exact HD|].
        rewrite Qmult_0_l. change 0%Q with (inject_Z 0). rewrite <- Zle_Qle. lia. }
      assert (V * inject_Z den < a * inject_Z den)%Q by (apply Qmult_lt_compat_r; lra).
      assert (a * inject_Z den <= a * b)%Q by (apply Qmult_le_l; lra).
      lra.
    + replace (x0 - 1 + 1) with x0 by lia.
      assert (H1 : (inject_Z n / inject_Z d < 1)%Q).
      { apply Qlt_shift_div_r; [exact HD'|]. rewrite Qmult_1_l, <- Zlt_Qlt. exact Hgt. }
      rewrite Hv in H1.
      assert (H2 : (V * 10 ^ (- x0) * 10 ^ x0 < 1 * 10 ^ x0)%Q)
        by (apply Qmult_lt_compat_r; lra).
      assert (H3 : (V * 10 ^ (- x0) * 10 ^ x0 == V)%Q).
      { transitivity (V * (10 ^ x0 * 10 ^ (- x0)))%Q; [ring | rewrite Hinv; ring]. }
      lra.
Qed.

(** a fraction within one part in 2^53 of a decimal of six digits is
    printed as that decimal *)
Lemma format_g6_near (vn vd M6 X5 : Z) :
  1 <= vn -> 1 <= vd -> 100000 <= M6 < 1000000 ->
  (inject_Z M6 * 10 ^ X5 - inject_Z M6 * 10 ^ X5 * (1 # 9007199254740992)
   <= inject_Z vn / inject_Z vd)%Q ->
  (inject_Z vn / inject_Z vd
   <= inject_Z M6 * 10 ^ X5 + inject_Z M6 * 10 ^ X5 * (1 # 9007199254740992))%Q ->
  Numeral.format_g6 vn vd = g6_text M6 (X5 + 5).
Proof.
  intros Hvn Hvd HM Hlo Hhi.
  destruct (decimal_exponent_spec vn vd Hvn Hvd) as [Hx1 Hx2].
  unfold Numeral.format_g6.
  set (x := Numeral.decimal_exponent vn vd) in *.
  assert (HM1 : (100000 <= inject_Z M6)%Q)
    by (change 100000%Q with (inject_Z 100000); rewrite <- Zle_Qle; lia).
  assert (HM2 : (inject_Z M6 <= 999999)%Q)
    by (change 999999%Q with (inject_Z 999999); rewrite <- Zle_Qle; lia).
  pose proof (Qpower10_pos X5) as Hp.
  pose proof (Qpower10_pos (- X5)) as Hq.
  pose proof (Qpower10_inv X5) as Hpq.
  assert (H6 : (10 ^ (X5 + 6) == 10 ^ X5 * 1000000)%Q) by (rewrite Qpower10_add; reflexivity).
  assert (H5 : (10 ^ (X5 + 5) == 10 ^ X5 * 100000)%Q) by (rewrite Qpower10_add; reflexivity).
  assert (H4 : (10 ^ (X5 + 4) == 10 ^ X5 * 10000)%Q) by (rewrite Qpower10_add; reflexivity).
  assert (Hq1 : (10 ^ (1 - X5) == 10 * 10 ^ (- X5))%Q)
    by (replace (1 - X5) with (1 + - X5) by lia; rewrite Qpower10_add; reflexivity).
  set (V := (inject_Z vn / inject_Z vd)%Q) in *.
  set (p := (10 ^ X5)%Q) in *. set (q := (10 ^ (- X5))%Q) in *.
  assert (Hd1 : (100000 * p <= inject_Z M6 * p)%Q) by (apply Qmult_le_compat_r; lra).
  assert (Hd2 : (inject_Z M6 * p <= 999999 * p)%Q) by (apply Qmult_le_compat_r; lra).
  (* the decimal exponent is that of the decimal, or one less *)
  assert (Hxr : X5 + 4 <= x <= X5 + 5).
  { split.
    - assert (Hlt : (10 ^ (X5 + 4) < 10 ^ (x + 1))%Q) by (rewrite H4; lra).
      apply Qpower_lt_compat_l_inv in Hlt; [lia | lra].
    - assert (Hlt : (10 ^ x < 10 ^ (X5 + 6))%Q) by (rewrite H6; lra).
      apply Qpower_lt_compat_l_inv in Hlt; [lia | lra]. }
  (* the fraction in units of the last digit of the decimal *)
  assert (HVq1 : (inject_Z M6 - inject_Z M6 * (1 # 9007199254740992) <= V * q)%Q).
  { assert (H : ((inject_Z M6 * p - inject_Z M6 * p * (1 # 9007199254740992)) * q
                 <= V * q)%Q) by (apply Qmult_le_compat_r; lra).
    assert (He : ((inject_Z M6 * p - inject_Z M6 * p * (1 # 9007199254740992)) * q
                  == (inject_Z M6 - inject_Z M6 * (1 # 9007199254740992)) * (p * q))%Q)
      by ring.
    rewrite He, Hpq in H. lra. }
  assert (HVq2 : (V * q <= inject_Z M6 + inject_Z M6 * (1 # 9007199254740992))%Q).
  { assert (H : (V * q
                 <= (inject_Z M6 * p + inject_Z M6 * p * (1 # 9007199254740992)) * q)%Q)
      by (apply Qmult_le_compat_r; lra).
    assert (He : ((inject_Z M6 * p + inject_Z M6 * p * (1 # 9007199254740992)) * q
                  == (inject_Z M6 + inject_Z M6 * (1 # 9007199254740992)) * (p * q))%Q)
      by ring.
    rewrite He, Hpq in H. lra. }
  destruct (Numeral.scale10 vn vd (5 - x)) as [n d] eqn:Hs.
  pose proof Hs as Hs'. unfold Numeral.scale10 in Hs'.
  destruct (scale_Q 10 10%Q vn vd (5 - x) n d ltac:(lia) ltac:(reflexivity) ltac:(lia) Hs')
    as [Hdpos Hv].
  fold V in Hv.
  destruct (Z.eq_dec x (X5 + 5)) as [Hx|Hx].
  - replace (5 - x) with (- X5) in Hv by lia. fold q in Hv.
    assert (Hdiv : Numeral.div_nearest_even n d = M6).
    { apply div_nearest_even_near; [exact Hdpos | rewrite Hv; lra | rewrite Hv; lra]. }
    rewrite Hdiv. destruct (Z.leb_spec 1000000 M6); [lia|].
    rewrite Hx. reflexivity.
  - assert (Hx' : x = X5 + 4) by lia.
    replace (5 - x) with (1 - X5) in Hv by lia. rewrite Hq1 in Hv. fold q in Hv.
    assert (HVlt : (V * q < 100000)%Q).
    { rewrite Hx' in Hx2. replace (X5 + 4 + 1) with (X5 + 5) in Hx2 by lia.
      rewrite H5 in Hx2. fold p in Hx2.
      assert (H : (V * q < p * 100000 * q)%Q) by (apply Qmult_lt_compat_r; lra).
      assert (He : (p * 100000 * q == 100000 * (p * q))%Q) by ring.
      rewrite He, Hpq in H. lra. }
    assert (HM6 : M6 = 100000).
    { destruct (Z.eq_dec M6 100000) as [|Hne]; [assumption|exfalso].
      assert (H : (100001 <= inject_Z M6)%Q)
        by (change 100001%Q with (inject_Z 100001); rewrite <- Zle_Qle; lia).
      lra. }
    assert (Hdiv : Numeral.div_nearest_even n d = 1000000).
    { apply div_nearest_even_near; [exact Hdpos | rewrite Hv | rewrite Hv].
      - change (inject_Z 1000000) with 1000000%Q. lra.
      - change (inject_Z 1000000) with 1000000%Q. lra. }
    rewrite Hdiv. cbn [Z.leb Z.compare Pos.compare Pos.compare_cont].
    rewrite Hx', HM6. replace (X5 + 4 + 1) with (X5 + 5) by lia. reflexivity.
Qed.

(** ** Reading the printed text *)

(** what the reading of a text looks at in the character of a digit *)
Lemma digit_char_reads (a : Z) :
  0 <= a < 10 ->
  Numeral.is_digit (Numeral.digit_char a) = true
  /\ Numeral.digit_value (Numeral.digit_char a) = a
  /\ (a <> 0 -> Ascii.eqb (Numeral.digit_char a) "0" = false)
  /\ (a = 0 -> Numeral.digit_char a = "0"%char)
  /\ Numeral.is_space (Numeral.digit_char a) = false
  /\ Ascii.eqb (Numeral.digit_char a) "-" = false
  /\ Ascii.eqb (Numeral.digit_char a) "+" = false
  /\ Ascii.eqb (tolower (Numeral.digit_char a)) "i" = false
  /\ Ascii.eqb (tolower (Numeral.digit_char a)) "n" = false.
Proof.
  intros H.
  assert (Hd : a = 0 \/ a = 1 \/ a = 2 \/ a = 3 \/ a = 4 \/ a = 5 \/ a = 6
               \/ a = 7 \/ a = 8 \/ a = 9) by lia.
  repeat (destruct Hd as [-> | Hd];
          [repeat split; try reflexivity; intros; try reflexivity; lia|]).
  subst a. repeat split; try reflexivity; intros; try reflexivity; lia.
Qed.

(** the six digits of a number between 100000 and 999999 *)
Lemma digits_six (m : Z) :
  100000 <= m < 1000000 ->
  exists a1 a2 a3 a4 a5 a6 : Z,
    (1 <= a1 < 10 /\ 0 <= a2 < 10 /\ 0 <= a3 < 10 /\ 0 <= a4 < 10
     /\ 0 <= a5 < 10 /\ 0 <= a6 < 10)
    /\ m = 100000 * a1 + 10000 * a2 + 1000 * a3 + 100 * a4 + 10 * a5 + a6
    /\ Numeral.digits m
       = String (Numeral.digit_char a1) (String (Numeral.digit_char a2)
           (String (Numeral.digit_char a3) (String (Numeral.digit_char a4)
              (String (Numeral.digit_char a5) (String (Numeral.digit_char a6) ""))))).
Proof.
  intros Hm.
  exists (m / 100000), (m / 10000 mod 10), (m / 1000 mod 10), (m / 100 mod 10),
    (m / 10 mod 10), (m mod 10).
  split; [|split].
  - pose proof (Z.div_mod m 100000 ltac:(lia)).
    pose proof (Z.mod_pos_bound m 100000 ltac:(lia)).
    repeat split; try (apply Z.mod_pos_bound; lia); lia.
  - assert (E1 : m / 10 / 10 = m / 100) by (rewrite Z.div_div by lia; reflexivity).
    assert (E2 : m / 100 / 10 = m / 1000) by (rewrite Z.div_div by lia; reflexivity).
    assert (E3 : m / 1000 / 10 = m / 10000) by (rewrite Z.div_div by lia; reflexivity).
    assert (E4 : m / 10000 / 10 = m / 100000) by (rewrite Z.div_div by lia; reflexivity).
    pose proof (Z.div_mod m 10 ltac:(lia)) as D1.
    pose proof (Z.div_mod (m / 10) 10 ltac:(lia)) as D2.
    pose proof (Z.div_mod (m / 100) 10 ltac:(lia)) as D3.
    pose proof (Z.div_mod (m / 1000) 10 ltac:(lia)) as D4.
    pose proof (Z.div_mod (m / 10000) 10 ltac:(lia)) as D5.
    rewrite E1 in D2. rewrite E2 in D3. rewrite E3 in D4. rewrite E4 in D5.
    lia.
  - assert (H1 : 10 <= m / 10000) by (apply Z.div_le_lower_bound; lia).
    assert (H2 : 10 <= m / 1000) by (apply Z.div_le_lower_bound; lia).
    assert (H3 : 10 <= m / 100) by (apply Z.div_le_lower_bound; lia).
    assert (H4 : 10 <= m / 10) by (apply Z.div_le_lower_bound; lia).
    assert (H5 : 0 <= m / 100000 < 10).
    { split; [apply Z.div_pos; lia | apply Z.div_lt_upper_bound; lia]. }
    rewrite (digits_step m) by lia.
    rewrite (digits_step (m / 10)) by lia.
    rewrite Z.div_div by lia. change (10 * 10) with 100.
    rewrite (digits_step (m / 100)) by lia.
    rewrite Z.div_div by lia. change (100 * 10) with 1000.
    rewrite (digits_step (m / 1000)) by lia.
    rewrite Z.div_div by lia. change (1000 * 10) with 10000.
    rewrite (digits_step (m / 10000)) by lia.
    rewrite Z.div_div by lia. change (10000 * 10) with 100000.
    rewrite (digits_small (m / 100000)) by lia.
    reflexivity.
Qed.

Lemma read_digits_step (c : ascii) (a : Z) (rest : string) (acc : Z) :
  Numeral.is_digit c = true -> Numeral.digit_value c = a ->
  Numeral.read_digits (String c rest) acc
  = Numeral.more_digits 1 (Numeral.read_digits rest (10 * acc + a)).
Proof.
  intros Hd Hv. simpl. rewrite Hd, Hv.
  destruct (Numeral.read_digits rest (10 * acc + a)) as [[v n] r]. reflexivity.
Qed.

Lemma read_digits_stop (c : ascii) (rest : string) (acc : Z) :
  Numeral.is_digit c = false ->
  Numeral.read_digits (String c rest) acc = (acc, O, String c rest).
Proof. intros Hd. simpl. rewrite Hd. reflexivity. Qed.

(** the exponent part reads as the exponent *)
Lemma exponent_text_reads (x : Z) :
  exists tail : string,
    Numeral.exponent_text x = String "e" tail
    /\ Numeral.read_exponent (String "e" tail) = (x, "").
Proof.
  unfold Numeral.exponent_text.
  destruct (read_digits_digits (Z.abs x) ltac:(lia)) as [p Hp].
  set (ds := Numeral.digits (Z.abs x)) in *.
  assert (Hpad : exists q : nat,
             Numeral.read_digits ((if Z.abs x <? 10 then "0" else "") +:+ ds) 0
             = (Z.abs x, S q, "")).
  { destruct (Z.abs x <? 10).
    - exists (S p). change ("0" +:+ ds) with (String "0" ds).
      rewrite (read_digits_step "0" 0) by reflexivity.
      change (10 * 0 + 0) with 0. rewrite Hp. reflexivity.
    - exists p. exact Hp. }
  destruct Hpad as [q Hq].
  destruct (Z.ltb_spec x 0).
  - exists (String "-" ((if Z.abs x <? 10 then "0" else "") +:+ ds)).
    split; [reflexivity|].
    unfold Numeral.read_exponent. cbn [Ascii.eqb Bool.eqb orb Numeral.read_sign].
    rewrite Hq. f_equal. lia.
  - exists (String "+" ((if Z.abs x <? 10 then "0" else "") +:+ ds)).
    split; [reflexivity|].
    unfold Numeral.read_exponent. cbn [Ascii.eqb Bool.eqb orb Numeral.read_sign].
    rewrite Hq. f_equal. lia.
Qed.

Lemma read_digits_nil (acc : Z) : Numeral.read_digits "" acc = (acc, O, "").
Proof. reflexivity. Qed.

Lemma append_nil_l (s : string) : "" +:+ s = s.
Proof. reflexivity. Qed.

(** a text that starts as a number does and is a decimal constant reads
    as that decimal, with either sign *)
Lemma toDouble_led (c : ascii) (rest : string) (M E : Z) :
  Numeral.is_space c = false
  /\ Ascii.eqb c "-" = false /\ Ascii.eqb c "+" = false
  /\ Ascii.eqb (tolower c) "i" = false /\ Ascii.eqb (tolower c) "n" = false ->
  Numeral.read_decimal (String c rest) = Some (M, E, "") ->
  forall neg : bool,
    Numeral.toDouble ((if neg then "-" else "") +:+ String c rest)
    = Numeral.of_decimal neg M E.
Proof.
  intros (Hsp & Hminus & Hplus & Hi & Hn) Hdec neg.
  set (s := String c rest) in *.
  assert (Hskip : Numeral.skip_space s = s) by (unfold s; simpl; rewrite Hsp; reflexivity).
  assert (Hsign : Numeral.read_sign s = (false, s))
    by (unfold s; simpl; rewrite Hminus, Hplus; reflexivity).
  assert (Hinf : String.eqb (transform_tolower s) "inf" = false)
    by (unfold s; simpl; rewrite Hi; reflexivity).
  assert (Hnan : String.eqb (transform_tolower s) "nan" = false)
    by (unfold s; simpl; rewrite Hn; reflexivity).
  destruct neg.
  - unfold Numeral.toDouble.
    change (Numeral.skip_space ("-" +:+ s)) with ("-" +:+ s).
    change (Numeral.read_sign ("-" +:+ s)) with (true, s). cbv beta iota zeta.
    rewrite Hinf.
    change (String.eqb (transform_tolower ("-" +:+ s)) "nan") with false. cbv iota.
    rewrite Hdec. reflexivity.
  - rewrite append_nil_l.
    unfold Numeral.toDouble. rewrite Hskip, Hsign. cbv beta iota zeta.
    rewrite Hinf, Hnan, Hdec. reflexivity.
Qed.

Ltac read_all_digits :=
  repeat match goal with
    | Hd : Numeral.is_digit ?c = true, Hv : Numeral.digit_value ?c = ?a
      |- context [Numeral.read_digits (String ?c ?r) ?acc] =>
        rewrite (read_digits_step c a r acc Hd Hv)
    end.

Ltac split_zero :=
  match goal with
  | Hn : ?a <> 0 -> Ascii.eqb ?c "0" = false, Hz : ?a = 0 -> ?c = "0"%char
    |- context [Ascii.eqb ?c "0"] =>
      let Zq := fresh "Zq" in
      let Nq := fresh "Nq" in
      destruct (Z.eq_dec a 0) as [Zq|Nq];
      [ try (exfalso; lia); rewrite (Hz Zq); clear Hn Hz
      | rewrite (Hn Nq); clear Hn Hz ]; cbn
  end.

Ltac eval_read :=
  unfold Numeral.read_decimal;
  repeat first
    [ progress read_all_digits
    | rewrite append_cons
    | rewrite append_nil_l
    | rewrite read_digits_nil
    | rewrite read_digits_stop by reflexivity
    | match goal with
      | H : Numeral.read_exponent ?s = _ |- context [Numeral.read_exponent ?s] => rewrite H
      end
    | progress cbn -[Numeral.read_digits Numeral.read_exponent Z.add Z.mul Z.sub Z.of_nat] ].

Ltac finish_with k :=
  exists k; split; [lia|]; split;
  [ let p := eval vm_compute in (10 ^ k) in change (10 ^ k) with p; lia | lia ].

Ltac finish_pad :=
  split; [lia|];
  first [ finish_with 0 | finish_with 1 | finish_with 2 | finish_with 3
        | finish_with 4 | finish_with 5 ].

Ltac read_case :=
  rewrite ?append_cons, ?append_nil_l;
  do 2 eexists; split;
  [ do 2 eexists; split; [reflexivity|]; repeat split; first [assumption | reflexivity]
  | split; [eval_read; reflexivity | finish_pad] ].

Ltac read_text := cbn; repeat split_zero; read_case.

(** the text of six digits is a decimal constant of the same value *)
Lemma read_g6_text (M6 X : Z) :
  100000 <= M6 < 1000000 ->
  exists M2 E2 : Z,
    (exists (c : ascii) (rest : string),
        g6_text M6 X = String c rest
        /\ Numeral.is_space c = false
        /\ Ascii.eqb c "-" = false /\ Ascii.eqb c "+" = false
        /\ Ascii.eqb (tolower c) "i" = false /\ Ascii.eqb (tolower c) "n" = false)
    /\ Numeral.read_decimal (g6_text M6 X) = Some (M2, E2, "")
    /\ 1 <= M2
    /\ exists j : Z, 0 <= j /\ M6 = M2 * 10 ^ j /\ E2 - j = X - 5.
Proof.
  intros HM.
  destruct (digits_six M6 HM) as (a1 & a2 & a3 & a4 & a5 & a6 & Hr & Hval & Hds).
  destruct Hr as (R1 & R2 & R3 & R4 & R5 & R6).
  destruct (digit_char_reads a1 ltac:(lia))
    as (Hd1 & Hv1 & Hn1 & Hz1 & Hsp & Hminus & Hplus & Hi & Hn).
  destruct (digit_char_reads a2 ltac:(lia)) as (Hd2 & Hv2 & Hn2 & Hz2 & _).
  destruct (digit_char_reads a3 ltac:(lia)) as (Hd3 & Hv3 & Hn3 & Hz3 & _).
  destruct (digit_char_reads a4 ltac:(lia)) as (Hd4 & Hv4 & Hn4 & Hz4 & _).
  destruct (digit_char_reads a5 ltac:(lia)) as (Hd5 & Hv5 & Hn5 & Hz5 & _).
  destruct (digit_char_reads a6 ltac:(lia)) as (Hd6 & Hv6 & Hn6 & Hz6 & _).
  assert (Hd0 : Numeral.is_digit "0" = true) by reflexivity.
  assert (Hv0 : Numeral.digit_value "0" = 0) by reflexivity.
  unfold g6_text. rewrite Hds. clear Hds.
  set (c1 := Numeral.digit_char a1) in *. set (c2 := Numeral.digit_char a2) in *.
  set (c3 := Numeral.digit_char a3) in *. set (c4 := Numeral.digit_char a4) in *.
  set (c5 := Numeral.digit_char a5) in *. set (c6 := Numeral.digit_char a6) in *.
  clearbody c1 c2 c3 c4 c5 c6.
  destruct (Z.ltb_spec X (- 4)) as [Hlow|Hlow];
    [|destruct (Z.leb_spec 6 X) as [Hhigh|Hhigh]].
  - (* with an exponent, below 0.0001 *)
    destruct (exponent_text_reads X) as (tail & -> & Hexp).
    cbn [orb]. read_text.
  - (* with an exponent, from 1000000 *)
    destruct (exponent_text_reads X) as (tail & -> & Hexp).
    cbn [orb]. read_text.
  - cbn [orb].
    assert (HX : X = - 4 \/ X = - 3 \/ X = - 2 \/ X = - 1 \/ X = 0 \/ X = 1 \/ X = 2
                 \/ X = 3 \/ X = 4 \/ X = 5) by lia.
    clear Hlow Hhigh.
    destruct HX as [-> | [-> | [-> | [-> | [-> | [-> | [-> | [-> | [-> | ->]]]]]]]]].
    + change (Z.to_nat (- -4 - 1)) with 3%nat. read_text.
    + change (Z.to_nat (- -3 - 1)) with 2%nat. read_text.
    + change (Z.to_nat (- -2 - 1)) with 1%nat. read_text.
    + change (Z.to_nat (- -1 - 1)) with 0%nat. read_text.
    + change (Z.to_nat (0 + 1)) with 1%nat. read_text.
    + change (Z.to_nat (1 + 1)) with 2%nat. read_text.
    + change (Z.to_nat (2 + 1)) with 3%nat. read_text.
    + change (Z.to_nat (3 + 1)) with 4%nat. read_text.
    + change (Z.to_nat (4 + 1)) with 5%nat. read_text.
    + change (Z.to_nat (5 + 1)) with 6%nat. read_text.
Qed.

(** ** Six digits survive *)

(** the digits of a decimal, filled up to six with zeros *)
Lemma six_digit_form (M E : Z) :
  1 <= M < 1000000 ->
  exists M6 X5 j : Z,
    100000 <= M6 < 1000000 /\ 0 <= j /\ M6 = M * 10 ^ j /\ X5 = E - j.
Proof.
  intros HM.
  assert (Hc : M < 10 \/ 10 <= M < 100 \/ 100 <= M < 1000 \/ 1000 <= M < 10000
               \/ 10000 <= M < 100000 \/ 100000 <= M) by lia.
  destruct Hc as [H|[H|[H|[H|[H|H]]]]].
  - exists (M * 10 ^ 5), (E - 5), 5. change (10 ^ 5) with 100000. lia.
  - exists (M * 10 ^ 4), (E - 4), 4. change (10 ^ 4) with 10000. lia.
  - exists (M * 10 ^ 3), (E - 3), 3. change (10 ^ 3) with 1000. lia.
  - exists (M * 10 ^ 2), (E - 2), 2. change (10 ^ 2) with 100. lia.
  - exists (M * 10 ^ 1), (E - 1), 1. change (10 ^ 1) with 10. lia.
  - exists (M * 10 ^ 0), (E - 0), 0. change (10 ^ 0) with 1. lia.
Qed.

(** the double of a decimal of at most six digits is printed and read back
    unchanged *)
Lemma decimal_survives (neg : bool) (M E : Z) :
  1 <= M < 1000000 -> - 300 <= E <= 300 ->
  Numeral.toDouble (Numeral.number_double (Numeral.of_decimal neg M E))
  = Numeral.of_decimal neg M E
  /\ size_positive (Numeral.number_double (Numeral.of_decimal neg M E)) = true.
Proof.
  intros HM HE.
  destruct (of_decimal_value neg M E HM HE) as (m & e & Hv & Hlo & Hhi).
  destruct (six_digit_form M E HM) as (M6 & X5 & j & HM6 & Hj & HMj & HX5).
  assert (Hd : (inject_Z M * 10 ^ E == inject_Z M6 * 10 ^ X5)%Q).
  { rewrite HMj, HX5, inject_Z_mult, Qpower_Z10 by exact Hj.
    replace E with (j + (E - j)) at 1 by lia. rewrite Qpower10_add. ring. }
  rewrite Hd in Hlo, Hhi.
  (* the fraction that is printed *)
  destruct (Numeral.ratio 2 (Z.pos m) e) as [vn vd] eqn:Hr.
  destruct (ratio2_Q (Z.pos m) e vn vd Hr) as [Hvd HV].
  assert (Hvn : 1 <= vn).
  { unfold Numeral.ratio in Hr. destruct (0 <=? e) eqn:He; injection Hr as <- <-; [|lia].
    apply Z.leb_le in He. pose proof (pow2_pos e He). nia. }
  assert (Hnum : Numeral.number_double (S754_finite neg m e)
                 = (if neg then "-" else "") +:+ Numeral.format_g6 vn vd).
  { unfold Numeral.number_double. unfold Numeral.ratio in Hr. rewrite Hr. reflexivity. }
  rewrite <- HV in Hlo, Hhi.
  rewrite (format_g6_near vn vd M6 X5 Hvn ltac:(lia) HM6 Hlo Hhi) in Hnum.
  destruct (read_g6_text M6 (X5 + 5) HM6)
    as (M2 & E2 & (c & rest & Htext & Hled) & Hread & HM2 & k & Hk & HMk & HEk).
  rewrite Htext in Hnum, Hread.
  rewrite Hv, Hnum. split.
  - rewrite (toDouble_led c rest M2 E2 Hled Hread neg).
    rewrite <- Hv.
    rewrite <- (of_decimal_pad neg M E j ltac:(lia) Hj).
    rewrite <- (of_decimal_pad neg M2 E2 k HM2 Hk).
    f_equal; lia.
  - destruct neg; reflexivity.
Qed.

(** a double of six digits is printed and read back unchanged *)
Lemma six_digits_survive (v : Double.t) :
  six_digits v ->
  Numeral.toDouble (Numeral.number_double v) = v
  /\ size_positive (Numeral.number_double v) = true.
Proof.
  intros [-> | [[neg ->] | (neg & M & E & HM & HE & ->)]].
  - split; reflexivity.
  - destruct neg; split; reflexivity.
  - destruct (Z.eq_dec M 0) as [->|HM0].
    + unfold Numeral.of_decimal. simpl Z.eqb. cbv iota.
      destruct neg; split; reflexivity.
    + apply decimal_survives; lia.
Qed.

Lemma reads_six_digits_survives (text : string) :
  reads_six_digits text -> double_survives Qt.model text.
Proof.
  intros Hr Hfilled.
  destruct (six_digits_survive _ (Hr Hfilled)) as [H1 H2].
  split; assumption.
Qed.

(** the plain text of a whole number of at most six digits reads so *)
Lemma number_int_reads_six_digits (n : Z) :
  - 999999 <= n <= 999999 -> reads_six_digits (Numeral.number_int n).
Proof.
  intros Hn _. right. right. exists (n <? 0), (Z.abs n), 0.
  split; [lia|]. split; [lia|].
  destruct (Z.eq_dec n 0) as [->|Hn0]; [reflexivity|].
  assert (Hread : forall k : Z, 1 <= k ->
             exists (c : ascii) (rest : string),
               Numeral.digits k = String c rest
               /\ (Numeral.is_space c = false
                   /\ Ascii.eqb c "-" = false /\ Ascii.eqb c "+" = false
                   /\ Ascii.eqb (tolower c) "i" = false
                   /\ Ascii.eqb (tolower c) "n" = false)
               /\ Numeral.read_decimal (String c rest) = Some (k, 0, "")).
  { intros k Hk.
    destruct (digits_acc_head (Z.to_nat (Z.log2 k)) k "" ltac:(lia))
      as (d & tail & Hd & Hhead).
    fold (Numeral.digits k) in Hhead.
    destruct (digit_char_reads d Hd) as (_ & _ & _ & _ & Hled).
    destruct (read_digits_digits k ltac:(lia)) as [p Hp].
    exists (Numeral.digit_char d), tail. split; [exact Hhead|]. split; [exact Hled|].
    rewrite <- Hhead. unfold Numeral.read_decimal. rewrite Hp. reflexivity. }
  unfold Numeral.number_int. destruct (Z.ltb_spec n 0).
  - destruct (Hread (- n) ltac:(lia)) as (c & rest & -> & Hled & Hdec).
    rewrite (toDouble_led c rest (- n) 0 Hled Hdec true). f_equal. lia.
  - destruct (Hread n ltac:(lia)) as (c & rest & -> & Hled & Hdec).
    pose proof (toDouble_led c rest n 0 Hled Hdec false) as Ht.
    rewrite append_nil_l in Ht. rewrite Ht. f_equal. lia.
Qed.

(** C9, as the code has it: for every filter and every form in which each
    filled bound of a range filter reads as a double of at most six
    significant digits, [ToForm] after [FromForm] on the unmodified form
    shows the original flags and values: reading the form again gives the
    same FilterData. The name search and the colour filters need no
    condition, and for the colour filters a field that was empty is still
    empty. Numbers are converted by the reference instance of the Qt
    conversions, where [QString::number] prints a double with six
    significant digits. *)
Theorem FromForm_ToForm_roundtrip (filter_ : Filter)
        (form : Form.t) (data0 : FilterData.t) :
  six_digit_bounds filter_ form ->
  let data := FromForm Qt.model filter_ form data0 in
  let form' := ToForm Qt.model filter_ data form in
  FromForm Qt.model filter_ form' data = data
  /\ (filter_ = SocketsColorsFilter \/ filter_ = LinksColorsFilter ->
      (Form.textbox_r_ form = "" -> Form.textbox_r_ form' = "")
      /\ (Form.textbox_g_ form = "" -> Form.textbox_g_ form' = "")
      /\ (Form.textbox_b_ form = "" -> Form.textbox_b_ form' = "")).
Proof.
  intros Hs data form'. split.
  - subst data form'. destruct filter_ as [|f| |]; simpl in *.
    + apply NameSearchFilter_form_roundtrip.
    + destruct Hs as [Hmin Hmax].
      apply MinMaxFilter_form_roundtrip; apply reads_six_digits_survives; assumption.
    + apply SocketsColorsFilter_form_roundtrip; apply int_survives_model.
    + apply SocketsColorsFilter_form_roundtrip; apply int_survives_model.
  - intros Hf.
    assert (Heq : form' = SocketsColorsFilter_ToForm Qt.model data form)
      by (subst form'; destruct Hf as [-> | ->]; reflexivity).
    assert (Hd : data = SocketsColorsFilter_FromForm Qt.model form data0)
      by (subst data; destruct Hf as [-> | ->]; reflexivity).
    rewrite Heq.
    destruct (SocketsColorsFilter_ToForm_unfilled Qt.model data form) as (Hr & Hg & Hb).
    repeat split; intros He.
    + rewrite Hr; [exact He|]. rewrite Hd. destruct data0; simpl. rewrite He. reflexivity.
    + rewrite Hg; [exact He|]. rewrite Hd. destruct data0; simpl. rewrite He. reflexivity.
    + rewrite Hb; [exact He|]. rewrite Hd. destruct data0; simpl. rewrite He. reflexivity.
Qed.

(** C9, where the claim as stated fails: a minimum of 1234567. [FromForm]
    reads the number, [ToForm] prints it with six significant digits, and
    the form then shows 1.23457e+06, which reads as 1234570. *)
Lemma FromForm_ToForm_seven_digits :
  let filter_ := MinMax SocketsFilter in
  let form := Form.set_textbox_min_ "1234567" Form.empty in
  let data := FromForm Qt.model filter_ form
                       (FilterData.new Double.zero Double.zero 0 0 0) in
  let form' := ToForm Qt.model filter_ data form in
  FilterData.min_filled data = true
  /\ FilterData.min data = Double.of_int 1234567
  /\ Form.textbox_min_ form' = "1.23457e+06"
  /\ FilterData.min (FromForm Qt.model filter_ form' data) = Double.of_int 1234570
  /\ FromForm Qt.model filter_ form' data <> data.
Proof.
  repeat split; try (vm_compute; reflexivity).
  vm_compute. discriminate.
Qed.

Lemma FromForm_ToForm_roundtrip_witness :
  let filter_ := MinMax (SimplePropertyFilter "Quality") in
  let form := Form.set_textbox_max_ "350.5" (Form.set_textbox_min_ "12" Form.empty) in
  let data := FromForm Qt.model filter_ form
                       (FilterData.new Double.zero Double.zero 0 0 0) in
  six_digit_bounds filter_ form
  /\ FromForm Qt.model filter_ (ToForm Qt.model filter_ data form) data = data.
Proof.
  intros filter_ form data.
  assert (H : six_digit_bounds filter_ form).
  { split; intros _; right; right;
      [exists false, 12, 0 | exists false, 3505, (- 1)];
      (split; [lia|]; split; [lia|]; reflexivity). }
  split; [exact H|].
  exact (proj1 (FromForm_ToForm_roundtrip filter_ form
                  (FilterData.new Double.zero Double.zero 0 0 0) H)).
Defined.

(** * Further properties of the code *)

(** ** Check *)

(** X1: as long as nothing overflows, fewer required sockets and more
    sockets on the item keep a match. *)
Theorem Check_monotone (nr ng nb gr gg gb gw nr' ng' nb' gr' gg' gb' gw' : Z) :
  deficit_fits nr ng nb gr gg gb ->
  deficit_fits nr' ng' nb' gr' gg' gb' ->
  nr' <= nr -> ng' <= ng -> nb' <= nb ->
  gr <= gr' -> gg <= gg' -> gb <= gb' -> gw <= gw' ->
  Check nr ng nb gr gg gb gw = true ->
  Check nr' ng' nb' gr' gg' gb' gw' = true.
Proof.
  intros Hfits Hfits' Hnr Hng Hnb Hgr Hgg Hgb Hgw.
  rewrite (Check_deficit _ _ _ _ _ _ _ Hfits), (Check_deficit _ _ _ _ _ _ _ Hfits').
  rewrite !Z.leb_le. unfold deficit. lia.
Qed.

Lemma Check_monotone_witness :
  (deficit_fits 2 1 0 1 1 0 /\ deficit_fits 1 1 0 2 1 3)
  /\ Check 2 1 0 1 1 0 1 = true
  /\ Check 1 1 0 2 1 3 1 = true.
Proof.
  assert (H1 : deficit_fits 2 1 0 1 1 0) by (repeat split; vm_compute; discriminate).
  assert (H2 : deficit_fits 1 1 0 2 1 3) by (repeat split; vm_compute; discriminate).
  split; [split; assumption|]. split; [reflexivity|].
  apply (Check_monotone 2 1 0 1 1 0 1 1 1 0 2 1 3 1 H1 H2); try lia. reflexivity.
Defined.

(** X2: as long as nothing overflows, an item that has the required sockets
    of each colour passes, and an item that passes has at least as many
    sockets in all as are required in all. *)
Theorem Check_bounds (nr ng nb gr gg gb gw : Z) :
  deficit_fits nr ng nb gr gg gb ->
  (nr <= gr -> ng <= gg -> nb <= gb -> 0 <= gw ->
   Check nr ng nb gr gg gb gw = true)
  /\ (Check nr ng nb gr gg gb gw = true ->
      nr + ng + nb <= gr + gg + gb + gw).
Proof.
  intros Hfits. rewrite (Check_deficit _ _ _ _ _ _ _ Hfits), Z.leb_le.
  unfold deficit. split; lia.
Qed.

Lemma Check_bounds_witness :
  deficit_fits 2 0 1 1 0 1
  /\ (Check 2 0 1 1 0 1 1 = true -> 2 + 0 + 1 <= 1 + 0 + 1 + 1).
Proof.
  assert (H : deficit_fits 2 0 1 1 0 1) by (repeat split; vm_compute; discriminate).
  split; [exact H|]. exact (proj2 (Check_bounds 2 0 1 1 0 1 1 H)).
Defined.

(** More white sockets keep a match, whatever the other numbers are. *)
Lemma Check_more_white (nr ng nb gr gg gb gw gw' : Z) :
  gw <= gw' -> Check nr ng nb gr gg gb gw = true -> Check nr ng nb gr gg gb gw' = true.
Proof. unfold Check, Int.le. rewrite !Z.leb_le. lia. Qed.

(** ** The group scan *)

Lemma wrap_wrap_add (a b : Z) : Int.wrap (Int.wrap a + b) = Int.wrap (a + b).
Proof.
  unfold Int.wrap. f_equal.
  replace ((a + 2 ^ 31) mod 2 ^ 32 - 2 ^ 31 + b + 2 ^ 31)
    with ((a + 2 ^ 31) mod 2 ^ 32 + b) by ring.
  rewrite Zplus_mod_idemp_l. f_equal. ring.
Qed.

Lemma wrap_wrap (a : Z) : Int.wrap (Int.wrap a) = Int.wrap a.
Proof.
  pose proof (wrap_wrap_add a 0) as H. rewrite !Z.add_0_r in H. exact H.
Qed.

Lemma incr_add (w x : Z) : Int.incr (Int.add w x) = Int.add w (Int.incr x).
Proof.
  unfold Int.incr, Int.add. rewrite wrap_wrap_add.
  rewrite (Z.add_comm w (Int.wrap (x + 1))), wrap_wrap_add. f_equal. ring.
Qed.

Lemma count_socket_tracks (white_before : Z) (socket : Socket.t) (st c : Scan.t) :
  tracks white_before st c ->
  tracks white_before (count_socket socket st) (count_socket socket c).
Proof.
  unfold tracks, count_socket. intros (Hr & Hg & Hb & Hw). cbv zeta.
  repeat case_match; simpl; rewrite ?Hr, ?Hg, ?Hb, ?Hw, ?incr_add; auto.
Qed.

Lemma Check_scan_tracks (data : FilterData.t) (white_before : Z) (st c : Scan.t) :
  tracks white_before st c ->
  Check_scan data st
  = Check (need_r data) (need_g data) (need_b data)
          (Scan.got_r c) (Scan.got_g c) (Scan.got_b c)
          (Int.add white_before (Scan.got_w c)).
Proof. unfold Check_scan. intros (-> & -> & -> & ->). reflexivity. Qed.

Lemma for_sockets_groups (data : FilterData.t) (l : list Socket.t) :
  forall (st : Scan.t) (acc : list Socket.t) (white_before : Z),
    tracks white_before st (group_counts acc) ->
    match for_sockets data l st with
    | inl b => b
    | inr st' => Check_scan data st'
    end = some_group_accepted data white_before
                              (split_groups (Scan.current st) acc l).
Proof.
  induction l as [|s l IH]; intros st acc w0 Hst; simpl.
  - rewrite orb_false_r. apply Check_scan_tracks, Hst.
  - unfold loop_body.
    destruct (Int.ne (Scan.current st) (Socket.group s)) eqn:Hne.
    + cbn [some_group_accepted]. cbv zeta.
      rewrite <- (Check_scan_tracks data w0 st _ Hst).
      destruct (Check_scan data st); [reflexivity|]. cbn [orb].
      rewrite <- (count_socket_current s (reset_counters st)).
      apply IH. apply count_socket_tracks.
      destruct Hst as (_ & _ & _ & Hw).
      split; [reflexivity|]. split; [reflexivity|]. split; [reflexivity|].
      change (Scan.got_w st
              = Int.add (Int.add w0 (Scan.got_w (group_counts acc))) 0).
      rewrite Hw. unfold Int.add. rewrite Z.add_0_r, wrap_wrap. reflexivity.
    + assert (Hcur : Scan.current st = Socket.group s).
      { unfold Int.ne in Hne. apply negb_false_iff, Z.eqb_eq in Hne. exact Hne. }
      rewrite Hcur. rewrite <- (count_socket_current s st).
      apply IH. rewrite group_counts_snoc.
      apply count_socket_tracks, Hst.
Qed.

(** X3: what [LinksColorsFilter::Matches] computes. With a colour filled, the
    item matches exactly when some contiguous link group passes [Check] on
    its own red, green and blue counts together with the white sockets of
    that group and of every group in front of it. *)
Theorem LinksColorsFilter_Matches_accumulates_white (item : Item.t) (data : FilterData.t) :
  LinksColorsFilter_Matches item data
  = no_color_filled data || some_group_accepted data 0 (link_groups item).
Proof.
  unfold LinksColorsFilter_Matches, link_groups.
  destruct (no_color_filled data); [reflexivity|]. simpl.
  apply (for_sockets_groups data _ Scan.init [] 0).
  unfold tracks; simpl. repeat split.
Qed.

Lemma split_groups_one_group (cur : Z) (l : list Socket.t) :
  forall acc : list Socket.t,
    Forall (fun s => Socket.group s = cur) l ->
    split_groups cur acc l = [acc ++ l].
Proof.
  induction l as [|s l IH]; intros acc Hl; simpl.
  - rewrite app_nil_r. reflexivity.
  - inversion Hl as [|? ? Hs Hl']; subst.
    unfold Int.ne. rewrite Z.eqb_refl. simpl.
    rewrite (IH _ Hl'), <- app_assoc. reflexivity.
Qed.

Lemma concat_split_groups (l : list Socket.t) :
  forall (cur : Z) (acc : list Socket.t), concat (split_groups cur acc l) = acc ++ l.
Proof.
  induction l as [|s l IH]; intros cur acc; simpl.
  - rewrite app_nil_r. reflexivity.
  - destruct (Int.ne cur (Socket.group s)); simpl; rewrite IH; [reflexivity|].
    rewrite <- app_assoc. reflexivity.
Qed.

Lemma count_socket_got_w (socket : Socket.t) (st : Scan.t) :
  Scan.got_w (count_socket socket st) = Scan.got_w st
  \/ Scan.got_w (count_socket socket st) = Int.incr (Scan.got_w st).
Proof. unfold count_socket. cbv zeta. repeat case_match; simpl; auto. Qed.

(** the white count of a group is a number of sockets of the group *)
Lemma got_w_group_counts_range (grp : list Socket.t) :
  Z.of_nat (length grp) <= Int.max_int ->
  0 <= Scan.got_w (group_counts grp) <= Z.of_nat (length grp).
Proof.
  induction grp as [|s grp IH] using rev_ind; [simpl; lia|].
  rewrite length_app, group_counts_snoc. simpl. intros Hlen.
  destruct (count_socket_got_w s (group_counts grp)) as [-> | ->]; [lia|].
  unfold Int.incr, Int.add. rewrite wrap_in_range.
  - lia.
  - unfold Int.in_range, Int.min_int, Int.max_int in *. lia.
Qed.

(** the white count of a group is an [int] *)
Lemma got_w_group_counts_wrapped (grp : list Socket.t) :
  Int.wrap (Scan.got_w (group_counts grp)) = Scan.got_w (group_counts grp).
Proof.
  induction grp as [|s grp IH] using rev_ind; [reflexivity|].
  rewrite group_counts_snoc.
  destruct (count_socket_got_w s (group_counts grp)) as [-> | ->]; [exact IH|].
  unfold Int.incr, Int.add. apply wrap_wrap.
Qed.

Lemma some_group_accepted_of_satisfies (data : FilterData.t)
      (groups : list (list Socket.t)) :
  forall white_before : Z,
    0 <= white_before ->
    white_before + Z.of_nat (length (concat groups)) <= Int.max_int ->
    existsb (group_satisfies data) groups = true ->
    some_group_accepted data white_before groups = true.
Proof.
  induction groups as [|grp rest IH]; intros w0 Hw0 Hlen; simpl; [discriminate|].
  simpl in Hlen. rewrite length_app in Hlen.
  assert (Hx : 0 <= Scan.got_w (group_counts grp) <= Z.of_nat (length grp))
    by (apply got_w_group_counts_range; lia).
  assert (Hadd : Int.add w0 (Scan.got_w (group_counts grp))
                 = w0 + Scan.got_w (group_counts grp)).
  { unfold Int.add. apply wrap_in_range.
    unfold Int.in_range, Int.min_int, Int.max_int in *. lia. }
  rewrite Hadd, !orb_true_iff. intros [Hsat | Hrest].
  - left. unfold group_satisfies, Check_scan in Hsat.
    eapply Check_more_white; [|exact Hsat]. lia.
  - right. apply IH; [lia | lia | exact Hrest].
Qed.

(** X4: an item whose sockets all are in group 0 (an item without sockets
    among them) is judged on the colour counts of all its sockets. *)
Theorem LinksColorsFilter_Matches_one_group (item : Item.t) (data : FilterData.t) :
  Forall (fun s => Socket.group s = 0) (Item.json_sockets item) ->
  LinksColorsFilter_Matches item data
  = no_color_filled data || Check_scan data (group_counts (Item.json_sockets item)).
Proof.
  intros Hl. unfold LinksColorsFilter_Matches.
  destruct (no_color_filled data); [reflexivity|]. simpl.
  rewrite (for_sockets_groups data _ Scan.init [] 0)
    by (unfold tracks; simpl; repeat split).
  simpl Scan.current. rewrite (split_groups_one_group 0 _ [] Hl). simpl.
  rewrite orb_false_r. unfold Check_scan. f_equal.
  unfold Int.add. rewrite Z.add_0_l. apply got_w_group_counts_wrapped.
Qed.

Lemma LinksColorsFilter_Matches_one_group_witness :
  let item := sockets_item [Socket.mk 0 "S"; Socket.mk 0 "G"; Socket.mk 0 "X"] in
  let data := colors_data true 2 false 0 false 0 in
  Forall (fun s => Socket.group s = 0) (Item.json_sockets item)
  /\ LinksColorsFilter_Matches item data = true.
Proof.
  intros item data.
  assert (H : Forall (fun s => Socket.group s = 0) (Item.json_sockets item))
    by (repeat constructor).
  split; [exact H|].
  rewrite (LinksColorsFilter_Matches_one_group item data H). reflexivity.
Defined.

(** X5: the filter never rejects an item one of whose contiguous link groups
    passes [Check] on its own counts (for a socket list no longer than the
    largest [int]). *)
Theorem LinksColorsFilter_Matches_some_group (item : Item.t) (data : FilterData.t) :
  Z.of_nat (length (Item.json_sockets item)) <= Int.max_int ->
  some_group_satisfies data item = true ->
  LinksColorsFilter_Matches item data = true.
Proof.
  intros Hlen Hsat. unfold LinksColorsFilter_Matches.
  destruct (no_color_filled data); [reflexivity|].
  rewrite (for_sockets_groups data _ Scan.init [] 0)
    by (unfold tracks; simpl; repeat split).
  apply some_group_accepted_of_satisfies; [lia| |exact Hsat].
  simpl Scan.current. rewrite concat_split_groups. simpl. lia.
Qed.

Lemma LinksColorsFilter_Matches_some_group_witness :
  let item := sockets_item [Socket.mk 0 "S"; Socket.mk 0 "G";
                            Socket.mk 1 "D"; Socket.mk 1 "D"] in
  let data := colors_data false 0 true 2 false 0 in
  (Z.of_nat (length (Item.json_sockets item)) <= Int.max_int
   /\ some_group_satisfies data item = true)
  /\ LinksColorsFilter_Matches item data = true.
Proof.
  intros item data.
  assert (Hlen : Z.of_nat (length (Item.json_sockets item)) <= Int.max_int)
    by (vm_compute; discriminate).
  assert (Hsat : some_group_satisfies data item = true) by reflexivity.
  split; [split; assumption|].
  exact (LinksColorsFilter_Matches_some_group item data Hlen Hsat).
Defined.

(** ** The name search *)

Lemma tolower_idempotent (c : ascii) : tolower (tolower c) = tolower c.
Proof. destruct c as [[] [] [] [] [] [] [] []]; reflexivity. Qed.

Lemma transform_tolower_idempotent (s : string) :
  transform_tolower (transform_tolower s) = transform_tolower s.
Proof.
  induction s as [|c s IH]; simpl; [reflexivity|].
  rewrite tolower_idempotent, IH. reflexivity.
Qed.

Lemma transform_tolower_append (a b : string) :
  transform_tolower (a +:+ b) = transform_tolower a +:+ transform_tolower b.
Proof.
  induction a as [|x a IH]; [reflexivity|]. rewrite append_cons. simpl.
  rewrite append_cons. f_equal. exact IH.
Qed.

Lemma length_transform_tolower (s : string) :
  String.length (transform_tolower s) = String.length s.
Proof. induction s as [|c s IH]; simpl; [reflexivity | rewrite IH; reflexivity]. Qed.

(** the filter in terms of [find] on the lower-cased strings *)
Lemma NameSearchFilter_Matches_find (item : Item.t) (data : FilterData.t) :
  NameSearchFilter_Matches item data = true <->
  exists pre suf,
    transform_tolower (Item.PrettyName item)
    = pre +:+ transform_tolower (FilterData.text_query data) +:+ suf.
Proof.
  rewrite <- find_Some_substring. unfold NameSearchFilter_Matches. cbv zeta.
  destruct (find _ _); split; eauto; try discriminate.
  intros [n Hn]. discriminate.
Qed.

(** X6: typing more can only narrow the search: an item matched by a query
    is matched by every query that the query starts or ends with. *)
Theorem NameSearchFilter_Matches_narrows (item : Item.t) (data : FilterData.t)
        (q1 q2 : string) :
  NameSearchFilter_Matches item (FilterData.set_text_query (q1 +:+ q2) data) = true ->
  NameSearchFilter_Matches item (FilterData.set_text_query q1 data) = true
  /\ NameSearchFilter_Matches item (FilterData.set_text_query q2 data) = true.
Proof.
  rewrite !NameSearchFilter_Matches_find. simpl.
  rewrite transform_tolower_append. intros (pre & suf & ->). split.
  - exists pre, (transform_tolower q2 +:+ suf). rewrite append_assoc. reflexivity.
  - exists (pre +:+ transform_tolower q1), suf. rewrite !append_assoc. reflexivity.
Qed.

Lemma NameSearchFilter_Matches_narrows_witness :
  let item := named_item "Shavronne's Wrappings" in
  let data := FilterData.new Double.zero Double.zero 0 0 0 in
  NameSearchFilter_Matches item (FilterData.set_text_query ("WRAP" +:+ "pings") data) = true
  /\ NameSearchFilter_Matches item (FilterData.set_text_query "WRAP" data) = true
  /\ NameSearchFilter_Matches item (FilterData.set_text_query "pings" data) = true.
Proof.
  intros item data.
  assert (H : NameSearchFilter_Matches
                item (FilterData.set_text_query ("WRAP" +:+ "pings") data) = true)
    by reflexivity.
  split; [exact H|].
  exact (NameSearchFilter_Matches_narrows item data "WRAP" "pings" H).
Defined.

(** X7: a query longer than the name matches nothing. *)
Theorem NameSearchFilter_Matches_longer_query (item : Item.t) (data : FilterData.t) :
  (String.length (Item.PrettyName item)
   < String.length (FilterData.text_query data))%nat ->
  NameSearchFilter_Matches item data = false.
Proof.
  intros Hlen. apply not_true_is_false. rewrite NameSearchFilter_Matches_find.
  intros (pre & suf & Heq). apply (f_equal String.length) in Heq.
  rewrite !length_append, !length_transform_tolower in Heq. lia.
Qed.

Lemma NameSearchFilter_Matches_longer_query_witness :
  let item := named_item "Wand" in
  let data := FilterData.set_text_query "wands"
                (FilterData.new Double.zero Double.zero 0 0 0) in
  (String.length (Item.PrettyName item)
   < String.length (FilterData.text_query data))%nat
  /\ NameSearchFilter_Matches item data = false.
Proof.
  intros item data.
  assert (H : (String.length (Item.PrettyName item)
               < String.length (FilterData.text_query data))%nat) by (simpl; lia).
  split; [exact H|].
  exact (NameSearchFilter_Matches_longer_query item data H).
Defined.

(** X8: the search does not tell upper case from lower case: lower-casing
    the query or the name beforehand changes nothing, and a query that is the
    whole name up to case matches. *)
Theorem NameSearchFilter_Matches_case (name : string) (data : FilterData.t) :
  NameSearchFilter_Matches
    (named_item name)
    (FilterData.set_text_query (transform_tolower (FilterData.text_query data)) data)
  = NameSearchFilter_Matches (named_item name) data
  /\ NameSearchFilter_Matches (named_item (transform_tolower name)) data
     = NameSearchFilter_Matches (named_item name) data
  /\ NameSearchFilter_Matches
       (named_item name) (FilterData.set_text_query (transform_tolower name) data)
     = true.
Proof.
  unfold NameSearchFilter_Matches. simpl.
  rewrite !transform_tolower_idempotent. repeat split.
  assert (H : is_Some (find (transform_tolower name) (transform_tolower name))).
  { apply find_Some_substring. exists "", "". rewrite append_nil_r. reflexivity. }
  destruct H as [n ->]. reflexivity.
Qed.

(** ** The range filters *)

Lemma SFleb_trans (a b c : Double.t) :
  SFleb a b = true -> SFleb b c = true -> SFleb a c = true.
Proof.
  unfold SFleb.
  destruct a as [sa|sa| |sa ma ea], b as [sb|sb| |sb mb eb], c as [sc|sc| |sc mc ec];
    simpl; try discriminate; try reflexivity;
    repeat match goal with s : bool |- _ => destruct s end;
    simpl; try discriminate; try reflexivity.
  all: change (Pos.compare_cont Eq ?x ?y) with (Pos.compare x y).
  all: destruct (Z.compare_spec ea eb); destruct (Z.compare_spec eb ec);
    destruct (Z.compare_spec ea ec); try lia; try discriminate; try reflexivity; subst.
  all: destruct (Pos.compare_spec ma mb); destruct (Pos.compare_spec mb mc);
    destruct (Pos.compare_spec ma mc); simpl; try lia; try discriminate; try reflexivity.
Qed.

Lemma SFleb_not_nan (a b : Double.t) :
  SFleb a b = true -> Double.is_nan a = false /\ Double.is_nan b = false.
Proof. destruct a, b; simpl; try discriminate; auto. Qed.

Lemma SFltb_not_nan (a b : Double.t) :
  SFltb a b = true -> Double.is_nan a = false /\ Double.is_nan b = false.
Proof. destruct a, b; simpl; try discriminate; auto. Qed.

Lemma compare_nan (a : Double.t) :
  Double.gt a S754_nan = false /\ Double.lt a S754_nan = false
  /\ Double.gt S754_nan a = false /\ Double.lt S754_nan a = false.
Proof. destruct a; repeat split; reflexivity. Qed.

(** a value that is a number passes a filled minimum exactly when
    [min <= value], and the test is transitive *)
Lemma gt_false_le (a v : Double.t) :
  Double.is_nan a = false -> Double.is_nan v = false ->
  Double.gt a v = false -> Double.le a v = true.
Proof. intros Ha Hv. rewrite (gt_not_le a v Ha Hv). apply negb_false_iff. Qed.

Lemma lt_false_ge (a v : Double.t) :
  Double.is_nan a = false -> Double.is_nan v = false ->
  Double.lt a v = false -> Double.ge a v = true.
Proof. intros Ha Hv. rewrite (lt_not_ge a v Ha Hv). apply negb_false_iff. Qed.

(** X9: an item whose value is NaN passes every range, whatever the bounds. *)
Theorem MinMaxFilter_Matches_nan_value
        (stod : string -> result Double.t) (f : MinMaxFilter)
        (item : Item.t) (data : FilterData.t) :
  IsValuePresent f item = true ->
  GetValue stod f item = Return S754_nan ->
  MinMaxFilter_Matches stod f item data = Return true.
Proof.
  intros Hp Hv. unfold MinMaxFilter_Matches. rewrite Hp, Hv. simpl.
  destruct (compare_nan (FilterData.min data)) as (-> & _).
  destruct (compare_nan (FilterData.max data)) as (_ & -> & _).
  rewrite !andb_false_r. reflexivity.
Qed.

Lemma MinMaxFilter_Matches_nan_value_witness :
  let f := SimplePropertyFilter "Quality" in
  let item := properties_item {[ "Quality" := "NaN" ]} in
  let data := minmax_data true (Double.of_int 10) true (Double.of_int 20) in
  (IsValuePresent f item = true /\ GetValue Numeral.stod f item = Return S754_nan)
  /\ MinMaxFilter_Matches Numeral.stod f item data = Return true.
Proof.
  intros f item data.
  assert (Hp : IsValuePresent f item = true) by reflexivity.
  assert (Hv : GetValue Numeral.stod f item = Return S754_nan) by reflexivity.
  split; [split; assumption|].
  exact (MinMaxFilter_Matches_nan_value Numeral.stod f item data Hp Hv).
Defined.

(** X10: when the value is present, a filled bound that is NaN constrains
    nothing: the result is that of the same data with the bound unfilled. *)
Theorem MinMaxFilter_Matches_nan_bound_ignored
        (stod : string -> result Double.t) (f : MinMaxFilter)
        (item : Item.t) (data : FilterData.t) :
  IsValuePresent f item = true ->
  MinMaxFilter_Matches stod f item (FilterData.set_min true S754_nan data)
  = MinMaxFilter_Matches stod f item (FilterData.set_min false S754_nan data)
  /\ MinMaxFilter_Matches stod f item (FilterData.set_max true S754_nan data)
     = MinMaxFilter_Matches stod f item (FilterData.set_max false S754_nan data).
Proof.
  intros Hp. unfold MinMaxFilter_Matches. rewrite Hp.
  destruct (GetValue stod f item) as [v|e]; [|split; reflexivity].
  destruct v, data; split; reflexivity.
Qed.

Lemma MinMaxFilter_Matches_nan_bound_ignored_witness :
  let item := socket_counts_item 3 0 0 0 in
  let data := minmax_data false Double.zero true (Double.of_int 2) in
  IsValuePresent SocketsFilter item = true
  /\ MinMaxFilter_Matches Numeral.stod SocketsFilter item
       (FilterData.set_max true S754_nan data) = Return true.
Proof.
  intros item data.
  assert (Hp : IsValuePresent SocketsFilter item = true) by reflexivity.
  split; [exact Hp|].
  rewrite (proj2 (MinMaxFilter_Matches_nan_bound_ignored
                    Numeral.stod SocketsFilter item data Hp)).
  reflexivity.
Defined.

(** X11: [std::map::at] never throws out of [Matches]. On an item that
    lacks the property, [SimplePropertyFilter::GetValue] by itself throws
    [std::out_of_range], but [Matches] calls it only behind [IsValuePresent]
    and returns; the only throw that leaves the [Matches] of a
    SimplePropertyFilter is the one of [std::stod] on the property's text.
    The [at] of [RequiredStatFilter::GetValue] stands behind [count], so the
    [Matches] of a RequiredStatFilter always returns. *)
Theorem MinMaxFilter_Matches_at_guarded
        (stod : string -> result Double.t) (property_ : string)
        (item : Item.t) (data : FilterData.t) :
  (Item.properties item !! property_ = None ->
   SimplePropertyFilter_GetValue stod property_ item = Throw out_of_range
   /\ exists b, MinMaxFilter_Matches stod (SimplePropertyFilter property_) item data
                = Return b)
  /\ (forall e : exception,
        MinMaxFilter_Matches stod (SimplePropertyFilter property_) item data = Throw e ->
        exists s, Item.properties item !! property_ = Some s /\ stod s = Throw e)
  /\ exists b, MinMaxFilter_Matches stod (RequiredStatFilter property_) item data
               = Return b.
Proof.
  unfold MinMaxFilter_Matches. simpl.
  unfold SimplePropertyFilter_IsValuePresent, SimplePropertyFilter_GetValue,
    RequiredStatFilter_GetValue, map_count, map_at, to_bool.
  split; [|split].
  - intros Hnone. rewrite Hnone. simpl. eauto.
  - intros e. destruct (Item.properties item !! property_) as [s|]; simpl; [|discriminate].
    destruct (stod s) as [v|e'] eqn:Hv; simpl.
    + repeat case_match; discriminate.
    + intros [= ->]. eauto.
  - destruct (Item.requirements item !! property_); simpl; repeat case_match; eauto.
Qed.

Lemma MinMaxFilter_Matches_at_guarded_witness :
  let item := properties_item {[ "Quality" := "+20%" ]} in
  let data := minmax_data true (Double.of_int 1) false Double.zero in
  Item.properties item !! "Armour" = None
  /\ SimplePropertyFilter_GetValue Numeral.stod "Armour" item = Throw out_of_range
  /\ exists b, MinMaxFilter_Matches Numeral.stod (SimplePropertyFilter "Armour") item data
               = Return b.
Proof.
  intros item data.
  assert (H : Item.properties item !! "Armour" = None) by reflexivity.
  split; [exact H|].
  exact (proj1 (MinMaxFilter_Matches_at_guarded Numeral.stod "Armour" item data) H).
Defined.

(** X12: widening the range keeps a match: with a filled minimum lowered and
    a filled maximum raised, an item that matched still matches. *)
Theorem MinMaxFilter_Matches_wider
        (stod : string -> result Double.t) (f : MinMaxFilter)
        (item : Item.t) (data : FilterData.t) (min' max' : Double.t) :
  (FilterData.min_filled data = true -> Double.le min' (FilterData.min data) = true) ->
  (FilterData.max_filled data = true -> Double.le (FilterData.max data) max' = true) ->
  MinMaxFilter_Matches stod f item data = Return true ->
  MinMaxFilter_Matches stod f item
    (FilterData.set_max (FilterData.max_filled data) max'
       (FilterData.set_min (FilterData.min_filled data) min' data))
  = Return true.
Proof.
  intros Hmin Hmax. unfold MinMaxFilter_Matches.
  destruct (IsValuePresent f item); [|simpl; auto].
  destruct (GetValue stod f item) as [v|e]; simpl; [|auto].
  destruct (Double.is_nan v) eqn:Hv.
  { destruct v; try discriminate.
    destruct (compare_nan min') as (-> & _), (compare_nan max') as (_ & -> & _).
    rewrite !andb_false_r. reflexivity. }
  destruct (FilterData.min_filled data) eqn:Hmf; simpl.
  - destruct (SFleb_not_nan _ _ (Hmin eq_refl)) as [Hn1 Hn2].
    destruct (Double.gt (FilterData.min data) v) eqn:Hgt; [discriminate|].
    rewrite (gt_not_le min' v Hn1 Hv). unfold Double.le.
    rewrite (SFleb_trans _ _ _ (Hmin eq_refl) (gt_false_le _ _ Hn2 Hv Hgt)). simpl.
    destruct (FilterData.max_filled data) eqn:Hxf; simpl; [|reflexivity].
    destruct (SFleb_not_nan _ _ (Hmax eq_refl)) as [Hn3 Hn4].
    destruct (Double.lt (FilterData.max data) v) eqn:Hlt; [discriminate|].
    rewrite (lt_not_ge max' v Hn4 Hv). unfold Double.ge.
    rewrite (SFleb_trans _ _ _ (lt_false_ge _ _ Hn3 Hv Hlt) (Hmax eq_refl)).
    reflexivity.
  - destruct (FilterData.max_filled data) eqn:Hxf; simpl; [|reflexivity].
    destruct (SFleb_not_nan _ _ (Hmax eq_refl)) as [Hn3 Hn4].
    destruct (Double.lt (FilterData.max data) v) eqn:Hlt; [discriminate|].
    rewrite (lt_not_ge max' v Hn4 Hv). unfold Double.ge.
    rewrite (SFleb_trans _ _ _ (lt_false_ge _ _ Hn3 Hv Hlt) (Hmax eq_refl)).
    reflexivity.
Qed.

Lemma MinMaxFilter_Matches_wider_witness :
  let item := socket_counts_item 2 1 1 0 in
  let data := minmax_data true (Double.of_int 4) true (Double.of_int 5) in
  (Double.le (Double.of_int 3) (FilterData.min data) = true
   /\ Double.le (FilterData.max data) (Double.of_int 6) = true
   /\ MinMaxFilter_Matches Numeral.stod SocketsFilter item data = Return true)
  /\ MinMaxFilter_Matches Numeral.stod SocketsFilter item
       (minmax_data true (Double.of_int 3) true (Double.of_int 6)) = Return true.
Proof.
  intros item data. split; [repeat split|].
  exact (MinMaxFilter_Matches_wider Numeral.stod SocketsFilter item data
           (Double.of_int 3) (Double.of_int 6)
           (fun _ => eq_refl) (fun _ => eq_refl) eq_refl).
Defined.

(** X13: bounds that cross exclude every item whose value is a number: with
    both bounds filled and [min > max], nothing with a present value that is
    not NaN matches. *)
Theorem MinMaxFilter_Matches_crossed_bounds
        (stod : string -> result Double.t) (f : MinMaxFilter)
        (item : Item.t) (data : FilterData.t) (value : Double.t) :
  FilterData.min_filled data = true ->
  FilterData.max_filled data = true ->
  Double.gt (FilterData.min data) (FilterData.max data) = true ->
  IsValuePresent f item = true ->
  GetValue stod f item = Return value ->
  Double.is_nan value = false ->
  MinMaxFilter_Matches stod f item data = Return false.
Proof.
  intros Hmf Hxf Hgt Hp Hv Hnan. unfold MinMaxFilter_Matches.
  rewrite Hp, Hv, Hmf, Hxf. simpl.
  destruct (SFltb_not_nan _ _ Hgt) as [Hn2 Hn1].
  destruct (Double.gt (FilterData.min data) value) eqn:H1; [reflexivity|].
  destruct (Double.lt (FilterData.max data) value) eqn:H2; [reflexivity|].
  exfalso.
  pose proof (gt_false_le _ _ Hn1 Hnan H1) as Hle1.
  pose proof (lt_false_ge _ _ Hn2 Hnan H2) as Hle2.
  pose proof (SFleb_trans _ _ _ Hle1 Hle2) as Hle.
  rewrite (gt_not_le _ _ Hn1 Hn2) in Hgt. unfold Double.le in Hgt.
  rewrite Hle in Hgt. discriminate.
Qed.

Lemma MinMaxFilter_Matches_crossed_bounds_witness :
  let item := socket_counts_item 2 1 1 0 in
  let data := minmax_data true (Double.of_int 5) true (Double.of_int 3) in
  (Double.gt (FilterData.min data) (FilterData.max data) = true
   /\ GetValue Numeral.stod SocketsFilter item = Return (Double.of_int 4))
  /\ MinMaxFilter_Matches Numeral.stod SocketsFilter item data = Return false.
Proof.
  intros item data. split; [repeat split|].
  exact (MinMaxFilter_Matches_crossed_bounds Numeral.stod SocketsFilter item data
           (Double.of_int 4) eq_refl eq_refl eq_refl eq_refl eq_refl eq_refl).
Defined.

(** X14: an item that lacks the requirement is judged as one that requires
    0: a filled minimum above 0 excludes it, and with no minimum a filled
    maximum of 0 or more lets it pass. *)
Theorem RequiredStatFilter_Matches_missing
        (stod : string -> result Double.t) (property_ : string)
        (item : Item.t) (data : FilterData.t) :
  Item.requirements item !! property_ = None ->
  (FilterData.min_filled data = true ->
   Double.gt (FilterData.min data) Double.zero = true ->
   MinMaxFilter_Matches stod (RequiredStatFilter property_) item data = Return false)
  /\ (FilterData.min_filled data = false ->
      FilterData.max_filled data = true ->
      Double.le Double.zero (FilterData.max data) = true ->
      MinMaxFilter_Matches stod (RequiredStatFilter property_) item data = Return true).
Proof.
  intros Hnone. unfold MinMaxFilter_Matches. simpl.
  unfold RequiredStatFilter_GetValue, map_count, map_at, to_bool. rewrite Hnone. simpl.
  split.
  - intros -> ->. reflexivity.
  - intros -> -> Hle. simpl.
    destruct (SFleb_not_nan _ _ Hle) as [Hn1 Hn2].
    rewrite (lt_not_ge _ _ Hn2 Hn1). unfold Double.ge.
    unfold Double.le in Hle. rewrite Hle. reflexivity.
Qed.

Lemma RequiredStatFilter_Matches_missing_witness :
  let item := properties_item ∅ in
  let data := minmax_data false Double.zero true (Double.of_int 10) in
  (Item.requirements item !! "Level" = None
   /\ Double.le Double.zero (FilterData.max data) = true)
  /\ MinMaxFilter_Matches Numeral.stod (RequiredStatFilter "Level") item data
     = Return true.
Proof.
  intros item data. split; [split; reflexivity|].
  exact (proj2 (RequiredStatFilter_Matches_missing Numeral.stod "Level" item data
                  eq_refl) eq_refl eq_refl eq_refl).
Defined.

(** ** The forms, continued *)

Lemma c_str_no_nul (s : string) : c_str s = s <-> no_nul s = true.
Proof.
  induction s as [|c s IH]; simpl; [tauto|].
  destruct (Ascii.eqb c "000"); simpl.
  - split; discriminate.
  - rewrite <- IH. split; [intros [= H]; exact H | intros ->; reflexivity].
Qed.

Lemma no_nul_c_str (s : string) : no_nul (c_str s) = true.
Proof.
  induction s as [|c s IH]; simpl; [reflexivity|].
  destruct (Ascii.eqb c "000") eqn:Hc; simpl; [reflexivity|].
  rewrite Hc, IH. reflexivity.
Qed.

(** X15: the search text goes through the form unchanged exactly when it has
    no NUL character: [ToForm] after [FromForm] leaves the form as it was if
    and only if the textbox holds no NUL, and the query that [FromForm]
    stores never holds one. *)
Theorem NameSearchFilter_form_exact (form : Form.t) (data0 : FilterData.t) :
  (NameSearchFilter_ToForm (NameSearchFilter_FromForm form data0) form = form
   <-> no_nul (Form.textbox_ form) = true)
  /\ no_nul (FilterData.text_query (NameSearchFilter_FromForm form data0)) = true.
Proof.
  destruct form as [t tmin tmax tr tg tb], data0.
  unfold NameSearchFilter_ToForm, NameSearchFilter_FromForm, Form.set_textbox_,
    FilterData.set_text_query. simpl. split; [|apply no_nul_c_str].
  rewrite c_str_idempotent, <- c_str_no_nul. split.
  - intros [= H]. exact H.
  - intros ->. reflexivity.
Qed.

(** X16: after [ResetForm], what [FromForm] reads constrains nothing: the
    filter matches every item on which the value extraction does not throw,
    whatever the form showed and the data held before. *)
Theorem Matches_after_ResetForm
        (qt : Qt.conversions) (stod : string -> result Double.t) (filter_ : Filter)
        (item : Item.t) (form : Form.t) (data0 : FilterData.t) :
  (forall (property_ s : string),
      filter_ = MinMax (SimplePropertyFilter property_) ->
      Item.properties item !! property_ = Some s ->
      exists v, stod s = Return v) ->
  Matches stod filter_ item (FromForm qt filter_ (ResetForm filter_ form) data0)
  = Return true.
Proof.
  intros Hstod. destruct form as [t tmin tmax tr tg tb], data0.
  destruct filter_ as [|f| |]; simpl.
  - f_equal. unfold NameSearchFilter_Matches. simpl.
    destruct (transform_tolower (Item.PrettyName item)); reflexivity.
  - unfold MinMaxFilter_Matches. simpl.
    destruct f as [property_|property_|func_| |]; simpl; try reflexivity.
    + unfold SimplePropertyFilter_IsValuePresent, SimplePropertyFilter_GetValue,
        map_count, map_at, to_bool.
      destruct (Item.properties item !! property_) as [s|] eqn:Hs; simpl; [|reflexivity].
      destruct (Hstod property_ s eq_refl Hs) as [v ->]. reflexivity.
    + unfold RequiredStatFilter_GetValue, map_count, map_at, to_bool.
      destruct (Item.requirements item !! property_); reflexivity.
  - reflexivity.
  - reflexivity.
Qed.

Lemma Matches_after_ResetForm_witness :
  let filter_ := LinksColorsFilter in
  let item := sockets_item [Socket.mk 0 "S"] in
  let form := Form.set_textbox_r_ "3" (Form.set_textbox_b_ "x" Form.empty) in
  let data0 := colors_data true 3 false 0 true 0 in
  (forall (property_ s : string),
      filter_ = MinMax (SimplePropertyFilter property_) ->
      Item.properties item !! property_ = Some s ->
      exists v, Numeral.stod s = Return v)
  /\ Matches Numeral.stod filter_ item
       (FromForm Qt.model filter_ (ResetForm filter_ form) data0) = Return true.
Proof.
  intros filter_ item form data0.
  assert (H : forall (property_ s : string),
             filter_ = MinMax (SimplePropertyFilter property_) ->
             Item.properties item !! property_ = Some s ->
             exists v, Numeral.stod s = Return v) by discriminate.
  split; [exact H|].
  exact (Matches_after_ResetForm Qt.model Numeral.stod filter_ item form data0 H).
Defined.

(** X17: [ToForm] of the colour filters leaves old text in the field of an
    unfilled colour, so the form then reads as filled: after [ToForm], a
    colour is read back as filled exactly when it was filled or its field
    already held text. *)
Theorem SocketsColorsFilter_ToForm_FromForm_flags
        (qt : Qt.conversions) (data data' : FilterData.t) (form : Form.t) :
  (FilterData.r_filled data = true ->
   size_positive (Qt.number_int qt (FilterData.r data)) = true) ->
  (FilterData.g_filled data = true ->
   size_positive (Qt.number_int qt (FilterData.g data)) = true) ->
  (FilterData.b_filled data = true ->
   size_positive (Qt.number_int qt (FilterData.b data)) = true) ->
  let read := SocketsColorsFilter_FromForm
                qt (SocketsColorsFilter_ToForm qt data form) data' in
  FilterData.r_filled read
  = FilterData.r_filled data || size_positive (Form.textbox_r_ form)
  /\ FilterData.g_filled read
     = FilterData.g_filled data || size_positive (Form.textbox_g_ form)
  /\ FilterData.b_filled read
     = FilterData.b_filled data || size_positive (Form.textbox_b_ form).
Proof.
  intros Hr Hg Hb. destruct form as [t tmin tmax tr tg tb], data'.
  unfold SocketsColorsFilter_FromForm, SocketsColorsFilter_ToForm. simpl.
  destruct (FilterData.r_filled data), (FilterData.g_filled data),
    (FilterData.b_filled data); simpl;
    rewrite ?(Hr eq_refl), ?(Hg eq_refl), ?(Hb eq_refl); auto.
Qed.

Lemma SocketsColorsFilter_ToForm_FromForm_flags_witness :
  let data := colors_data false 0 true 2 false 0 in
  let form := Form.set_textbox_r_ "3" Form.empty in
  let read := SocketsColorsFilter_FromForm
                Qt.model (SocketsColorsFilter_ToForm Qt.model data form) data in
  size_positive (Qt.number_int Qt.model (FilterData.g data)) = true
  /\ FilterData.r_filled data = false
  /\ FilterData.r_filled read = true
  /\ FilterData.r read = 3.
Proof.
  intros data form read. split; [reflexivity|]. split; [reflexivity|].
  split; [|reflexivity].
  destruct (SocketsColorsFilter_ToForm_FromForm_flags Qt.model data data form
              (fun H => ltac:(discriminate H)) (fun _ => eq_refl)
              (fun H => ltac:(discriminate H))) as (H & _).
  exact H.
Defined.

(** X18: [ToForm] of the range filters empties the field of an unfilled
    bound, so the flags survive: after [ToForm] on any form, [FromForm]
    reads back the flags of the data, and the value of every filled bound
    whose printed text reads as the same number. *)
Theorem MinMaxFilter_ToForm_FromForm
        (qt : Qt.conversions) (data data' : FilterData.t) (form : Form.t) :
  (FilterData.min_filled data = true ->
   size_positive (Qt.number_double qt (FilterData.min data)) = true) ->
  (FilterData.max_filled data = true ->
   size_positive (Qt.number_double qt (FilterData.max data)) = true) ->
  let read := MinMaxFilter_FromForm qt (MinMaxFilter_ToForm qt data form) data' in
  FilterData.min_filled read = FilterData.min_filled data
  /\ FilterData.max_filled read = FilterData.max_filled data
  /\ (FilterData.min_filled data = true ->
      Qt.toDouble qt (Qt.number_double qt (FilterData.min data)) = FilterData.min data ->
      FilterData.min read = FilterData.min data)
  /\ (FilterData.max_filled data = true ->
      Qt.toDouble qt (Qt.number_double qt (FilterData.max data)) = FilterData.max data ->
      FilterData.max read = FilterData.max data).
Proof.
  intros Hmin Hmax. destruct form as [t tmin tmax tr tg tb], data'.
  unfold MinMaxFilter_FromForm, MinMaxFilter_ToForm. simpl.
  destruct (FilterData.min_filled data), (FilterData.max_filled data); simpl;
    rewrite ?(Hmin eq_refl), ?(Hmax eq_refl); repeat split; auto; discriminate.
Qed.

Lemma MinMaxFilter_ToForm_FromForm_witness :
  let data := minmax_data true (Double.of_int 12) false Double.zero in
  let form := Form.set_textbox_max_ "99" (Form.set_textbox_min_ "1" Form.empty) in
  let read := MinMaxFilter_FromForm Qt.model (MinMaxFilter_ToForm Qt.model data form) data in
  size_positive (Qt.number_double Qt.model (FilterData.min data)) = true
  /\ FilterData.min_filled read = true
  /\ FilterData.max_filled read = false.
Proof.
  intros data form read. split; [reflexivity|].
  destruct (MinMaxFilter_ToForm_FromForm Qt.model data data form
              (fun _ => eq_refl) (fun H => ltac:(discriminate H))) as (H1 & H2 & _).
  split; [exact H1 | exact H2].
Defined.
